(** * ZStack AI assistant: the resource client and the tool-calling engine

    A shallow embedding of [extension/lib/zstack.js] (class [ZStackClient])
    and of the streaming [LLMEngine] (its [chat] loop, the two protocol
    adapters, [_executeTool] and the tools declared to the provider),
    followed by the properties proved of them.

    Conventions.
    - A JavaScript string is a [string].  On ASCII text a character is a
      code unit: [String.length] is the [.length] of the source and
      [slice] cuts where the source cuts.  Text outside ASCII is carried
      as its UTF-8 bytes, which are at least as many as its code units;
      [String.length] and [slice] count the same unit throughout.
    - A JavaScript value that came out of [JSON.parse] is a [json]; a value
      that may also be [undefined] is a [jsval] ([None] is [undefined]).
    - Numbers are exact decimals [m * 10^e]; rounding to binary64 is not
      modelled (no property below does arithmetic on them).
    - An object keeps its keys in insertion order (keys that are array
      indices, which JavaScript lists first, are not told apart).
    - [async] code is sequenced: a rejected promise is a [Throw], an
      [await] is a bind. *)

From Stdlib Require Import String Ascii List ZArith Lia Bool Arith.
From Stdlib Require Import Numbers.DecimalString.
Import ListNotations.
Open Scope list_scope.
Open Scope string_scope.

Set Implicit Arguments.
Set Warnings "-register-all,-abstract-large-number".

(* ================================================================== *)
(** ** Strings *)

(** The double-quote character. *)
Definition dq : ascii := ascii_of_nat 34.
Definition bs : ascii := ascii_of_nat 92.

(** [q s] is [s] with every apostrophe turned into a double quote; it lets
    JSON text be written legibly: [q "{'a':1}"]. *)
Fixpoint q (s : string) : string :=
  match s with
  | EmptyString => EmptyString
  | String c r => String (if Ascii.eqb c "'" then dq else c) (q r)
  end.

(** [s.startsWith(pre)] *)
Definition startsWith (pre s : string) : bool := String.prefix pre s.

(** [s.includes(sub)] *)
Fixpoint includes (sub s : string) : bool :=
  String.prefix sub s ||
  match s with
  | EmptyString => false
  | String _ r => includes sub r
  end.

(** [s.slice(0, n)] for a count [n] *)
Fixpoint slice_to (n : nat) (s : string) : string :=
  match n, s with
  | S k, String c r => String c (slice_to k r)
  | _, _ => EmptyString
  end.

(** [s.slice(n)] for a count [n] *)
Fixpoint slice_from (n : nat) (s : string) : string :=
  match n, s with
  | S k, String _ r => slice_from k r
  | _, _ => s
  end.

Definition lower_char (c : ascii) : ascii :=
  let n := nat_of_ascii c in
  if ((65 <=? n)%nat && (n <=? 90)%nat)%bool then ascii_of_nat (n + 32) else c.

(** [s.toLowerCase()] (on the ASCII letters) *)
Fixpoint toLowerCase (s : string) : string :=
  match s with
  | EmptyString => EmptyString
  | String c r => String (lower_char c) (toLowerCase r)
  end.

Definition is_ws (c : ascii) : bool :=
  match nat_of_ascii c with
  | 32 | 9 | 10 | 11 | 12 | 13 => true
  | _ => false
  end.

Fixpoint trim_start (s : string) : string :=
  match s with
  | String c r => if is_ws c then trim_start r else s
  | EmptyString => EmptyString
  end.

(** Drops trailing white space: a character stays when something that is
    not white space follows it or it is not white space itself. *)
Fixpoint trim_end (s : string) : string :=
  match s with
  | EmptyString => EmptyString
  | String c r =>
      match trim_end r with
      | EmptyString => if is_ws c then EmptyString else String c EmptyString
      | t => String c t
      end
  end.

(** [s.trim()] (of ASCII white space) *)
Definition trim (s : string) : string := trim_end (trim_start s).

(** [s.split('\n')]: always at least one piece. *)
Fixpoint split_lines (s : string) : list string :=
  match s with
  | EmptyString => [EmptyString]
  | String c r =>
      if Ascii.eqb c (ascii_of_nat 10) then EmptyString :: split_lines r
      else match split_lines r with
           | l :: ls => String c l :: ls
           | [] => [String c EmptyString]
           end
  end.

(** [parts.join(sep)] *)
Fixpoint join (sep : string) (parts : list string) : string :=
  match parts with
  | [] => EmptyString
  | [p] => p
  | p :: rest => p ++ sep ++ join sep rest
  end.

(* ================================================================== *)
(** ** Errors and results *)

Record js_error := mkError { err_name : string; err_message : string }.

Definition Error (msg : string) : js_error := mkError "Error" msg.
Definition TypeError (msg : string) : js_error := mkError "TypeError" msg.
Definition SyntaxError (msg : string) : js_error := mkError "SyntaxError" msg.
(** What [fetch], [res.text()] and [reader.read()] reject with once the
    signal passed to [fetch] is aborted. *)
Definition AbortError : js_error :=
  mkError "AbortError" "The user aborted a request.".

Inductive result (A : Type) : Type :=
| Ok (a : A)
| Throw (e : js_error).
Arguments Ok {A} a.
Arguments Throw {A} e.

Definition rbind {A B} (m : result A) (k : A -> result B) : result B :=
  match m with
  | Ok a => k a
  | Throw e => Throw e
  end.

Declare Scope result_scope.
Delimit Scope result_scope with result.
Notation "x <- m ;; k" := (rbind m (fun x => k))
  (at level 61, m at next level, right associativity) : result_scope.

(* ================================================================== *)
(** ** JSON values *)

Inductive json : Type :=
| JNull
| JBool (b : bool)
| JNum (m e : Z)
| JStr (s : string)
| JArr (l : list json)
| JObj (fs : list (string * json)).

Abbreviation jsval := (option json) (only parsing).
Definition undefined : jsval := None.

Definition JInt (n : Z) : json := JNum n 0.

(** ToBoolean *)
Definition truthy (v : jsval) : bool :=
  match v with
  | None => false
  | Some JNull => false
  | Some (JBool b) => b
  | Some (JNum m _) => negb (m =? 0)%Z
  | Some (JStr s) => negb (s =? "")
  | Some (JArr _) | Some (JObj _) => true
  end.

(** [a || b] *)
Definition js_or (a b : jsval) : jsval := if truthy a then a else b.

Fixpoint lookup (k : string) (fs : list (string * json)) : jsval :=
  match fs with
  | [] => None
  | (k', v) :: r => if k' =? k then Some v else lookup k r
  end.

(** [o[k] = v] on an object: an existing key keeps its place. *)
Fixpoint obj_set (k : string) (v : json) (fs : list (string * json))
  : list (string * json) :=
  match fs with
  | [] => [(k, v)]
  | (k', v') :: r => if k' =? k then (k, v) :: r else (k', v') :: obj_set k v r
  end.

(** [o.k] for a key that no prototype defines ([resource_path], [uuid],
    [inventory], ...): [undefined] on anything but an object that has it,
    a [TypeError] on [null] and [undefined]. *)
Definition prop (o : jsval) (k : string) : result jsval :=
  match o with
  | None =>
      Throw (TypeError ("Cannot read properties of undefined (reading '" ++ k ++ "')"))
  | Some JNull =>
      Throw (TypeError ("Cannot read properties of null (reading '" ++ k ++ "')"))
  | Some (JObj fs) => Ok (lookup k fs)
  | Some _ => Ok None
  end.

(** [v === s] for a string literal [s] *)
Definition is_string (s : string) (v : jsval) : bool :=
  match v with
  | Some (JStr t) => t =? s
  | _ => false
  end.

(** [o?.k] *)
Definition prop_opt (o : jsval) (k : string) : jsval :=
  match o with
  | Some (JObj fs) => lookup k fs
  | _ => None
  end.

(** [o?.length] *)
Definition length_opt (o : jsval) : jsval :=
  match o with
  | Some (JArr l) => Some (JInt (Z.of_nat (List.length l)))
  | Some (JStr s) => Some (JInt (Z.of_nat (String.length s)))
  | Some (JObj fs) => lookup "length" fs
  | _ => None
  end.

(** [o[0]] on a value that is not nullish *)
Definition first_elem (o : jsval) : jsval :=
  match o with
  | Some (JArr (x :: _)) => Some x
  | Some (JStr (String c _)) => Some (JStr (String c EmptyString))
  | Some (JObj fs) => lookup "0" fs
  | _ => None
  end.

(** [v > 0] for the values [length_opt] gives (a number, else a number
    held in a boolean; anything else compares as not greater). *)
Definition gt_zero (v : jsval) : bool :=
  match v with
  | Some (JNum m _) => (0 <? m)%Z
  | Some (JBool b) => b
  | _ => false
  end.

(* ------------------------------------------------------------------ *)
(** *** Printing numbers and values *)

Definition digits_of (n : Z) : string :=
  NilZero.string_of_uint (N.to_uint (Z.to_N n)).

Fixpoint zeros (n : nat) : string :=
  match n with
  | O => EmptyString
  | S k => String "0" (zeros k)
  end.

(** The decimal notation of [m * 10^e]: an integer is printed with its
    digits, a fraction with a decimal point (no exponent notation). *)
Definition number_to_string (m e : Z) : string :=
  let sign := if (m <? 0)%Z then "-" else "" in
  let ds := digits_of (Z.abs m) in
  if (0 <=? e)%Z then
    sign ++ ds ++ (if (m =? 0)%Z then "" else zeros (Z.to_nat e))
  else
    let k := Z.to_nat (- e) in
    let n := String.length ds in
    if (k <? n)%nat then
      sign ++ slice_to (n - k) ds ++ "." ++ slice_from (n - k) ds
    else sign ++ "0." ++ zeros (k - n) ++ ds.

(** ToString, as a template literal or [String(v)] applies it. *)
Fixpoint to_string_json (j : json) : string :=
  match j with
  | JNull => "null"
  | JBool true => "true"
  | JBool false => "false"
  | JNum m e => number_to_string m e
  | JStr s => s
  | JArr l =>
      join "," (map (fun x => match x with
                              | JNull => EmptyString
                              | _ => to_string_json x
                              end) l)
  | JObj _ => "[object Object]"
  end.

Definition to_string (v : jsval) : string :=
  match v with
  | None => "undefined"
  | Some j => to_string_json j
  end.

(* ------------------------------------------------------------------ *)
(** *** JSON.stringify *)

Definition hex_digit (n : nat) : ascii :=
  if (n <? 10)%nat then ascii_of_nat (48 + n) else ascii_of_nat (87 + n).

Definition escape_char (c : ascii) : string :=
  let n := nat_of_ascii c in
  if Ascii.eqb c dq then String bs (String dq EmptyString)
  else if Ascii.eqb c bs then String bs (String bs EmptyString)
  else if (n =? 8)%nat then String bs "b"
  else if (n =? 12)%nat then String bs "f"
  else if (n =? 10)%nat then String bs "n"
  else if (n =? 13)%nat then String bs "r"
  else if (n =? 9)%nat then String bs "t"
  else if (n <? 32)%nat then
    String bs ("u00" ++ String (hex_digit (n / 16)) (String (hex_digit (n mod 16)) EmptyString))
  else String c EmptyString.

Fixpoint escape (s : string) : string :=
  match s with
  | EmptyString => EmptyString
  | String c r => escape_char c ++ escape r
  end.

Definition quote (s : string) : string :=
  String dq (escape s ++ String dq EmptyString).

(** [JSON.stringify(j)] *)
Fixpoint JSON_stringify (j : json) : string :=
  match j with
  | JNull => "null"
  | JBool true => "true"
  | JBool false => "false"
  | JNum m e => number_to_string m e
  | JStr s => quote s
  | JArr l => "[" ++ join "," (map JSON_stringify l) ++ "]"
  | JObj fs =>
      "{" ++ join "," (map (fun kv => quote (fst kv) ++ ":" ++ JSON_stringify (snd kv)) fs)
          ++ "}"
  end.

(* ------------------------------------------------------------------ *)
(** *** JSON.parse *)

Definition is_digit (c : ascii) : bool :=
  let n := nat_of_ascii c in ((48 <=? n)%nat && (n <=? 57)%nat)%bool.

Definition digit_val (c : ascii) : Z := Z.of_nat (nat_of_ascii c - 48).

Definition hex_val (c : ascii) : option nat :=
  let n := nat_of_ascii c in
  if ((48 <=? n)%nat && (n <=? 57)%nat)%bool then Some (n - 48)
  else if ((97 <=? n)%nat && (n <=? 102)%nat)%bool then Some (n - 87)
  else if ((65 <=? n)%nat && (n <=? 70)%nat)%bool then Some (n - 55)
  else None.

(** The white space of JSON: space, tab, line feed, carriage return. *)
Definition is_json_ws (c : ascii) : bool :=
  let n := nat_of_ascii c in
  ((n =? 32) || (n =? 9) || (n =? 10) || (n =? 13))%nat.

Fixpoint skip_ws (s : string) : string :=
  match s with
  | String c r => if is_json_ws c then skip_ws r else s
  | EmptyString => EmptyString
  end.

(** The UTF-8 bytes of a code unit given by a [\uXXXX] escape. *)
Definition utf8_of_code (n : nat) : string :=
  if (n <? 128)%nat then String (ascii_of_nat n) EmptyString
  else if (n <? 2048)%nat then
    String (ascii_of_nat (192 + n / 64))
      (String (ascii_of_nat (128 + n mod 64)) EmptyString)
  else
    String (ascii_of_nat (224 + n / 4096))
      (String (ascii_of_nat (128 + (n / 64) mod 64))
         (String (ascii_of_nat (128 + n mod 64)) EmptyString)).

(** The characters of a string literal after its opening quote, up to and
    including the closing one. *)
Fixpoint parse_chars (s : string) : option (string * string) :=
  match s with
  | EmptyString => None
  | String c r =>
      if Ascii.eqb c dq then Some (EmptyString, r)
      else if Ascii.eqb c bs then
        match r with
        | String e r' =>
            let continue (out : string) (rest : option (string * string)) :=
              match rest with
              | Some (t, r2) => Some (out ++ t, r2)
              | None => None
              end in
            let one (n : nat) := String (ascii_of_nat n) EmptyString in
            if Ascii.eqb e dq then continue (one 34) (parse_chars r')
            else if Ascii.eqb e bs then continue (one 92) (parse_chars r')
            else if Ascii.eqb e "/" then continue "/" (parse_chars r')
            else if Ascii.eqb e "b" then continue (one 8) (parse_chars r')
            else if Ascii.eqb e "f" then continue (one 12) (parse_chars r')
            else if Ascii.eqb e "n" then continue (one 10) (parse_chars r')
            else if Ascii.eqb e "r" then continue (one 13) (parse_chars r')
            else if Ascii.eqb e "t" then continue (one 9) (parse_chars r')
            else if Ascii.eqb e "u" then
              match r' with
              | String h1 (String h2 (String h3 (String h4 r''))) =>
                  match hex_val h1, hex_val h2, hex_val h3, hex_val h4 with
                  | Some a, Some b, Some c', Some d =>
                      continue (utf8_of_code (((a * 16 + b) * 16 + c') * 16 + d))
                               (parse_chars r'')
                  | _, _, _, _ => None
                  end
              | _ => None
              end
            else None
        | EmptyString => None
        end
      else if (nat_of_ascii c <? 32)%nat then None
      else match parse_chars r with
           | Some (t, r2) => Some (String c t, r2)
           | None => None
           end
  end.

(** A run of digits: their value, how many, and what follows. *)
Fixpoint take_digits (s : string) (acc : Z) (count : nat) : Z * nat * string :=
  match s with
  | String c r =>
      if is_digit c then take_digits r (acc * 10 + digit_val c)%Z (S count)
      else (acc, count, s)
  | EmptyString => (acc, count, s)
  end.

(** Trailing zeros of the mantissa move to the exponent, so that a number
    has one representation. *)
Fixpoint normalize_num (fuel : nat) (m e : Z) : Z * Z :=
  match fuel with
  | O => (m, e)
  | S f =>
      if (m =? 0)%Z then (0%Z, 0%Z)
      else if (m mod 10 =? 0)%Z then normalize_num f (m / 10)%Z (e + 1)%Z
      else (m, e)
  end.

(** [-? int frac? exp?] *)
Definition parse_number (s : string) : option (json * string) :=
  let '(neg, s1) :=
    match s with
    | String c r => if Ascii.eqb c "-" then (true, r) else (false, s)
    | EmptyString => (false, s)
    end in
  match s1 with
  | String c0 _ =>
      if is_digit c0 then
        let '(ip, ic, s2) := take_digits s1 0%Z 0 in
        (* no leading zero before another digit *)
        if (Ascii.eqb c0 "0" && (1 <? ic)%nat)%bool then None
        else
          let frac :=
            match s2 with
            | String c r =>
                if Ascii.eqb c "." then
                  let '(m, fc, s3) := take_digits r ip 0 in
                  if (fc =? 0)%nat then None else Some (m, fc, s3)
                else Some (ip, 0, s2)
            | EmptyString => Some (ip, 0, s2)
            end in
          match frac with
          | None => None
          | Some (m, fc, s3) =>
              let expo :=
                match s3 with
                | String x r =>
                    if (Ascii.eqb x "e" || Ascii.eqb x "E")%bool then
                      let '(eneg, r1) :=
                        match r with
                        | String y r0 =>
                            if Ascii.eqb y "-" then (true, r0)
                            else if Ascii.eqb y "+" then (false, r0)
                            else (false, r)
                        | EmptyString => (false, r)
                        end in
                      let '(ev, ec, s4) := take_digits r1 0%Z 0 in
                      if (ec =? 0)%nat then None
                      else Some ((if eneg then - ev else ev)%Z, s4)
                    else Some (0%Z, s3)
                | EmptyString => Some (0%Z, s3)
                end in
              match expo with
              | None => None
              | Some (ev, s4) =>
                  let m' := (if neg then - m else m)%Z in
                  let '(mn, en) :=
                    normalize_num (ic + fc) m' (ev - Z.of_nat fc)%Z in
                  Some (JNum mn en, s4)
              end
          end
      else None
  | EmptyString => None
  end.

(** A value, then the members of an object after its first key or the
    elements of an array after its first element.  [fuel] bounds the
    nesting and the number of members; [parse_json] gives one more than
    the text has characters, which is enough: see [parse_value_fuel]. *)
Fixpoint parse_value (fuel : nat) (s : string) : option (json * string) :=
  match fuel with
  | O => None
  | S f =>
      match skip_ws s with
      | EmptyString => None
      | String c r =>
          if Ascii.eqb c "{" then
            match skip_ws r with
            | String c1 r1 =>
                if Ascii.eqb c1 "}" then Some (JObj [], r1)
                else parse_members f (String c1 r1) []
            | EmptyString => None
            end
          else if Ascii.eqb c "[" then
            match skip_ws r with
            | String c1 r1 =>
                if Ascii.eqb c1 "]" then Some (JArr [], r1)
                else parse_elements f (String c1 r1) []
            | EmptyString => None
            end
          else if Ascii.eqb c dq then
            match parse_chars r with
            | Some (t, r1) => Some (JStr t, r1)
            | None => None
            end
          else if String.prefix "true" (String c r) then Some (JBool true, slice_from 4 (String c r))
          else if String.prefix "false" (String c r) then Some (JBool false, slice_from 5 (String c r))
          else if String.prefix "null" (String c r) then Some (JNull, slice_from 4 (String c r))
          else parse_number (String c r)
      end
  end
with parse_members (fuel : nat) (s : string) (acc : list (string * json))
  : option (json * string) :=
  match fuel with
  | O => None
  | S f =>
      match skip_ws s with
      | String c r =>
          if Ascii.eqb c dq then
            match parse_chars r with
            | Some (k, r1) =>
                match skip_ws r1 with
                | String c2 r2 =>
                    if Ascii.eqb c2 ":" then
                      match parse_value f r2 with
                      | Some (v, r3) =>
                          match skip_ws r3 with
                          | String c4 r4 =>
                              if Ascii.eqb c4 "," then parse_members f r4 (obj_set k v acc)
                              else if Ascii.eqb c4 "}" then Some (JObj (obj_set k v acc), r4)
                              else None
                          | EmptyString => None
                          end
                      | None => None
                      end
                    else None
                | EmptyString => None
                end
            | None => None
            end
          else None
      | EmptyString => None
      end
  end
with parse_elements (fuel : nat) (s : string) (acc : list json)
  : option (json * string) :=
  match fuel with
  | O => None
  | S f =>
      match parse_value f s with
      | Some (v, r1) =>
          match skip_ws r1 with
          | String c2 r2 =>
              if Ascii.eqb c2 "," then parse_elements f r2 (acc ++ [v])%list
              else if Ascii.eqb c2 "]" then Some (JArr (acc ++ [v])%list, r2)
              else None
          | EmptyString => None
          end
      | None => None
      end
  end.

Definition parse_json (s : string) : option json :=
  match parse_value (S (String.length s)) s with
  | Some (v, rest) =>
      match skip_ws rest with
      | EmptyString => Some v
      | _ => None
      end
  | None => None
  end.

(* ================================================================== *)
(** ** The platform

    What the program takes from the JavaScript engine and the browser and
    that is no code of the repository: the message the engine puts in the
    [SyntaxError] of a failed [JSON.parse], and the SHA-512 digest (in hex)
    of [crypto.subtle]. *)

Record runtime := {
  syntax_error_message : string -> string;
  sha512_hex : string -> string
}.

(** A platform to run examples on: one fixed message, and a stand-in for
    the digest. *)
Definition example_runtime : runtime := {|
  syntax_error_message := fun _ => "Unexpected end of JSON input";
  sha512_hex := fun s => "sha512:" ++ s
|}.

Definition JSON_parse (rt : runtime) (s : string) : result json :=
  match parse_json s with
  | Some v => Ok v
  | None => Throw (SyntaxError (syntax_error_message rt s))
  end.

(** [{ error: msg }] *)
Definition error_object (msg : string) : json := JObj [("error", JStr msg)].

(* ================================================================== *)
(** ** Tool dispatch: path normalisation

    [const fixPath = (p) => p && !p.startsWith('v1/') ? `v1/${p}` : p;]
    The argument is whatever the model put in [resource_path]. *)

(** [p.startsWith(pre)]: only a string has the method. *)
Definition startsWith_method (p : jsval) (pre : string) : result bool :=
  match p with
  | Some (JStr s) => Ok (startsWith pre s)
  | None | Some JNull =>
      Throw (TypeError "Cannot read properties of undefined (reading 'startsWith')")
  | Some _ => Throw (TypeError "p.startsWith is not a function")
  end.

Definition fixPath (p : jsval) : result jsval :=
  if truthy p then
    (has <- startsWith_method p "v1/" ;;
     if negb has then Ok (Some (JStr ("v1/" ++ to_string p))) else Ok p)%result
  else Ok p.

(* ================================================================== *)
(** ** The resource client ([ZStackClient])

    The client's fields are a record; the server is a function from the
    requests it has already seen and the next one to what [fetch] gives.
    Every request [fetch] is called with is appended to a log. *)

Record request := {
  req_method : string;
  req_url : string;
  req_headers : list (string * string);
  req_body : option string
}.

(** What [fetch] followed by [res.text()] gives: a status and the body's
    text, or a rejection (network failure). *)
Inductive fetch_result :=
| Responds (status : Z) (text : string)
| Fails (e : js_error).

Definition server := list request -> request -> fetch_result.

Record ZStackClient := {
  endpoint : string;
  sessionId : jsval;
  _accountName : option string;
  _password : option string;
  _relogging : bool
}.

(** [new ZStackClient()] *)
Definition new_client : ZStackClient := {|
  endpoint := "";
  sessionId := Some JNull;
  _accountName := None;
  _password := None;
  _relogging := false
|}.

Definition set_sessionId (v : jsval) (c : ZStackClient) : ZStackClient :=
  {| endpoint := endpoint c; sessionId := v; _accountName := _accountName c;
     _password := _password c; _relogging := _relogging c |}.

Definition set_credentials (a p : string) (c : ZStackClient) : ZStackClient :=
  {| endpoint := endpoint c; sessionId := sessionId c; _accountName := Some a;
     _password := Some p; _relogging := _relogging c |}.

Definition set_relogging (b : bool) (c : ZStackClient) : ZStackClient :=
  {| endpoint := endpoint c; sessionId := sessionId c;
     _accountName := _accountName c; _password := _password c;
     _relogging := b |}.

(** [isLoggedIn() { return !!this.sessionId; }] *)
Definition isLoggedIn (c : ZStackClient) : bool := truthy (sessionId c).

Record world := { cli : ZStackClient; log : list request }.

Definition M (A : Type) : Type := world -> result A * world.

Definition ret {A} (a : A) : M A := fun w => (Ok a, w).
Definition throw {A} (e : js_error) : M A := fun w => (Throw e, w).
Definition bind {A B} (m : M A) (k : A -> M B) : M B :=
  fun w => match m w with
           | (Ok a, w') => k a w'
           | (Throw e, w') => (Throw e, w')
           end.
(** [try { m } catch (e) { h e }] *)
Definition try_catch {A} (m : M A) (h : js_error -> M A) : M A :=
  fun w => match m w with
           | (Ok a, w') => (Ok a, w')
           | (Throw e, w') => h e w'
           end.
(** [try { m } finally { f }] for an [f] that only assigns fields *)
Definition finally {A} (m : M A) (f : ZStackClient -> ZStackClient) : M A :=
  fun w => let (r, w') := m w in (r, {| cli := f (cli w'); log := log w' |}).
Definition lift {A} (r : result A) : M A := fun w => (r, w).
Definition this : M ZStackClient := fun w => (Ok (cli w), w).
Definition assign (f : ZStackClient -> ZStackClient) : M unit :=
  fun w => (Ok tt, {| cli := f (cli w); log := log w |}).

Declare Scope client_scope.
Delimit Scope client_scope with cli.
Notation "x <- m ;; k" := (bind m (fun x => k))
  (at level 61, m at next level, right associativity) : client_scope.
Notation "m ;;; k" := (bind m (fun _ => k))
  (at level 61, right associativity) : client_scope.

(** [URLSearchParams]: the [application/x-www-form-urlencoded] text. *)
Definition form_byte (c : ascii) : string :=
  let n := nat_of_ascii c in
  if (n =? 32)%nat then "+"
  else if (is_digit c
           || ((65 <=? n)%nat && (n <=? 90)%nat)
           || ((97 <=? n)%nat && (n <=? 122)%nat)
           || (n =? 42)%nat || (n =? 45)%nat || (n =? 46)%nat || (n =? 95)%nat)%bool
  then String c EmptyString
  else
    let hex k := if (k <? 10)%nat then ascii_of_nat (48 + k) else ascii_of_nat (55 + k) in
    String "%" (String (hex (n / 16)) (String (hex (n mod 16)) EmptyString)).

Fixpoint form_encode (s : string) : string :=
  match s with
  | EmptyString => EmptyString
  | String c r => form_byte c ++ form_encode r
  end.

Definition search_params (ps : list (string * string)) : string :=
  join "&" (map (fun kv => form_encode (fst kv) ++ "=" ++ form_encode (snd kv)) ps).

(** [params.set(k, v)]: the first pair named [k] takes the value and the
    others go; without one the pair is appended. *)
Fixpoint params_set (k v : string) (ps : list (string * string))
  : list (string * string) :=
  match ps with
  | [] => [(k, v)]
  | (k', v') :: r =>
      if k' =? k then (k, v) :: filter (fun kv => negb (fst kv =? k)) r
      else (k', v') :: params_set k v r
  end.

(** The request a client [c] sends for a method, a path and a body:
    [fetch(`${this.endpoint}/zstack${path}`, { method, headers:
    this._headers(), body: JSON.stringify(body) })]. *)
Definition _headers (c : ZStackClient) : list (string * string) :=
  ("Content-Type", "application/json;charset=UTF-8") ::
  (if truthy (sessionId c)
   then [("Authorization", "OAuth " ++ to_string (sessionId c))]
   else []).

Definition request_of (c : ZStackClient) (method path : string) (body : option jsval)
  : request :=
  {| req_method := method;
     req_url := endpoint c ++ "/zstack" ++ path;
     req_headers := _headers c;
     req_body := match body with
                 | Some (Some j) => Some (JSON_stringify j)
                 | _ => None
                 end |}.

Section Client.

Variable rt : runtime.
Variable srv : server.

Open Scope client_scope.

(** [_isSessionExpired(res, data)] (no method calls it). *)
Definition _isSessionExpired (status : Z) (data : jsval) : bool :=
  if ((status =? 401) || (status =? 403))%Z then true
  else
    let errMsg :=
      toLowerCase
        (to_string (js_or (js_or (prop_opt (prop_opt data "error") "details")
                                 (prop_opt (prop_opt data "error") "description"))
                          (Some (JStr "")))) in
    if (includes "session" errMsg
        && (includes "expired" errMsg || includes "invalid" errMsg))%bool then true
    else if (includes "token" errMsg && includes "invalid" errMsg)%bool then true
    else false.

(** [res.ok] *)
Definition res_ok (status : Z) : bool := ((200 <=? status) && (status <=? 299))%Z.

(** [_handleResponse(res)], on the status and the text of [res]. *)
Definition _handleResponse (status : Z) (text : string) : result json :=
  let data :=
    match JSON_parse rt text with
    | Ok d => d
    | Throw _ => JStr text
    end in
  if negb (res_ok status) then
    let short :=
      match data with
      | JStr s => if (String.length s <? 200)%nat then Some data else Some JNull
      | _ => Some JNull
      end in
    let msg :=
      js_or (js_or (js_or (prop_opt (prop_opt (Some data) "error") "details")
                          (prop_opt (prop_opt (Some data) "error") "description"))
                   short)
            (Some (JStr ("HTTP " ++ to_string (Some (JInt status))))) in
    Throw (Error (to_string msg))
  else Ok data.

(** [fetch(`${this.endpoint}/zstack${path}`, { method, headers, body })]
    followed by [_handleResponse]: the request closures of [_get],
    [_rawPost], [_put] and [_delete]. *)
Definition handled (answer : fetch_result) : result json :=
  match answer with
  | Responds status text => _handleResponse status text
  | Fails e => Throw e
  end.

Definition do_request (method path : string) (body : option jsval) : M json :=
  fun w =>
    let req := request_of (cli w) method path body in
    (handled (srv (log w) req), {| cli := cli w; log := List.app (log w) [req] |}).

(** [_rawPost(path, body)], given the retry wrapper to use. *)
Definition rawPost_with (withRetry : M json -> M json) (path : string) (body : jsval)
  : M json :=
  let isLogin := includes "/accounts/login" path in
  let doRequest := do_request "POST" path (Some body) in
  if isLogin then doRequest else withRetry doRequest.

(** [login(accountName, password)], given [_rawPost]. *)
Definition login_with (rawPost : string -> jsval -> M json)
    (accountName password : string) : M json :=
  assign (set_credentials accountName password) ;;;
  let hashedPassword := sha512_hex rt password in
  res <- rawPost "/v1/accounts/login"
           (Some (JObj [("logInByAccount",
                         JObj [("accountName", JStr accountName);
                               ("password", JStr hashedPassword)])])) ;;
  inv <- lift (prop (Some res) "inventory") ;;
  let sid := prop_opt inv "uuid" in
  assign (set_sessionId sid) ;;;
  if negb (truthy sid)
  then throw (Error "登录失败：未获取到 session")
  else ret res.

(** [_relogin()], given [login]. *)
Definition relogin_with (login : string -> string -> M json) : M bool :=
  c <- this ;;
  let has (o : option string) :=
    match o with Some s => negb (s =? "") | None => false end in
  if (_relogging c || negb (has (_accountName c)) || negb (has (_password c)))%bool
  then ret false
  else
    assign (set_relogging true) ;;;
    finally
      (try_catch
         (assign (set_sessionId (Some JNull)) ;;;
          login (match _accountName c with Some a => a | None => "" end)
                (match _password c with Some p => p | None => "" end) ;;;
          ret true)
         (fun _ => ret false))
      (set_relogging false).

(** [isExpiry] in [_withRetry]: does the error look like an expired
    session? *)
Definition isExpiry (e : js_error) : bool :=
  let msg := toLowerCase (err_message e) in
  (includes "session" msg || includes "token" msg
   || includes "401" msg || includes "403" msg)%bool.

(** [_withRetry(requestFn)].  [_withRetry] calls [_relogin], which calls
    [login], which calls [_rawPost], which names [_withRetry] again: [depth]
    counts how often that cycle may be entered.  ([login_never_retries]
    shows it is never entered at all.) *)
Fixpoint _withRetry (depth : nat) (requestFn : M json) : M json :=
  match depth with
  | O => throw (mkError "RangeError" "Maximum call stack size exceeded")
  | S d =>
      try_catch requestFn (fun e =>
        c <- this ;;
        if (isExpiry e && negb (_relogging c))%bool then
          ok <- relogin_with (login_with (rawPost_with (_withRetry d))) ;;
          if ok then requestFn else throw e
        else throw e)
  end.

(** The wrapper the verbs use.  One level of the cycle is all a run
    needs: see [retry_depth_irrelevant]. *)
Definition retry : M json -> M json := _withRetry 1.

Definition _get (path : string) : M json :=
  retry (do_request "GET" path None).

Definition _rawPost (path : string) (body : jsval) : M json :=
  rawPost_with retry path body.

Definition _put (path : string) (body : jsval) : M json :=
  retry (do_request "PUT" path (Some body)).

Definition _delete (path : string) : M json :=
  retry (do_request "DELETE" path None).

Definition login : string -> string -> M json := login_with _rawPost.

Definition _relogin : M bool := relogin_with login.

(** A parameter's default value: taken when the argument is [undefined]. *)
Definition default_arg (v d : jsval) : jsval :=
  match v with
  | None => d
  | Some _ => v
  end.

(** [xs.forEach(...)]: the elements visited, or the [TypeError] of a
    receiver that has no such method. *)
Definition forEach (xs : jsval) : result (list json) :=
  match xs with
  | Some (JArr l) => Ok l
  | None =>
      Throw (TypeError "Cannot read properties of undefined (reading 'forEach')")
  | Some JNull =>
      Throw (TypeError "Cannot read properties of null (reading 'forEach')")
  | Some _ => Throw (TypeError "conditions.forEach is not a function")
  end.

(** [query(resourcePath, conditions = [], limit = 100, start = 0, sortBy,
    sortDirection)] *)
Definition query (resourcePath conditions limit start sortBy sortDirection : jsval)
  : M json :=
  let conditions := default_arg conditions (Some (JArr [])) in
  let limit := default_arg limit (Some (JInt 100)) in
  let start := default_arg start (Some (JInt 0)) in
  let params := params_set "limit" (to_string limit) [] in
  let params :=
    if truthy start then params_set "start" (to_string start) params else params in
  let params :=
    if truthy sortBy then
      params_set "sort"
        ((if is_string "desc" sortDirection then "-" else "+") ++ to_string sortBy)
        params
    else params in
  cs <- lift (forEach conditions) ;;
  let params := List.app params (map (fun c => ("q", to_string (Some c))) cs) in
  _get ("/" ++ to_string resourcePath ++ "?" ++ search_params params).

(** [get(resourcePath, uuid)]: a response that carries the entity in
    [inventories] gets it under [inventory] too. *)
Definition normalize_inventory (data : json) : result json :=
  (inventory <- prop (Some data) "inventory" ;;
   inventories <- prop (Some data) "inventories" ;;
   if (negb (truthy inventory) && gt_zero (length_opt inventories))%bool then
     match data, first_elem inventories with
     | JObj fs, Some x => Ok (JObj (obj_set "inventory" x fs))
     | _, _ => Ok data
     end
   else Ok data)%result.

Definition get (resourcePath uuid : jsval) : M json :=
  data <- _get ("/" ++ to_string resourcePath ++ "/" ++ to_string uuid) ;;
  lift (normalize_inventory data).

(** [create(resourcePath, body)] *)
Definition create (resourcePath body : jsval) : M json :=
  _rawPost ("/" ++ to_string resourcePath) body.

(** [update(resourcePath, uuid, body)] *)
Definition update (resourcePath uuid body : jsval) : M json :=
  _put ("/" ++ to_string resourcePath ++ "/" ++ to_string uuid) body.

(** [remove(resourcePath, uuid, deleteMode = 'Permissive')] *)
Definition remove (resourcePath uuid deleteMode : jsval) : M json :=
  let deleteMode := default_arg deleteMode (Some (JStr "Permissive")) in
  _delete ("/" ++ to_string resourcePath ++ "/" ++ to_string uuid
           ++ "?deleteMode=" ++ to_string deleteMode).

(** [action(resourcePath, uuid, body)] *)
Definition action (resourcePath uuid body : jsval) : M json :=
  _put ("/" ++ to_string resourcePath ++ "/" ++ to_string uuid ++ "/actions") body.

(** [zql(zql)] *)
Definition zql (text : jsval) : M json :=
  _get ("/v1/zql?" ++ search_params (params_set "zql" (to_string text) [])).

(** An object literal's shorthand field: absent when the value is
    [undefined], as [JSON.stringify] leaves such a field out. *)
Definition field (k : string) (v : jsval) : list (string * json) :=
  match v with
  | Some j => [(k, j)]
  | None => []
  end.

(** The convenience queries [_executeTool] names; each is
    [query('v1/...', conditions)]. *)
Inductive convenience_query :=
| QVmInstances | QHosts | QImages | QL3Networks | QInstanceOfferings
| QVolumes | QLoadBalancers | QVips | QEips | QSecurityGroups | QVpcRouters.

Definition convenience_path (k : convenience_query) : string :=
  match k with
  | QVmInstances => "v1/vm-instances"
  | QHosts => "v1/hosts"
  | QImages => "v1/images"
  | QL3Networks => "v1/l3-networks"
  | QInstanceOfferings => "v1/instance-offerings"
  | QVolumes => "v1/volumes"
  | QLoadBalancers => "v1/load-balancers"
  | QVips => "v1/vips"
  | QEips => "v1/eips"
  | QSecurityGroups => "v1/security-groups"
  | QVpcRouters => "v1/vpc/virtual-routers"
  end.

Definition queryNamed (k : convenience_query) (conditions : jsval) : M json :=
  query (Some (JStr (convenience_path k))) (default_arg conditions (Some (JArr [])))
        None None None None.

Definition startVm (uuid : jsval) : M json :=
  action (Some (JStr "v1/vm-instances")) uuid
         (Some (JObj [("startVmInstance", JObj [])])).
Definition stopVm (uuid type : jsval) : M json :=
  action (Some (JStr "v1/vm-instances")) uuid
         (Some (JObj [("stopVmInstance",
                       JObj (field "type" (default_arg type (Some (JStr "grace")))))])).
Definition rebootVm (uuid : jsval) : M json :=
  action (Some (JStr "v1/vm-instances")) uuid
         (Some (JObj [("rebootVmInstance", JObj [])])).
Definition deleteVm (uuid : jsval) : M json :=
  remove (Some (JStr "v1/vm-instances")) uuid None.
Definition migrateVm (uuid hostUuid : jsval) : M json :=
  action (Some (JStr "v1/vm-instances")) uuid
         (Some (JObj [("migrateVm", JObj (field "hostUuid" hostUuid))])).
Definition createVm (params : jsval) : M json :=
  _rawPost "/v1/vm-instances" (Some (JObj (field "params" params))).

(** The request [login] sends.  (For the statements below.) *)
Definition login_request (c : ZStackClient) (account password : string) : request :=
  request_of (set_credentials account password c) "POST" "/v1/accounts/login"
    (Some (Some (JObj [("logInByAccount",
                        JObj [("accountName", JStr account);
                              ("password", JStr (sha512_hex rt password))])]))).

Definition has_credentials (c : ZStackClient) : bool :=
  (match _accountName c with Some s => negb (s =? "") | None => false end
   && match _password c with Some s => negb (s =? "") | None => false end)%bool.

Definition cached_account (c : ZStackClient) : string :=
  match _accountName c with Some a => a | None => "" end.
Definition cached_password (c : ZStackClient) : string :=
  match _password c with Some p => p | None => "" end.

(** The login request of a re-login: sent with the session cleared. *)
Definition relogin_request (c : ZStackClient) : request :=
  login_request (set_sessionId (Some JNull) (set_relogging true c))
                (cached_account c) (cached_password c).

End Client.

(** The client calls [_executeTool] can make, with their arguments. *)
Inductive client_call :=
| CQuery (resourcePath conditions limit start sortBy sortDirection : jsval)
| CGet (resourcePath uuid : jsval)
| CCreate (resourcePath body : jsval)
| CRemove (resourcePath uuid deleteMode : jsval)
| CAction (resourcePath uuid body : jsval)
| CUpdate (resourcePath uuid body : jsval)
| CZql (text : jsval)
| CQueryNamed (k : convenience_query) (conditions : jsval)
| CCreateVm (params : jsval)
| CStartVm (uuid : jsval)
| CStopVm (uuid type : jsval)
| CRebootVm (uuid : jsval)
| CDeleteVm (uuid : jsval)
| CMigrateVm (uuid hostUuid : jsval).

(** The method of [ZStackClient] a call stands for. *)
Definition invoke (rt : runtime) (srv : server) (c : client_call) : M json :=
  match c with
  | CQuery p cs l s sb sd => query rt srv p cs l s sb sd
  | CGet p u => get rt srv p u
  | CCreate p b => create rt srv p b
  | CRemove p u m => remove rt srv p u m
  | CAction p u b => action rt srv p u b
  | CUpdate p u b => update rt srv p u b
  | CZql z => zql rt srv z
  | CQueryNamed k cs => queryNamed rt srv k cs
  | CCreateVm ps => createVm rt srv ps
  | CStartVm u => startVm rt srv u
  | CStopVm u t => stopVm rt srv u t
  | CRebootVm u => rebootVm rt srv u
  | CDeleteVm u => deleteVm rt srv u
  | CMigrateVm u h => migrateVm rt srv u h
  end.

(** What a tool call sees of the client: whether it is logged in, and what
    each method call comes to (its value, or what it throws). *)
Record client_view := {
  logged_in : bool;
  answer : client_call -> result json
}.

(** The view a [ZStackClient] in world [w] gives, talking to [srv]. *)
Definition view_of (rt : runtime) (srv : server) (w : world) : client_view := {|
  logged_in := isLoggedIn (cli w);
  answer := fun c => fst (invoke rt srv c w)
|}.

(* ================================================================== *)
(** ** Tool dispatch ([LLMEngine._executeTool]) *)

Definition NOT_CONNECTED : string := "未连接到 ZStack，请先配置并登录".
Definition UNKNOWN_TOOL : string := "未知工具: ".

Open Scope result_scope.

(** The [switch (name)]: the client call a tool name and its arguments
    select, [None] for the [default] branch.  Evaluating the arguments can
    throw ([args] is [null], or [fixPath] meets a path that is no string). *)
Definition select_call (name : jsval) (args : jsval) : result (option client_call) :=
  let arg k := prop args k in
  let path := (p <- arg "resource_path" ;; fixPath p) in
  let named k :=
    (cs <- arg "conditions" ;;
     Ok (Some (CQueryNamed k (js_or cs (Some (JArr [])))))) in
  match name with
  | Some (JStr n) =>
      if n =? "zstack_query" then
        p <- path ;; cs <- arg "conditions" ;; l <- arg "limit" ;;
        s <- arg "start" ;; sb <- arg "sort_by" ;; sd <- arg "sort_direction" ;;
        Ok (Some (CQuery p (js_or cs (Some (JArr []))) (js_or l (Some (JInt 100)))
                         (js_or s (Some (JInt 0))) sb sd))
      else if n =? "zstack_get" then
        p <- path ;; u <- arg "uuid" ;; Ok (Some (CGet p u))
      else if n =? "zstack_create" then
        p <- path ;; b <- arg "body" ;; Ok (Some (CCreate p b))
      else if n =? "zstack_delete" then
        p <- path ;; u <- arg "uuid" ;; m <- arg "delete_mode" ;;
        Ok (Some (CRemove p u (js_or m (Some (JStr "Permissive")))))
      else if n =? "zstack_action" then
        p <- path ;; u <- arg "uuid" ;; b <- arg "body" ;; Ok (Some (CAction p u b))
      else if n =? "zstack_update" then
        p <- path ;; u <- arg "uuid" ;; b <- arg "body" ;; Ok (Some (CUpdate p u b))
      else if n =? "zstack_zql" then z <- arg "zql" ;; Ok (Some (CZql z))
      else if n =? "query_vms" then named QVmInstances
      else if n =? "create_vm" then ps <- arg "params" ;; Ok (Some (CCreateVm ps))
      else if n =? "start_vm" then u <- arg "uuid" ;; Ok (Some (CStartVm u))
      else if n =? "stop_vm" then
        u <- arg "uuid" ;; t <- arg "type" ;; Ok (Some (CStopVm u t))
      else if n =? "reboot_vm" then u <- arg "uuid" ;; Ok (Some (CRebootVm u))
      else if n =? "delete_vm" then u <- arg "uuid" ;; Ok (Some (CDeleteVm u))
      else if n =? "migrate_vm" then
        u <- arg "uuid" ;; h <- arg "hostUuid" ;; Ok (Some (CMigrateVm u h))
      else if n =? "query_hosts" then named QHosts
      else if n =? "query_images" then named QImages
      else if n =? "query_l3_networks" then named QL3Networks
      else if n =? "query_instance_offerings" then named QInstanceOfferings
      else if n =? "query_volumes" then named QVolumes
      else if n =? "query_load_balancers" then named QLoadBalancers
      else if n =? "query_vips" then named QVips
      else if n =? "query_eips" then named QEips
      else if n =? "query_security_groups" then named QSecurityGroups
      else if n =? "query_vpc_routers" then named QVpcRouters
      else Ok None
  | _ => Ok None
  end.

(** [_executeTool(name, args)] with [this.zstackClient] as the call finds
    it.  Whatever the [switch] or the client throws is caught and returned
    as [{ error: e.message }]. *)
Definition _executeTool (zstackClient : option client_view) (name args : jsval)
  : result json :=
  match zstackClient with
  | None => Ok (error_object NOT_CONNECTED)
  | Some c =>
      if negb (logged_in c) then Ok (error_object NOT_CONNECTED)
      else
        match (call <- select_call name args ;;
               match call with
               | Some k => answer c k
               | None => Ok (error_object (UNKNOWN_TOOL ++ to_string name))
               end) with
        | Ok v => Ok v
        | Throw e => Ok (error_object (err_message e))
        end
  end.

(* ================================================================== *)
(** ** Arrays written by index, and [Promise.all] *)

(** An array with holes: [a[i] = v] past the end extends it. *)
Definition sparse (A : Type) := list (option A).

Fixpoint store {A} (i : nat) (v : A) (a : sparse A) : sparse A :=
  match i, a with
  | O, [] => [Some v]
  | O, _ :: r => Some v :: r
  | S k, [] => None :: store k v []
  | S k, x :: r => x :: store k v r
  end.

Definition at_index {A} (i : nat) (a : sparse A) : option A :=
  match nth_error a i with
  | Some (Some v) => Some v
  | _ => None
  end.

(** The elements [filter], [some] and [forEach] visit: holes are skipped. *)
Fixpoint entries {A} (a : sparse A) : list A :=
  match a with
  | [] => []
  | Some v :: r => v :: entries r
  | None :: r => entries r
  end.

(** The array index a key denotes, if it is one: a whole number that is
    not negative.  Under any other key ([undefined], [-1], [1.5]) a write
    makes a property that [length], [filter] and [some] do not see, and
    the model drops it.  (A key that names a property arrays already
    have, such as [length], and an index of [2^32 - 1] or more are not
    told apart.) *)
Definition array_index (k : jsval) : option nat :=
  match k with
  | Some (JNum m e) =>
      if ((0 <=? m) && (0 <=? e))%Z then Some (Z.to_nat (m * 10 ^ e)) else None
  | Some (JStr s) =>
      match take_digits s 0%Z 0 with
      | (n, _, EmptyString) => if s =? digits_of n then Some (Z.to_nat n) else None
      | _ => None
      end
  | _ => None
  end.

Definition store_at {A} (k : jsval) (v : A) (a : sparse A) : sparse A :=
  match array_index k with
  | Some i => store i v a
  | None => a
  end.

Definition read_at {A} (k : jsval) (a : sparse A) : option A :=
  match array_index k with
  | Some i => at_index i a
  | None => None
  end.

Fixpoint remove_nth {A} (k : nat) (l : list A) : list A :=
  match k, l with
  | _, [] => []
  | O, _ :: r => r
  | S j, x :: r => x :: remove_nth j r
  end.

(** The promises of [Promise.all] settle one at a time, in an order the
    program does not choose: at each step [pick] names which of those still
    pending settles next, and its value goes to the slot of its index. *)
Fixpoint settle {A} (steps : nat) (pick : nat -> nat) (pending : list (nat * A))
    (slots : sparse A) : sparse A :=
  match steps with
  | O => slots
  | S n =>
      match pending with
      | [] => slots
      | _ :: _ =>
          let k := pick n mod List.length pending in
          match nth_error pending k with
          | Some (i, v) => settle n pick (remove_nth k pending) (store i v slots)
          | None => slots
          end
      end
  end.

(** The slots after every pending promise settled in list order.  (For
    the statements below.) *)
Definition store_all {A} (pending : list (nat * A)) (slots : sparse A) : sparse A :=
  fold_left (fun s iv => store (fst iv) (snd iv) s) pending slots.

Definition indexed {A} (l : list A) : list (nat * A) :=
  combine (seq 0 (List.length l)) l.

Fixpoint filled {A} (a : sparse A) : option (list A) :=
  match a with
  | [] => Some []
  | Some v :: r => option_map (cons v) (filled r)
  | None :: _ => None
  end.

(** [await Promise.all(values)] for promises that all fulfil: the array of
    their values once every slot is filled, [None] if that never happens. *)
Definition Promise_all {A} (pick : nat -> nat) (values : list A) : option (list A) :=
  let slots := settle (List.length values) pick (indexed values) [] in
  if (List.length slots =? List.length values)%nat then filled slots else None.

(* ================================================================== *)
(** ** The provider's side of a call *)

(** How the body of a response ends: the stream closes, or a read
    rejects (the connection drops, or the signal was aborted). *)
Inductive read_end :=
| EndOfStream
| ReadRejects (e : js_error).

(** What one [fetch] to the provider comes to: it rejects, or it gives a
    response whose body arrives in chunks (each chunk is the text the
    [TextDecoder] makes of it). *)
Inductive exchange :=
| FetchRejects (e : js_error)
| Response (status : Z) (chunks : list string) (fin : read_end).

(** [await res.text()] *)
Definition res_text (chunks : list string) (fin : read_end) : result string :=
  match fin with
  | EndOfStream => Ok (String.concat "" chunks)
  | ReadRejects e => Throw e
  end.

Definition object := list (string * json).

(** What an adapter returns: [content], [toolCalls] ([None] is [null]) and
    [rawMessage] or [rawContent]. *)
Record response := {
  content : json;
  toolCalls : option (list object);
  raw : json
}.

(** What [emit] hands to [onEvent]. *)
Inductive event :=
| text_delta (text : jsval)
| tool_start (tools : list jsval) (toolDetails : list jsval) (round : nat)
| tool_done (tools : list jsval) (round : nat).

(** The state a stream loop has reached, what it emitted, and the error
    that ended it if one did. *)
Record progress (S : Type) := {
  reached : S;
  emitted : list event;
  failure : option js_error
}.

Definition going {S} (s : S) (evs : list event) : progress S :=
  {| reached := s; emitted := evs; failure := None |}.
Definition broke {S} (s : S) (evs : list event) (e : js_error) : progress S :=
  {| reached := s; emitted := evs; failure := Some e |}.

(** [for (const x of xs) { step x }], stopping at the first throw. *)
Fixpoint for_of {X S} (step : X -> S -> progress S) (xs : list X) (s : S)
  : progress S :=
  match xs with
  | [] => going s []
  | x :: rest =>
      let p := step x s in
      match failure p with
      | Some e => p
      | None =>
          let p' := for_of step rest (reached p) in
          {| reached := reached p';
             emitted := List.app (emitted p) (emitted p');
             failure := failure p' |}
      end
  end.

(** [buffer += chunk; lines = buffer.split('\n'); buffer = lines.pop() || ''] *)
Definition take_lines (buffer chunk : string) : list string * string :=
  let lines := split_lines (buffer ++ chunk) in
  (removelast lines, last lines "").

(** [while (true) { read; if (done) break; ... for (const line of lines) ... }]
    over the chunks the reads deliver. *)
Fixpoint read_loop {S} (line : string -> S -> progress S)
    (chunks : list string) (fin : read_end) (buffer : string) (s : S)
  : progress S :=
  match chunks with
  | [] =>
      match fin with
      | EndOfStream => going s []
      | ReadRejects e => broke s [] e
      end
  | chunk :: rest =>
      let (lines, buffer') := take_lines buffer chunk in
      let p := for_of line lines s in
      match failure p with
      | Some e => p
      | None =>
          let p' := read_loop line rest fin buffer' (reached p) in
          {| reached := reached p';
             emitted := List.app (emitted p) (emitted p');
             failure := failure p' |}
      end
  end.

(** The values a [for...of] visits: the elements of an array, the
    characters of a string; anything else is not iterable. *)
Definition iterate (v : jsval) : result (list json) :=
  match v with
  | Some (JArr l) => Ok l
  | Some (JStr s) =>
      Ok (map (fun c => JStr (String c EmptyString)) (list_ascii_of_string s))
  | _ => Throw (TypeError (to_string v ++ " is not iterable"))
  end.

(** [new Error(v)]: the message is [String(v)], and empty for [undefined]. *)
Definition new_Error (v : jsval) : js_error :=
  Error (match v with
         | None => ""
         | Some _ => to_string v
         end).

(** [xs.map(f)] for an [f] that can throw: the first throw ends it. *)
Fixpoint mapM {X Y} (f : X -> result Y) (xs : list X) : result (list Y) :=
  match xs with
  | [] => Ok []
  | x :: rest => y <- f x ;; ys <- mapM f rest ;; Ok (y :: ys)
  end.

(** [{ ...v }]: the own enumerable properties of [v]: the fields of an
    object, the elements of an array and the characters of a string under
    their indices, nothing of any other value. *)
Definition spread (v : jsval) : object :=
  let keyed (l : list json) :=
    map (fun ix => (digits_of (Z.of_nat (fst ix)), snd ix)) (indexed l) in
  match v with
  | Some (JObj fs) => fs
  | Some (JArr l) => keyed l
  | Some (JStr s) =>
      keyed (map (fun c => JStr (String c EmptyString)) (list_ascii_of_string s))
  | _ => []
  end.

(* ================================================================== *)
(** ** The protocol adapters *)

Section Adapters.

Variable rt : runtime.

(** [try { errMsg = JSON.parse(errText).error?.message || errText; }
     catch { errMsg = errText; }] *)
Definition error_message_of (errText : string) : jsval :=
  match (parsed <- JSON_parse rt errText ;;
         err <- prop (Some parsed) "error" ;;
         Ok (js_or (prop_opt err "message") (Some (JStr errText)))) with
  | Ok m => m
  | Throw _ => Some (JStr errText)
  end.

(** [errMsg.toLowerCase()] *)
Definition toLowerCase_method (v : jsval) : result string :=
  match v with
  | Some (JStr s) => Ok (toLowerCase s)
  | _ => Throw (TypeError "errMsg.toLowerCase is not a function")
  end.

(** A line of the stream, down to the JSON after [data: ]: [None] for a
    line the loop passes over ([skip] says which other lines it does). *)
Definition data_of_line (skip : string -> bool) (line : string) : option json :=
  let trimmed := trim line in
  if ((trimmed =? "") || skip trimmed)%bool then None
  else if negb (startsWith "data: " trimmed) then None
  else match JSON_parse rt (slice_from 6 trimmed) with
       | Ok v => Some v
       | Throw _ => None
       end.

(* ------------------------------------------------------------------ *)
(** *** OpenAI-compatible streaming ([_callOpenAIStream]) *)

(** An entry of [toolCalls]:
    [{ id, type: 'function', function: { name, arguments } }]. *)
Record openai_call := {
  oc_id : jsval;
  oc_name : string;
  oc_arguments : string
}.

Record openai_state := {
  o_content : string;
  o_toolCalls : sparse openai_call
}.

Definition openai_start : openai_state := {| o_content := ""; o_toolCalls := [] |}.

(** The body of [for (const tc of delta.tool_calls)]. *)
Definition openai_tool_delta (tc : json) (calls : sparse openai_call)
  : progress (sparse openai_call) :=
  match (idx <- prop (Some tc) "index" ;;
         id <- prop (Some tc) "id" ;;
         fn <- prop (Some tc) "function" ;;
         Ok (idx, id, fn)) with
  | Throw e => broke calls [] e
  | Ok (idx, id, fn) =>
      match array_index idx with
      | None => going calls []
      | Some i =>
          let cur :=
            match at_index i calls with
            | Some c => c
            | None => {| oc_id := js_or id (Some (JStr ""));
                         oc_name := ""; oc_arguments := "" |}
            end in
          let cur :=
            if truthy id
            then {| oc_id := id; oc_name := oc_name cur;
                    oc_arguments := oc_arguments cur |}
            else cur in
          let cur :=
            if truthy (prop_opt fn "name")
            then {| oc_id := oc_id cur;
                    oc_name := oc_name cur ++ to_string (prop_opt fn "name");
                    oc_arguments := oc_arguments cur |}
            else cur in
          let cur :=
            if truthy (prop_opt fn "arguments")
            then {| oc_id := oc_id cur; oc_name := oc_name cur;
                    oc_arguments :=
                      oc_arguments cur ++ to_string (prop_opt fn "arguments") |}
            else cur in
          going (store i cur calls) []
      end
  end.

(** What the loop does with one chunk of the stream once parsed. *)
Definition openai_chunk (chunk : json) (s : openai_state) : progress openai_state :=
  match prop (Some chunk) "error" with
  | Throw e => broke s [] e
  | Ok err =>
      if truthy err then
        broke s []
          (Error (to_string (js_or (prop_opt err "message")
                                   (option_map (fun j => JStr (JSON_stringify j)) err))))
      else
        let delta := prop_opt (first_elem (prop_opt (Some chunk) "choices")) "delta" in
        if negb (truthy delta) then going s []
        else
          let text := prop_opt delta "content" in
          let s1 :=
            if truthy text
            then {| o_content := o_content s ++ to_string text;
                    o_toolCalls := o_toolCalls s |}
            else s in
          let evs := if truthy text then [text_delta text] else [] in
          let tcs := prop_opt delta "tool_calls" in
          if truthy tcs then
            match iterate tcs with
            | Throw e => broke s1 evs e
            | Ok l =>
                let p := for_of openai_tool_delta l (o_toolCalls s1) in
                {| reached := {| o_content := o_content s1; o_toolCalls := reached p |};
                   emitted := evs;
                   failure := failure p |}
            end
          else going s1 evs
  end.

Definition openai_line (line : string) (s : openai_state) : progress openai_state :=
  match data_of_line (fun t => t =? "data: [DONE]") line with
  | None => going s []
  | Some chunk => openai_chunk chunk s
  end.

Definition openai_call_object (c : openai_call) : object :=
  List.app (field "id" (oc_id c))
    [("type", JStr "function");
     ("function", JObj [("name", JStr (oc_name c));
                        ("arguments", JStr (oc_arguments c))])].

(** [toolCalls.filter(tc => tc && tc.id && tc.function.name)] *)
Definition validToolCalls (calls : sparse openai_call) : list object :=
  map openai_call_object
      (filter (fun c => (truthy (oc_id c) && negb (oc_name c =? ""))%bool)
              (entries calls)).

(** The [return] after the loop. *)
Definition openai_finish (s : openai_state) : response :=
  let valid := validToolCalls (o_toolCalls s) in
  let has := negb (List.length valid =? 0)%nat in
  {| content := JStr (o_content s);
     toolCalls := if has then Some valid else None;
     raw := JObj (List.app
                    [("role", JStr "assistant");
                     ("content", if o_content s =? "" then JNull
                                 else JStr (o_content s))]
                    (if has then [("tool_calls", JArr (map JObj valid))] else [])) |}.

(** The [catch] around the loop. *)
Definition openai_catch (e : js_error) (s : openai_state) : result response :=
  if err_name e =? "AbortError" then Throw e
  else if (negb (o_content s =? "") && (List.length (o_toolCalls s) =? 0)%nat)%bool then
    Ok {| content := JStr (o_content s);
          toolCalls := None;
          raw := JObj [("role", JStr "assistant"); ("content", JStr (o_content s))] |}
  else Throw e.

(** [_callOpenAINonStream(signal)], on what the second request comes to. *)
Definition _callOpenAINonStream (x : exchange) : result response :=
  match x with
  | FetchRejects e => Throw e
  | Response status chunks fin =>
      if negb (res_ok status) then
        errText <- res_text chunks fin ;;
        Throw (new_Error (error_message_of errText))
      else
        text <- res_text chunks fin ;;
        data <- JSON_parse rt text ;;
        err <- prop (Some data) "error" ;;
        if truthy err then
          m <- prop err "message" ;; Throw (new_Error m)
        else
          choices <- prop (Some data) "choices" ;;
          first <- match choices with
                   | None | Some JNull =>
                       Throw (TypeError "Cannot read properties of undefined (reading '0')")
                   | _ => Ok (first_elem choices)
                   end ;;
          msg <- prop first "message" ;;
          tool_calls <- prop msg "tool_calls" ;;
          mapped <- match tool_calls with
                    | None | Some JNull => Ok None
                    | Some (JArr l) =>
                        cs <- mapM (fun tc =>
                                      ty <- prop (Some tc) "type" ;;
                                      Ok (obj_set "type"
                                            (match js_or ty (Some (JStr "function")) with
                                             | Some j => j
                                             | None => JNull
                                             end) (spread (Some tc)))) l ;;
                        Ok (Some cs)
                    | Some _ =>
                        Throw (TypeError "msg.tool_calls?.map is not a function")
                    end ;;
          let calls := match mapped with
                       | Some (c :: cs) => Some (c :: cs)
                       | _ => None
                       end in
          text <- prop msg "content" ;;
          Ok {| content := match js_or text (Some (JStr "")) with
                           | Some j => j
                           | None => JStr ""
                           end;
                toolCalls := calls;
                raw := JObj (match calls with
                             | Some cs =>
                                 obj_set "tool_calls" (JArr (map JObj cs)) (spread msg)
                             | None =>
                                 filter (fun kv => negb (fst kv =? "tool_calls"))
                                        (spread msg)
                             end) |}
  end.

(** [_callOpenAIStream(emit, signal)]: [x] is what the streaming request
    comes to, [fallback] what the request without streaming would. *)
Definition _callOpenAIStream (x fallback : exchange) : result response * list event :=
  match x with
  | FetchRejects e => (Throw e, [])
  | Response status chunks fin =>
      if negb (res_ok status) then
        (errText <- res_text chunks fin ;;
         let errMsg := error_message_of errText in
         lower <- toLowerCase_method errMsg ;;
         if (includes "stream" lower || includes "not support" lower)%bool
         then _callOpenAINonStream fallback
         else Throw (new_Error errMsg), [])
      else
        let p := read_loop openai_line chunks fin "" openai_start in
        (match failure p with
         | Some e => openai_catch e (reached p)
         | None => Ok (openai_finish (reached p))
         end, emitted p)
  end.

(* ------------------------------------------------------------------ *)
(** *** Anthropic streaming ([_callAnthropicStream]) *)

Record anthropic_state := {
  contentBlocks : sparse object;
  currentBlockIndex : jsval;
  currentBlockType : jsval;
  textContent : string;
  inputJsonStr : string
}.

Definition anthropic_start : anthropic_state := {|
  contentBlocks := [];
  currentBlockIndex := Some (JInt (-1));
  currentBlockType := Some (JStr "");
  textContent := "";
  inputJsonStr := ""
|}.

(** [try { input = JSON.parse(inputJsonStr || '{}'); } catch { input = {}; }] *)
Definition parse_input (inputJsonStr : string) : json :=
  match JSON_parse rt (if inputJsonStr =? "" then "{}" else inputJsonStr) with
  | Ok v => v
  | Throw _ => JObj []
  end.

(** The [switch (event.type)].  (Where [text] is no string, [+=] is taken
    as the concatenation of the two texts.) *)
Definition anthropic_event (ev : json) (s : anthropic_state) : progress anthropic_state :=
  match prop (Some ev) "type" with
  | Throw e => broke s [] e
  | Ok ty =>
      if is_string "content_block_start" ty then
        let index := prop_opt (Some ev) "index" in
        let block := prop_opt (Some ev) "content_block" in
        let type := js_or (prop_opt block "type") (Some (JStr "")) in
        if is_string "text" type then
          going {| contentBlocks :=
                     store_at index [("type", JStr "text"); ("text", JStr "")]
                              (contentBlocks s);
                   currentBlockIndex := index;
                   currentBlockType := type;
                   textContent := textContent s;
                   inputJsonStr := inputJsonStr s |} []
        else if is_string "tool_use" type then
          going {| contentBlocks :=
                     store_at index
                       (List.app [("type", JStr "tool_use")]
                          (List.app (field "id" (prop_opt block "id"))
                             (List.app (field "name" (prop_opt block "name"))
                                       [("input", JObj [])])))
                       (contentBlocks s);
                   currentBlockIndex := index;
                   currentBlockType := type;
                   textContent := textContent s;
                   inputJsonStr := "" |} []
        else
          going {| contentBlocks := contentBlocks s;
                   currentBlockIndex := index;
                   currentBlockType := type;
                   textContent := textContent s;
                   inputJsonStr := inputJsonStr s |} []
      else if is_string "content_block_delta" ty then
        let delta := prop_opt (Some ev) "delta" in
        let dtype := prop_opt delta "type" in
        if (is_string "text_delta" dtype && truthy (prop_opt delta "text"))%bool then
          let text := prop_opt delta "text" in
          let index := prop_opt (Some ev) "index" in
          going {| contentBlocks :=
                     match read_at index (contentBlocks s) with
                     | Some b =>
                         store_at index
                           (obj_set "text"
                              (JStr (to_string (lookup "text" b) ++ to_string text)) b)
                           (contentBlocks s)
                     | None => contentBlocks s
                     end;
                   currentBlockIndex := currentBlockIndex s;
                   currentBlockType := currentBlockType s;
                   textContent := textContent s ++ to_string text;
                   inputJsonStr := inputJsonStr s |}
                [text_delta text]
        else if (is_string "input_json_delta" dtype
                 && truthy (prop_opt delta "partial_json"))%bool then
          going {| contentBlocks := contentBlocks s;
                   currentBlockIndex := currentBlockIndex s;
                   currentBlockType := currentBlockType s;
                   textContent := textContent s;
                   inputJsonStr :=
                     inputJsonStr s ++ to_string (prop_opt delta "partial_json") |} []
        else going s []
      else if is_string "content_block_stop" ty then
        match (if is_string "tool_use" (currentBlockType s)
               then read_at (currentBlockIndex s) (contentBlocks s)
               else None) with
        | Some b =>
            going {| contentBlocks :=
                       store_at (currentBlockIndex s)
                                (obj_set "input" (parse_input (inputJsonStr s)) b)
                                (contentBlocks s);
                     currentBlockIndex := currentBlockIndex s;
                     currentBlockType := currentBlockType s;
                     textContent := textContent s;
                     inputJsonStr := "" |} []
        | None => going s []
        end
      else if is_string "error" ty then
        broke s []
          (new_Error (js_or (prop_opt (prop_opt (Some ev) "error") "message")
                            (Some (JStr "Anthropic stream error"))))
      else going s []
  end.

Definition anthropic_line (line : string) (s : anthropic_state)
  : progress anthropic_state :=
  match data_of_line (fun t => startsWith "event:" t) line with
  | None => going s []
  | Some ev => anthropic_event ev s
  end.

Definition is_tool_use (b : object) : bool := is_string "tool_use" (lookup "type" b).

(** [{ id: b.id, name: b.name, input: b.input }] *)
Definition anthropic_call_object (b : object) : object :=
  List.app (field "id" (lookup "id" b))
    (List.app (field "name" (lookup "name" b)) (field "input" (lookup "input" b))).

(** The [return] after the loop. *)
Definition anthropic_finish (s : anthropic_state) : response :=
  let toolBlocks := filter is_tool_use (entries (contentBlocks s)) in
  {| content := JStr (textContent s);
     toolCalls := match toolBlocks with
                  | [] => None
                  | _ :: _ => Some (map anthropic_call_object toolBlocks)
                  end;
     raw := JArr (map JObj (entries (contentBlocks s))) |}.

(** The [catch] around the loop. *)
Definition anthropic_catch (e : js_error) (s : anthropic_state) : result response :=
  if err_name e =? "AbortError" then Throw e
  else if (negb (textContent s =? "")
           && negb (existsb is_tool_use (entries (contentBlocks s))))%bool then
    Ok {| content := JStr (textContent s);
          toolCalls := None;
          raw := JArr [JObj [("type", JStr "text"); ("text", JStr (textContent s))]] |}
  else Throw e.

(** [_callAnthropicStream(emit, signal)] *)
Definition _callAnthropicStream (x : exchange) : result response * list event :=
  match x with
  | FetchRejects e => (Throw e, [])
  | Response status chunks fin =>
      if negb (res_ok status) then
        (errText <- res_text chunks fin ;;
         Throw (new_Error (error_message_of errText)), [])
      else
        let p := read_loop anthropic_line chunks fin "" anthropic_start in
        (match failure p with
         | Some e => anthropic_catch e (reached p)
         | None => Ok (anthropic_finish (reached p))
         end, emitted p)
  end.

End Adapters.

(* ================================================================== *)
(** ** The one-line description of a tool call ([_formatToolDetail]) *)

(** [v.slice(0, n)] *)
Definition slice_method (v : jsval) (n : nat) : result jsval :=
  match v with
  | Some (JStr s) => Ok (Some (JStr (slice_to n s)))
  | Some (JArr l) => Ok (Some (JArr (firstn n l)))
  | _ => Throw (TypeError "(intermediate value).slice is not a function")
  end.

(** [v.join(sep)] *)
Definition join_method (v : jsval) (sep : string) : result string :=
  match v with
  | Some (JArr l) =>
      Ok (join sep (map (fun x => match x with
                                  | JNull => EmptyString
                                  | _ => to_string_json x
                                  end) l))
  | _ => Throw (TypeError "args.conditions.join is not a function")
  end.

(** [Object.keys(v)[0]] *)
Definition first_key (v : jsval) : jsval :=
  match spread v with
  | (k, _) :: _ => Some (JStr k)
  | [] => None
  end.

(** [s.replace(/_/g, ' ')] *)
Fixpoint underscores_to_spaces (s : string) : string :=
  match s with
  | EmptyString => EmptyString
  | String c r =>
      String (if Ascii.eqb c "_" then " "%char else c) (underscores_to_spaces r)
  end.

Definition _formatToolDetail (name : jsval) (args : json) : result string :=
  let arg k := prop (Some args) k in
  let or_empty (v : jsval) := js_or v (Some (JStr "")) in
  let with_uuid (verb : string) :=
    (p <- arg "resource_path" ;; u <- arg "uuid" ;;
     short <- slice_method (or_empty u) 8 ;;
     Ok (verb ++ " " ++ to_string (or_empty p) ++ " " ++ to_string short ++ "...")) in
  match name with
  | Some (JStr n) =>
      if n =? "zstack_query" then
        p <- arg "resource_path" ;; cs <- arg "conditions" ;;
        tail <- (if truthy (length_opt cs)
                 then (j <- join_method cs ", " ;; Ok (" [" ++ j ++ "]"))
                 else Ok "") ;;
        Ok ("查询 " ++ to_string (or_empty p) ++ tail)
      else if n =? "zstack_get" then with_uuid "获取"
      else if n =? "zstack_create" then
        p <- arg "resource_path" ;; Ok ("创建 " ++ to_string (or_empty p))
      else if n =? "zstack_delete" then with_uuid "删除"
      else if n =? "zstack_action" then
        b <- arg "body" ;;
        let actionName := if truthy b then first_key b else Some (JStr "") in
        p <- arg "resource_path" ;;
        Ok ("执行 " ++ to_string actionName ++ " on " ++ to_string (or_empty p))
      else if n =? "zstack_update" then with_uuid "更新"
      else if n =? "zstack_zql" then
        z <- arg "zql" ;; short <- slice_method (or_empty z) 60 ;;
        Ok ("ZQL: " ++ to_string short)
      else Ok (underscores_to_spaces n)
  | None | Some JNull =>
      Throw (TypeError "Cannot read properties of undefined (reading 'replace')")
  | Some _ => Throw (TypeError "name.replace is not a function")
  end.

(* ================================================================== *)
(** ** The orchestration loop ([LLMEngine.chat]) *)

Definition STOPPED : string := "已停止生成。".
Definition TIMED_OUT : string :=
  "操作超时(5分钟)，部分操作可能已完成。请查看云平台确认状态。".
Definition ROUND_LIMIT : string :=
  "操作轮次已达上限，部分操作可能已完成。请查看云平台确认状态。".

Definition maxRounds : nat := 100.
Definition timeoutMs : Z := 5 * 60 * 1000.

(** The fields of the engine [chat] reads and writes. *)
Record LLMEngine := {
  provider : string;
  queryMode : string;
  messages : list json
}.

(** [LLMEngine.OPENAI_COMPAT.has(p)] *)
Definition OPENAI_COMPAT (p : string) : bool :=
  existsb (String.eqb p) ["openai"; "glm"; "deepseek"; "qwen"; "minimax"].

Definition isAnthropic (e : LLMEngine) : bool :=
  ((provider e =? "anthropic") && negb (OPENAI_COMPAT (provider e)))%bool.

(** [this.queryMode === 'full' ? 80000 : 30000] *)
Definition truncateLimit (e : LLMEngine) : nat :=
  if queryMode e =? "full" then 80000 else 30000.

(** What happens around one run of [chat] and is not the program's doing.
    Rounds are counted from 0, the tool calls of a round too.
    - [clock k] is the [k]-th reading of [Date.now()]: reading 0 is
      [startTime], reading [i + 1] is taken at the top of round [i];
    - [aborted_at_top i] and [aborted_after_call i] are [signal.aborted] at
      the top of round [i] and once its adapter call has returned;
    - [stream_exchange i msgs] is what the provider makes of the streaming
      request of round [i] that carries the conversation [msgs], and
      [plain_exchange i msgs] of the request without streaming;
    - [zstackClient i k] is [this.zstackClient] as call [k] of round [i]
      finds it, with what the client answers to that call;
    - [completion i] is the order in which the calls of round [i] settle. *)
Record environment := {
  clock : nat -> Z;
  aborted_at_top : nat -> bool;
  aborted_after_call : nat -> bool;
  stream_exchange : nat -> list json -> exchange;
  plain_exchange : nat -> list json -> exchange;
  zstackClient : nat -> nat -> option client_view;
  completion : nat -> nat -> nat
}.

(** How the promise [chat] returns ends. *)
Inductive outcome :=
| Resolved (v : json)
| Rejected (e : js_error)
| Pending.

(** A run of [chat]: how it ends, [this.messages] then, and what it
    emitted. *)
Record run := {
  ending : outcome;
  conversation : list json;
  events : list event
}.

(** What a round of the loop comes to: [chat] returns (or throws), or the
    loop goes on with the conversation and the events so far. *)
Inductive step :=
| Stop (r : run)
| Continue (msgs : list json) (evs : list event).

Section Chat.

Variable rt : runtime.
Variable env : environment.
Variable engine : LLMEngine.

(** The [catch] of [chat]. *)
Definition chat_catch (e : js_error) (msgs : list json) (evs : list event) : run :=
  {| ending := if err_name e =? "AbortError" then Resolved (JStr STOPPED)
               else Rejected e;
     conversation := msgs;
     events := evs |}.

(** The adapter call of round [i]. *)
Definition call_adapter (i : nat) (msgs : list json) : result response * list event :=
  if isAnthropic engine
  then _callAnthropicStream rt (stream_exchange env i msgs)
  else _callOpenAIStream rt (stream_exchange env i msgs) (plain_exchange env i msgs).

(** [tc.function.name] and [tc.function.arguments] *)
Definition function_prop (tc : object) (k : string) : result jsval :=
  prop (lookup "function" tc) k.

(** [toolNames] *)
Definition toolNames (tcs : list object) : result (list jsval) :=
  if isAnthropic engine
  then Ok (map (lookup "name") tcs)
  else mapM (fun tc => function_prop tc "name") tcs.

(** [toolDetails] *)
Definition toolDetails (tcs : list object) : result (list jsval) :=
  if isAnthropic engine then
    mapM (fun tc =>
            let args := match js_or (lookup "input" tc) (Some (JObj [])) with
                        | Some j => j
                        | None => JObj []
                        end in
            d <- _formatToolDetail (lookup "name" tc) args ;;
            Ok (Some (JStr d))) tcs
  else
    mapM (fun tc =>
            match (text <- function_prop tc "arguments" ;;
                   args <- JSON_parse rt (to_string text) ;;
                   name <- function_prop tc "name" ;;
                   _formatToolDetail name args) with
            | Ok d => Ok (Some (JStr d))
            | Throw _ => function_prop tc "name"
            end) tcs.

(** The name and the arguments a tool call is dispatched with:
    [tc.name] and [tc.input], or [tc.function.name] and
    [JSON.parse(tc.function.arguments)]. *)
Definition call_inputs (tc : object) : result (jsval * jsval) :=
  if isAnthropic engine then Ok (lookup "name" tc, lookup "input" tc)
  else
    text <- function_prop tc "arguments" ;;
    args <- JSON_parse rt (to_string text) ;;
    name <- function_prop tc "name" ;;
    Ok (name, Some args).

(** The message a result goes back in:
    [{ type: 'tool_result', tool_use_id: tc.id, content }] or
    [{ role: 'tool', tool_call_id: tc.id, content }]. *)
Definition result_message (tc : object) (text : string) : json :=
  if isAnthropic engine then
    JObj (List.app [("type", JStr "tool_result")]
            (List.app (field "tool_use_id" (lookup "id" tc)) [("content", JStr text)]))
  else
    JObj (List.app [("role", JStr "tool")]
            (List.app (field "tool_call_id" (lookup "id" tc)) [("content", JStr text)])).

(** What one tool call of round [i] comes back as: the body of
    [response.toolCalls.map(async tc => { try { ... } catch (e) { ... } })]
    for the call at index [k]. *)
Definition tool_result (i k : nat) (tc : object) : json :=
  match (inputs <- call_inputs tc ;;
         result <- _executeTool (zstackClient env i k) (fst inputs) (snd inputs) ;;
         Ok (slice_to (truncateLimit engine) (JSON_stringify result))) with
  | Ok text => result_message tc text
  | Throw e => result_message tc (JSON_stringify (error_object (err_message e)))
  end.

(** The results of a round: the calls' results in the order of the calls. *)
Definition results_in_order (i : nat) (tcs : list object) : list json :=
  map (fun kt => tool_result i (fst kt) (snd kt)) (indexed tcs).

(** What the results of a round are pushed as: one [user] message that
    holds them all (Anthropic), or one [tool] message each. *)
Definition result_turns (results : list json) : list json :=
  if isAnthropic engine
  then [JObj [("role", JStr "user"); ("content", JArr results)]]
  else results.

(** The assistant's turn that asked for the tools. *)
Definition request_turn (r : response) : json :=
  if isAnthropic engine
  then JObj [("role", JStr "assistant"); ("content", raw r)]
  else raw r.

Definition stop (v : outcome) (msgs : list json) (evs : list event) : step :=
  Stop {| ending := v; conversation := msgs; events := evs |}.

(** The body of the loop for round [i]. *)
Definition round (i : nat) (msgs : list json) (evs : list event) : step :=
  if aborted_at_top env i then stop (Resolved (JStr STOPPED)) msgs evs
  else if (timeoutMs <? clock env (S i) - clock env 0)%Z then
    stop (Resolved (JStr TIMED_OUT)) msgs evs
  else
    let (answer, emitted) := call_adapter i msgs in
    let evs := List.app evs emitted in
    match answer with
    | Throw e => Stop (chat_catch e msgs evs)
    | Ok response =>
        if aborted_after_call env i then stop (Resolved (JStr STOPPED)) msgs evs
        else
          match toolCalls response with
          | None | Some [] =>
              stop (Resolved (content response))
                   (List.app msgs [JObj [("role", JStr "assistant");
                                         ("content", content response)]])
                   evs
          | Some tcs =>
              match (names <- toolNames tcs ;;
                     details <- toolDetails tcs ;;
                     Ok (names, details)) with
              | Throw e => Stop (chat_catch e msgs evs)
              | Ok (names, details) =>
                  let evs := List.app evs [tool_start names details (i + 1)] in
                  let msgs := List.app msgs [request_turn response] in
                  match Promise_all (completion env i)
                          (map (fun kt => tool_result i (fst kt) (snd kt))
                               (indexed tcs)) with
                  | None => stop Pending msgs evs
                  | Some results =>
                      Continue (List.app msgs (result_turns results))
                               (List.app evs [tool_done names (i + 1)])
                  end
              end
          end
    end.

(** [for (let i = 0; i < maxRounds; i++) { ... }] from round [i] on, with
    [rounds] rounds left; after the last, the [return] below the loop. *)
Fixpoint chat_loop (rounds i : nat) (msgs : list json) (evs : list event) : run :=
  match rounds with
  | O => {| ending := Resolved (JStr ROUND_LIMIT); conversation := msgs; events := evs |}
  | S n =>
      match round i msgs evs with
      | Stop r => r
      | Continue msgs' evs' => chat_loop n (S i) msgs' evs'
      end
  end.

(** The client call tool call [k] of round [i] makes and what it comes
    to; [None] when the tool call makes no client call (its arguments do
    not parse, the client is missing or logged out, the tool is unknown,
    or the arguments are refused).  (For the statements below.) *)
Definition client_outcome (i k : nat) (tc : object) : option (result json) :=
  match call_inputs tc, zstackClient env i k with
  | Ok (name, args), Some c =>
      if logged_in c then
        match select_call name args with
        | Ok (Some call) => Some (answer c call)
        | _ => None
        end
      else None
  | _, _ => None
  end.

(** [chat(userMessage, onEvent)] *)
Definition chat (userMessage : string) : run :=
  chat_loop maxRounds 0
    (List.app (messages engine)
              [JObj [("role", JStr "user"); ("content", JStr userMessage)]])
    [].

End Chat.


(** The tool results a stretch of the conversation holds: the messages of
    role [tool], and the [tool_result] blocks of the [user] messages. *)
Definition is_tool_result_block (b : json) : bool :=
  match b with
  | JObj fs => is_string "tool_result" (lookup "type" fs)
  | _ => false
  end.

Definition tool_results_of (turns : list json) : list json :=
  flat_map
    (fun m =>
       match m with
       | JObj fs =>
           if is_string "tool" (lookup "role" fs) then [m]
           else if is_string "user" (lookup "role" fs) then
             match lookup "content" fs with
             | Some (JArr blocks) => filter is_tool_result_block blocks
             | _ => []
             end
           else []
       | _ => []
       end) turns.



(** The round numbers of the [tool_start] events, in order. *)
Fixpoint tool_start_rounds (evs : list event) : list nat :=
  match evs with
  | [] => []
  | tool_start _ _ r :: rest => r :: tool_start_rounds rest
  | _ :: rest => tool_start_rounds rest
  end.

(** ** Cancellation, as the adapter call meets it

    [abort()] aborts the signal [fetch] was given; the promise the adapter
    is awaiting then rejects with an [AbortError]. *)

(** Reading the chunks of a streamed body makes the loop throw nothing
    (so that the loop gets to the read after them). *)
Definition chunks_processed (rt : runtime) (anthropic : bool) (chunks : list string)
  : bool :=
  if anthropic then
    match failure (read_loop (anthropic_line rt) chunks EndOfStream "" anthropic_start) with
    | None => true
    | Some _ => false
    end
  else
    match failure (read_loop (openai_line rt) chunks EndOfStream "" openai_start) with
    | None => true
    | Some _ => false
    end.

(** The provider's error text makes [_callOpenAIStream] try again without
    streaming. *)
Definition asks_for_fallback (rt : runtime) (errText : string) : bool :=
  match toLowerCase_method (error_message_of rt errText) with
  | Ok lower => (includes "stream" lower || includes "not support" lower)%bool
  | Throw _ => false
  end.

(** The await of the adapter call that rejects with [e]: the [fetch]; the
    [res.text()] of an error response; a [reader.read()] after the chunks
    already read; or, in the request without streaming, the [fetch] or the
    reading of the body. *)
Inductive cancelled (rt : runtime) (anthropic : bool)
  : exchange -> exchange -> js_error -> Prop :=
| cancelled_fetch (e : js_error) (fallback : exchange) :
    cancelled rt anthropic (FetchRejects e) fallback e
| cancelled_error_text (status : Z) (chunks : list string) (e : js_error)
    (fallback : exchange) :
    res_ok status = false ->
    cancelled rt anthropic (Response status chunks (ReadRejects e)) fallback e
| cancelled_read (status : Z) (chunks : list string) (e : js_error)
    (fallback : exchange) :
    res_ok status = true ->
    chunks_processed rt anthropic chunks = true ->
    cancelled rt anthropic (Response status chunks (ReadRejects e)) fallback e
| cancelled_fallback_fetch (status : Z) (chunks : list string) (e : js_error) :
    anthropic = false ->
    res_ok status = false ->
    asks_for_fallback rt (String.concat "" chunks) = true ->
    cancelled rt anthropic (Response status chunks EndOfStream) (FetchRejects e) e
| cancelled_fallback_body (status status' : Z) (chunks chunks' : list string)
    (e : js_error) :
    anthropic = false ->
    res_ok status = false ->
    asks_for_fallback rt (String.concat "" chunks) = true ->
    cancelled rt anthropic (Response status chunks EndOfStream)
              (Response status' chunks' (ReadRejects e)) e.

(** ** Stream events that carry a tool call *)

(** Anthropic: the start of a [tool_use] block, a fragment of its input,
    and its end. *)
Definition block_start_event (index : nat) (id name : string) : json :=
  JObj [("type", JStr "content_block_start");
        ("index", JInt (Z.of_nat index));
        ("content_block",
         JObj [("type", JStr "tool_use"); ("id", JStr id); ("name", JStr name);
               ("input", JObj [])])].

Definition input_delta_event (index : nat) (fragment : string) : json :=
  JObj [("type", JStr "content_block_delta");
        ("index", JInt (Z.of_nat index));
        ("delta", JObj [("type", JStr "input_json_delta");
                        ("partial_json", JStr fragment)])].

Definition block_stop_event (index : nat) : json :=
  JObj [("type", JStr "content_block_stop"); ("index", JInt (Z.of_nat index))].

(** The block a [tool_use] start stores, with its input once parsed. *)
Definition tool_use_block (id name : string) (input : json) : object :=
  [("type", JStr "tool_use"); ("id", JStr id); ("name", JStr name); ("input", input)].

(** OpenAI: an entry of [delta.tool_calls] that carries a fragment of the
    arguments of the call at [index]. *)
Definition arguments_delta (index : nat) (fragment : string) : json :=
  JObj [("index", JInt (Z.of_nat index));
        ("function", JObj [("arguments", JStr fragment)])].

(** The fragments a list of such entries carries for one index, in order. *)
Definition fragments_for (index : nat) (deltas : list (nat * string)) : list string :=
  map snd (filter (fun d => (fst d =? index)%nat) deltas).

Definition add_arguments (text : string) (c : openai_call) : openai_call :=
  {| oc_id := oc_id c; oc_name := oc_name c; oc_arguments := oc_arguments c ++ text |}.

Definition add_input (text : string) (s : anthropic_state) : anthropic_state :=
  {| contentBlocks := contentBlocks s;
     currentBlockIndex := currentBlockIndex s;
     currentBlockType := currentBlockType s;
     textContent := textContent s;
     inputJsonStr := inputJsonStr s ++ text |}.

(** What a text parses to, with the empty object for a text that does not
    parse. *)
Definition parsed_or_empty (text : string) : json :=
  match parse_json text with
  | Some v => v
  | None => JObj []
  end.

(* ================================================================== *)
(** ** The resource client, continued: [configure] and [getVersion] *)

Definition set_endpoint (e : string) (c : ZStackClient) : ZStackClient :=
  {| endpoint := e; sessionId := sessionId c; _accountName := _accountName c;
     _password := _password c; _relogging := _relogging c |}.

(** [s.replace(/\/+$/, '')]: the slashes at the end go. *)
Fixpoint strip_trailing_slashes (s : string) : string :=
  match s with
  | EmptyString => EmptyString
  | String c r =>
      match strip_trailing_slashes r with
      | EmptyString => if Ascii.eqb c "/" then EmptyString else String c EmptyString
      | t => String c t
      end
  end.

(** [endpoint.replace(/\/+$/, '')]: only a string has the method. *)
Definition replace_trailing_slashes (endpoint : jsval) : result string :=
  match endpoint with
  | Some (JStr s) => Ok (strip_trailing_slashes s)
  | None =>
      Throw (TypeError "Cannot read properties of undefined (reading 'replace')")
  | Some JNull =>
      Throw (TypeError "Cannot read properties of null (reading 'replace')")
  | Some _ => Throw (TypeError "endpoint.replace is not a function")
  end.

(** [configure(endpoint)] *)
Definition configure (endpoint : jsval) : M unit :=
  bind (lift (replace_trailing_slashes endpoint)) (fun e => assign (set_endpoint e)).

(** [n] slashes.  (For the statements below.) *)
Fixpoint slashes (n : nat) : string :=
  match n with
  | O => EmptyString
  | S k => String "/" (slashes k)
  end.

(** [getVersion()] (the second of the two methods of that name in the
    class, which is the one in effect; [console.warn] is left out). *)
Definition getVersion (rt : runtime) (srv : server) : M json :=
  try_catch (_put rt srv "/v1/management-nodes/actions"
                  (Some (JObj [("getVersion", JObj [])])))
            (fun _ => ret (JObj [("version", JStr "unknown")])).

(** *** Characters of a query string *)

(** How often a character occurs in a text.  (For the statements below.) *)
Fixpoint count_char (c : ascii) (s : string) : nat :=
  match s with
  | EmptyString => 0
  | String x r => (if Ascii.eqb x c then 1 else 0) + count_char c r
  end.

(** The characters that end or separate the parts of a query string. *)
Definition separators : list ascii := ["&"; "="; "#"; "?"; "/"; " "]%char.

(* ================================================================== *)
(** ** The tools declared to the provider ([TOOLS], [TOOLS_ANTHROPIC]) *)

(** The tools declared to the provider ([TOOLS], OpenAI format). *)
Definition TOOLS : list json :=
  [ JObj
      [ ("type", JStr "function");
        ("function", JObj
          [ ("name", JStr "zstack_query");
            ("description", JStr (q "通用查询：查询任意 ZStack 资源列表。resource_path 为 API 路径（不含 v1/ 前缀），如 'vm-instances'、'load-balancers/listeners'、'hosts'"));
            ("parameters", JObj
              [ ("type", JStr "object");
                ("properties", JObj
                  [ ("resource_path", JObj
                      [ ("type", JStr "string");
                        ("description", JStr "API资源路径，如 vm-instances, volumes, load-balancers, hosts, l3-networks 等") ]);
                    ("conditions", JObj
                      [ ("type", JStr "array");
                        ("items", JObj [("type", JStr "string")]);
                        ("description", JStr (q "查询条件列表，如 ['name=test', 'state=Running']")) ]);
                    ("limit", JObj
                      [ ("type", JStr "integer");
                        ("description", JStr "返回数量限制，默认100") ]);
                    ("start", JObj
                      [ ("type", JStr "integer");
                        ("description", JStr "起始偏移") ]);
                    ("sort_by", JObj
                      [ ("type", JStr "string");
                        ("description", JStr "排序字段") ]);
                    ("sort_direction", JObj
                      [ ("type", JStr "string");
                        ("enum", JArr [JStr "asc"; JStr "desc"]);
                        ("description", JStr "排序方向") ]) ]);
                ("required", JArr [JStr "resource_path"]) ]) ]) ];
    JObj
      [ ("type", JStr "function");
        ("function", JObj
          [ ("name", JStr "zstack_get");
            ("description", JStr "通用获取：根据 UUID 获取单个资源详情");
            ("parameters", JObj
              [ ("type", JStr "object");
                ("properties", JObj
                  [ ("resource_path", JObj
                      [ ("type", JStr "string");
                        ("description", JStr "API资源路径") ]);
                    ("uuid", JObj
                      [ ("type", JStr "string");
                        ("description", JStr "资源UUID") ]) ]);
                ("required", JArr [JStr "resource_path"; JStr "uuid"]) ]) ]) ];
    JObj
      [ ("type", JStr "function");
        ("function", JObj
          [ ("name", JStr "zstack_create");
            ("description", JStr (q "通用创建：创建任意 ZStack 资源。body 通常为 {'params': {...}}。注意某些资源创建路径包含父资源UUID，如 load-balancers/{lbUuid}/listeners"));
            ("parameters", JObj
              [ ("type", JStr "object");
                ("properties", JObj
                  [ ("resource_path", JObj
                      [ ("type", JStr "string");
                        ("description", JStr (q "创建API路径（含父资源UUID），如 'v1/load-balancers/xxx-uuid/listeners'")) ]);
                    ("body", JObj
                      [ ("type", JStr "object");
                        ("description", JStr (q "请求体，通常为 {'params': {...fields}}")) ]) ]);
                ("required", JArr [JStr "resource_path"; JStr "body"]) ]) ]) ];
    JObj
      [ ("type", JStr "function");
        ("function", JObj
          [ ("name", JStr "zstack_delete");
            ("description", JStr "通用删除：删除任意 ZStack 资源");
            ("parameters", JObj
              [ ("type", JStr "object");
                ("properties", JObj
                  [ ("resource_path", JObj
                      [ ("type", JStr "string");
                        ("description", JStr "API资源路径") ]);
                    ("uuid", JObj
                      [ ("type", JStr "string");
                        ("description", JStr "资源UUID") ]);
                    ("delete_mode", JObj
                      [ ("type", JStr "string");
                        ("enum", JArr [JStr "Permissive"; JStr "Enforcing"]);
                        ("description", JStr "删除模式，默认Permissive") ]) ]);
                ("required", JArr [JStr "resource_path"; JStr "uuid"]) ]) ]) ];
    JObj
      [ ("type", JStr "function");
        ("function", JObj
          [ ("name", JStr "zstack_action");
            ("description", JStr (q "通用操作：对资源执行 action（启停、迁移、挂载、刷新等）。body 格式为 {'actionName': {...params}}"));
            ("parameters", JObj
              [ ("type", JStr "object");
                ("properties", JObj
                  [ ("resource_path", JObj
                      [ ("type", JStr "string");
                        ("description", JStr "API资源路径") ]);
                    ("uuid", JObj
                      [ ("type", JStr "string");
                        ("description", JStr "资源UUID") ]);
                    ("body", JObj
                      [ ("type", JStr "object");
                        ("description", JStr (q "操作体，如 {'startVmInstance': {}}")) ]) ]);
                ("required", JArr [JStr "resource_path"; JStr "uuid"; JStr "body"]) ]) ]) ];
    JObj
      [ ("type", JStr "function");
        ("function", JObj
          [ ("name", JStr "zstack_update");
            ("description", JStr "通用更新：更新资源属性");
            ("parameters", JObj
              [ ("type", JStr "object");
                ("properties", JObj
                  [ ("resource_path", JObj
                      [ ("type", JStr "string");
                        ("description", JStr "API资源路径") ]);
                    ("uuid", JObj
                      [ ("type", JStr "string");
                        ("description", JStr "资源UUID") ]);
                    ("body", JObj
                      [ ("type", JStr "object");
                        ("description", JStr (q "更新体，如 {'updateVmInstance': {'name': 'new-name'}}")) ]) ]);
                ("required", JArr [JStr "resource_path"; JStr "uuid"; JStr "body"]) ]) ]) ];
    JObj
      [ ("type", JStr "function");
        ("function", JObj
          [ ("name", JStr "zstack_zql");
            ("description", JStr (q "ZQL查询：使用 ZStack Query Language 执行复杂查询。支持 query（查数据）和 count（统计数量）。示例：'query vminstance where state=Running'、'count vminstance'、'count vminstance where state=Stopped'。⚠️ 查询资源前必须先用 count 获取真实总数，不要用 API 返回数组长度当总数！"));
            ("parameters", JObj
              [ ("type", JStr "object");
                ("properties", JObj
                  [ ("zql", JObj
                      [ ("type", JStr "string");
                        ("description", JStr "ZQL查询语句") ]) ]);
                ("required", JArr [JStr "zql"]) ]) ]) ];
    JObj
      [ ("type", JStr "function");
        ("function", JObj
          [ ("name", JStr "query_vms");
            ("description", JStr "快捷：查询云主机列表");
            ("parameters", JObj
              [ ("type", JStr "object");
                ("properties", JObj
                  [ ("conditions", JObj
                      [ ("type", JStr "array");
                        ("items", JObj [("type", JStr "string")]) ]) ]) ]) ]) ];
    JObj
      [ ("type", JStr "function");
        ("function", JObj
          [ ("name", JStr "create_vm");
            ("description", JStr "快捷：创建云主机");
            ("parameters", JObj
              [ ("type", JStr "object");
                ("properties", JObj
                  [ ("params", JObj
                      [ ("type", JStr "object");
                        ("description", JStr "创建参数：name, instanceOfferingUuid, imageUuid, l3NetworkUuids, dataDiskOfferingUuids, rootDiskOfferingUuid, description 等") ]) ]);
                ("required", JArr [JStr "params"]) ]) ]) ];
    JObj
      [ ("type", JStr "function");
        ("function", JObj
          [ ("name", JStr "start_vm");
            ("description", JStr "快捷：启动云主机");
            ("parameters", JObj
              [ ("type", JStr "object");
                ("properties", JObj [("uuid", JObj [("type", JStr "string")])]);
                ("required", JArr [JStr "uuid"]) ]) ]) ];
    JObj
      [ ("type", JStr "function");
        ("function", JObj
          [ ("name", JStr "stop_vm");
            ("description", JStr "快捷：停止云主机");
            ("parameters", JObj
              [ ("type", JStr "object");
                ("properties", JObj
                  [ ("uuid", JObj [("type", JStr "string")]);
                    ("type", JObj
                      [ ("type", JStr "string");
                        ("enum", JArr [JStr "grace"; JStr "cold"]) ]) ]);
                ("required", JArr [JStr "uuid"]) ]) ]) ];
    JObj
      [ ("type", JStr "function");
        ("function", JObj
          [ ("name", JStr "reboot_vm");
            ("description", JStr "快捷：重启云主机");
            ("parameters", JObj
              [ ("type", JStr "object");
                ("properties", JObj [("uuid", JObj [("type", JStr "string")])]);
                ("required", JArr [JStr "uuid"]) ]) ]) ];
    JObj
      [ ("type", JStr "function");
        ("function", JObj
          [ ("name", JStr "delete_vm");
            ("description", JStr "快捷：删除云主机");
            ("parameters", JObj
              [ ("type", JStr "object");
                ("properties", JObj [("uuid", JObj [("type", JStr "string")])]);
                ("required", JArr [JStr "uuid"]) ]) ]) ];
    JObj
      [ ("type", JStr "function");
        ("function", JObj
          [ ("name", JStr "migrate_vm");
            ("description", JStr "快捷：迁移云主机到指定物理机");
            ("parameters", JObj
              [ ("type", JStr "object");
                ("properties", JObj
                  [ ("uuid", JObj [("type", JStr "string")]);
                    ("hostUuid", JObj [("type", JStr "string")]) ]);
                ("required", JArr [JStr "uuid"; JStr "hostUuid"]) ]) ]) ];
    JObj
      [ ("type", JStr "function");
        ("function", JObj
          [ ("name", JStr "query_hosts");
            ("description", JStr "快捷：查询物理机列表");
            ("parameters", JObj
              [ ("type", JStr "object");
                ("properties", JObj
                  [ ("conditions", JObj
                      [ ("type", JStr "array");
                        ("items", JObj [("type", JStr "string")]) ]) ]) ]) ]) ];
    JObj
      [ ("type", JStr "function");
        ("function", JObj
          [ ("name", JStr "query_images");
            ("description", JStr "快捷：查询镜像列表");
            ("parameters", JObj
              [ ("type", JStr "object");
                ("properties", JObj
                  [ ("conditions", JObj
                      [ ("type", JStr "array");
                        ("items", JObj [("type", JStr "string")]) ]) ]) ]) ]) ];
    JObj
      [ ("type", JStr "function");
        ("function", JObj
          [ ("name", JStr "query_l3_networks");
            ("description", JStr "快捷：查询L3网络列表");
            ("parameters", JObj
              [ ("type", JStr "object");
                ("properties", JObj
                  [ ("conditions", JObj
                      [ ("type", JStr "array");
                        ("items", JObj [("type", JStr "string")]) ]) ]) ]) ]) ];
    JObj
      [ ("type", JStr "function");
        ("function", JObj
          [ ("name", JStr "query_instance_offerings");
            ("description", JStr "快捷：查询计算规格列表");
            ("parameters", JObj
              [ ("type", JStr "object");
                ("properties", JObj
                  [ ("conditions", JObj
                      [ ("type", JStr "array");
                        ("items", JObj [("type", JStr "string")]) ]) ]) ]) ]) ];
    JObj
      [ ("type", JStr "function");
        ("function", JObj
          [ ("name", JStr "query_volumes");
            ("description", JStr "快捷：查询云盘列表");
            ("parameters", JObj
              [ ("type", JStr "object");
                ("properties", JObj
                  [ ("conditions", JObj
                      [ ("type", JStr "array");
                        ("items", JObj [("type", JStr "string")]) ]) ]) ]) ]) ];
    JObj
      [ ("type", JStr "function");
        ("function", JObj
          [ ("name", JStr "query_load_balancers");
            ("description", JStr "快捷：查询负载均衡器列表");
            ("parameters", JObj
              [ ("type", JStr "object");
                ("properties", JObj
                  [ ("conditions", JObj
                      [ ("type", JStr "array");
                        ("items", JObj [("type", JStr "string")]) ]) ]) ]) ]) ];
    JObj
      [ ("type", JStr "function");
        ("function", JObj
          [ ("name", JStr "query_vips");
            ("description", JStr "快捷：查询VIP列表");
            ("parameters", JObj
              [ ("type", JStr "object");
                ("properties", JObj
                  [ ("conditions", JObj
                      [ ("type", JStr "array");
                        ("items", JObj [("type", JStr "string")]) ]) ]) ]) ]) ];
    JObj
      [ ("type", JStr "function");
        ("function", JObj
          [ ("name", JStr "query_eips");
            ("description", JStr "快捷：查询弹性IP列表");
            ("parameters", JObj
              [ ("type", JStr "object");
                ("properties", JObj
                  [ ("conditions", JObj
                      [ ("type", JStr "array");
                        ("items", JObj [("type", JStr "string")]) ]) ]) ]) ]) ];
    JObj
      [ ("type", JStr "function");
        ("function", JObj
          [ ("name", JStr "query_security_groups");
            ("description", JStr "快捷：查询安全组列表");
            ("parameters", JObj
              [ ("type", JStr "object");
                ("properties", JObj
                  [ ("conditions", JObj
                      [ ("type", JStr "array");
                        ("items", JObj [("type", JStr "string")]) ]) ]) ]) ]) ];
    JObj
      [ ("type", JStr "function");
        ("function", JObj
          [ ("name", JStr "query_vpc_routers");
            ("description", JStr "快捷：查询VPC路由器列表");
            ("parameters", JObj
              [ ("type", JStr "object");
                ("properties", JObj
                  [ ("conditions", JObj
                      [ ("type", JStr "array");
                        ("items", JObj [("type", JStr "string")]) ]) ]) ]) ]) ] ].

(** [t => ({ name: t.function.name, description: t.function.description,
             input_schema: t.function.parameters })] *)
Definition anthropic_tool (t : json) : result json :=
  fn <- prop (Some t) "function" ;;
  name <- prop fn "name" ;;
  description <- prop fn "description" ;;
  parameters <- prop fn "parameters" ;;
  Ok (JObj (List.app (field "name" name)
              (List.app (field "description" description)
                        (field "input_schema" parameters)))).

(** [TOOLS_ANTHROPIC = TOOLS.map(...)] *)
Definition TOOLS_ANTHROPIC : result (list json) := mapM anthropic_tool TOOLS.

(** The name a tool is declared under, in either format, and the
    parameters its schema lists.  (For the statements below.) *)
Definition declared_name (t : json) : jsval :=
  js_or (prop_opt (prop_opt (Some t) "function") "name") (prop_opt (Some t) "name").

Definition declared_names (ts : list json) : list string :=
  flat_map (fun t => match declared_name t with
                     | Some (JStr n) => [n]
                     | _ => []
                     end) ts.

Definition declared_schema (t : json) : jsval :=
  js_or (prop_opt (prop_opt (Some t) "function") "parameters")
        (prop_opt (Some t) "input_schema").

Definition declared_parameters (t : json) : list string :=
  match prop_opt (declared_schema t) "properties" with
  | Some (JObj fs) => map fst fs
  | _ => []
  end.

(** The first request a tool call sends, if its arguments get as far as
    the client.  (For the statements below.) *)
Definition tool_request (rt : runtime) (srv : server) (w : world) (name args : jsval)
  : option request :=
  match select_call name args with
  | Ok (Some call) => nth_error (log (snd (invoke rt srv call w))) (List.length (log w))
  | _ => None
  end.

(* ================================================================== *)
(** ** What a run shows: the text, the tool events and the turns *)

(** What the loop comes to once every chunk is read. *)
Definition after_reads {S} (fin : read_end) (p : progress S) : progress S :=
  match failure p, fin with
  | None, ReadRejects e => broke (reached p) (emitted p) e
  | _, _ => p
  end.

(** The line feed. *)
Definition newline : ascii := ascii_of_nat 10.

(** The text the [text_delta] events of a run carry, and whether a run
    emitted nothing else.  (For the statements below.) *)
Fixpoint streamed_text (evs : list event) : string :=
  match evs with
  | [] => EmptyString
  | text_delta text :: rest => to_string text ++ streamed_text rest
  | _ :: rest => streamed_text rest
  end.

Definition only_text_deltas (evs : list event) : bool :=
  forallb (fun ev => match ev with text_delta _ => true | _ => false end) evs.

(** A step keeps the account: the text it adds to the state is the text
    it emits, and it emits nothing else. *)
Definition keeps_account {X S} (text_of : S -> string) (step : X -> S -> progress S)
  : Prop :=
  forall (x : X) (s : S),
    text_of (reached (step x s)) = text_of s ++ streamed_text (emitted (step x s)) /\
    only_text_deltas (emitted (step x s)) = true.

(** The stream of an adapter call fails with [e] (a read rejects, or a
    line makes the loop throw) after the events [evs], no tool call having
    begun.  (For the statements below.) *)
Definition fails_before_tools (rt : runtime) (anthropic : bool) (chunks : list string)
    (fin : read_end) (e : js_error) (evs : list event) : Prop :=
  if anthropic then
    let p := read_loop (anthropic_line rt) chunks fin "" anthropic_start in
    failure p = Some e /\ emitted p = evs /\
    existsb is_tool_use (entries (contentBlocks (reached p))) = false
  else
    let p := read_loop (openai_line rt) chunks fin "" openai_start in
    failure p = Some e /\ emitted p = evs /\ o_toolCalls (reached p) = [].

(** The events of a run that are no [text_delta].  (For the statements
    below.) *)
Definition tool_events (evs : list event) : list event :=
  filter (fun ev => match ev with text_delta _ => false | _ => true end) evs.

(** The assistant's turn that ends a run with an answer. *)
Definition final_turn (c : json) : json :=
  JObj [("role", JStr "assistant"); ("content", c)].

(** The rounds of a run, numbered from the round they start at; what a
    round that ran tools adds to the conversation and to the tool events.
    (For the statements below.) *)
Definition numbered {A} (from : nat) (l : list A) : list (nat * A) :=
  combine (seq from (List.length l)) l.

Definition round_turns (rt : runtime) (env : environment) (engine : LLMEngine)
    (kb : nat * (response * list object)) : list json :=
  request_turn engine (fst (snd kb))
  :: result_turns engine (results_in_order rt env engine (fst kb) (snd (snd kb))).

Definition round_events (kn : nat * (list jsval * list jsval)) : list event :=
  [tool_start (fst (snd kn)) (snd (snd kn)) (fst kn + 1);
   tool_done (fst (snd kn)) (fst kn + 1)].

(** *** The descriptions of the calls of a round *)

(** What a computation throws, if it throws, is a [TypeError]. *)
Definition type_errors_only {A} (r : result A) : Prop :=
  forall e, r = Throw e -> err_name e = "TypeError".

(** The description of an OpenAI call when it can be made:
    [_formatToolDetail(tc.function.name, JSON.parse(tc.function.arguments))]. *)
Definition openai_detail (rt : runtime) (tc : object) : result string :=
  text <- function_prop tc "arguments" ;;
  args <- JSON_parse rt (to_string text) ;;
  name <- function_prop tc "name" ;;
  _formatToolDetail name args.

(** What [toolDetails] gives for one OpenAI call. *)
Definition openai_described (rt : runtime) (tc : object) : result jsval :=
  match openai_detail rt tc with
  | Ok d => Ok (Some (JStr d))
  | Throw _ => function_prop tc "name"
  end.

(** The description of an Anthropic call:
    [_formatToolDetail(tc.name, tc.input || {})]. *)
Definition anthropic_detail (tc : object) : result string :=
  _formatToolDetail (lookup "name" tc)
    (match js_or (lookup "input" tc) (Some (JObj [])) with
     | Some j => j
     | None => JObj []
     end).

(* ================================================================== *)
(** ** The addresses of the providers *)

(** [LLMEngine.BASE_URLS] *)
Definition BASE_URLS : list (string * json) :=
  [ ("openai", JStr "https://api.openai.com/v1");
    ("anthropic", JStr "https://api.anthropic.com/v1");
    ("glm", JStr "https://open.bigmodel.cn/api/paas/v4");
    ("deepseek", JStr "https://api.deepseek.com/v1");
    ("qwen", JStr "https://dashscope.aliyuncs.com/compatible-mode/v1");
    ("minimax", JStr "https://api.minimax.chat/v1") ].

(** [s.replace(/\/$/, '')]: one slash at the end goes. *)
Fixpoint strip_one_trailing_slash (s : string) : string :=
  match s with
  | EmptyString => EmptyString
  | String c EmptyString => if Ascii.eqb c "/" then EmptyString else s
  | String c r => String c (strip_one_trailing_slash r)
  end.

(** The names every object answers to, the ones of [Object.prototype]:
    [BASE_URLS] has a function or an object under each, no address. *)
Definition Object_prototype_names : list string :=
  [ "constructor"; "__defineGetter__"; "__defineSetter__"; "hasOwnProperty";
    "__lookupGetter__"; "__lookupSetter__"; "isPrototypeOf"; "propertyIsEnumerable";
    "toString"; "valueOf"; "__proto__"; "toLocaleString" ].

(** [LLMEngine.BASE_URLS[provider]]: the address listed, [undefined], or
    what every object inherits. *)
Inductive base_entry :=
| Listed (v : jsval)
| Inherited.

Definition BASE_URLS_at (provider : string) : base_entry :=
  match lookup provider BASE_URLS with
  | Some v => Listed (Some v)
  | None =>
      if existsb (String.eqb provider) Object_prototype_names
      then Inherited
      else Listed None
  end.

(** [`${base.replace(/\/$/, '')}${path}`] with
    [base = this.baseUrl || defaultBase], for a base address that is a
    string (the constructor sets the empty one): an inherited member is
    truthy and has no [replace]. *)
Definition url_under (baseUrl : string) (defaultBase : base_entry) (path : string)
  : result string :=
  if truthy (Some (JStr baseUrl)) then
    Ok (strip_one_trailing_slash baseUrl ++ path)
  else
    match defaultBase with
    | Listed v => Ok (strip_one_trailing_slash (to_string v) ++ path)
    | Inherited => Throw (TypeError "base.replace is not a function")
    end.

(** The address [_callOpenAIStream] and [_callOpenAINonStream] post to,
    with [defaultBase = BASE_URLS[this.provider] || BASE_URLS.openai]. *)
Definition openai_url (provider baseUrl : string) : result string :=
  let defaultBase :=
    match BASE_URLS_at provider with
    | Listed v => Listed (js_or v (lookup "openai" BASE_URLS))
    | Inherited => Inherited
    end in
  url_under baseUrl defaultBase "/chat/completions".

(** The address [_callAnthropicStream] posts to, with
    [defaultBase = BASE_URLS.anthropic]. *)
Definition anthropic_url (baseUrl : string) : result string :=
  url_under baseUrl (Listed (lookup "anthropic" BASE_URLS)) "/messages".

(* ================================================================== *)
(** ** Arguments of tool calls *)



(** The shortcut tools of the [switch] in [_executeTool] and the query
    each stands for.  (For the statements below.) *)
Definition shortcut_queries : list (string * convenience_query) :=
  [ ("query_vms", QVmInstances); ("query_hosts", QHosts); ("query_images", QImages);
    ("query_l3_networks", QL3Networks);
    ("query_instance_offerings", QInstanceOfferings); ("query_volumes", QVolumes);
    ("query_load_balancers", QLoadBalancers); ("query_vips", QVips);
    ("query_eips", QEips); ("query_security_groups", QSecurityGroups);
    ("query_vpc_routers", QVpcRouters) ].

(** A call as the provider must get it back: with an id, the type
    [function] and a name that is not empty.  (For the statements below.) *)
Definition complete_call (tc : object) : Prop :=
  truthy (lookup "id" tc) = true /\
  lookup "type" tc = Some (JStr "function") /\
  exists name arguments : string,
    name <> "" /\
    lookup "function" tc
    = Some (JObj [("name", JStr name); ("arguments", JStr arguments)]).

(* ================================================================== *)
(** ** Servers and environments to run examples on *)

(** The server that gives the same answer to every request. *)
Definition always (r : fetch_result) : server := fun _ _ => r.

(** A server told what to answer to its first requests, in order; later
    ones get [rest]. *)
Definition scripted (answers : list fetch_result) (rest : fetch_result) : server :=
  fun history _ => nth (List.length history) answers rest.

(** A client that logged in as [admin] and holds session [s1]. *)
Definition logged_in_client : ZStackClient := {|
  endpoint := "http://zstack:8080";
  sessionId := Some (JStr "s1");
  _accountName := Some "admin";
  _password := Some "password";
  _relogging := false
|}.

Definition fresh_world : world := {| cli := logged_in_client; log := [] |}.

(** The requests one verb of the client may add to the log: none (the
    arguments were refused), the request alone, the request and one login,
    or the request, one login and the request once more. *)
Definition is_login_post (c : ZStackClient) (r : request) : Prop :=
  req_method r = "POST" /\ req_url r = endpoint c ++ "/zstack/v1/accounts/login".

Definition same_request (r1 r2 : request) : Prop :=
  req_method r1 = req_method r2 /\ req_url r1 = req_url r2 /\
  req_body r1 = req_body r2.

Inductive verb_trace (c : ZStackClient) : list request -> Prop :=
| no_request : verb_trace c []
| one_attempt (r : request) : verb_trace c [r]
| login_failed (r l : request) : is_login_post c l -> verb_trace c [r; l]
| retried_once (r l r' : request) :
    is_login_post c l -> same_request r r' -> verb_trace c [r; l; r'].

(** An action of the client that adds such requests. *)
Definition adds_verb_trace (m : M json) : Prop :=
  forall w, exists extra,
    log (snd (m w)) = (log w ++ extra)%list /\ verb_trace (cli w) extra.

Definition openai_engine : LLMEngine :=
  {| provider := "openai"; queryMode := "compact"; messages := [] |}.

Definition anthropic_engine : LLMEngine :=
  {| provider := "anthropic"; queryMode := "full"; messages := [] |}.

(** The fragments [{"a":1,] and ["b":2}] of the arguments of one call,
    delivered in two events of an Anthropic stream (the second event cut
    in two by the chunking of the network)... *)
Definition anthropic_fragment_stream : list string :=
  [ q "event: content_block_start
data: {'type':'content_block_start','index':0,'content_block':{'type':'tool_use','id':'t1','name':'zstack_query','input':{}}}

event: content_block_delta
data: {'type':'content_block_delta','index':0,'delta':{'type':'input_json_delta','partial_json':'{\'a\':1,'}}

event: content_block_delta
data: {'type':'content_block_del";
    q "ta','index':0,'delta':{'type':'input_json_delta','partial_json':'\'b\':2}'}}

event: content_block_stop
data: {'type':'content_block_stop','index':0}

" ].

(** ... and in two chunks of an OpenAI stream. *)
Definition openai_fragment_stream : list string :=
  [ q "data: {'choices':[{'delta':{'tool_calls':[{'index':0,'id':'c1','function':{'name':'zstack_query','arguments':'{\'a\':1,'}}]}}]}

data: {'choices':[{'delta':{'tool_calls':[{'index':0,'function':{'arguments':'\'b\':2}'}}]}}]}

data: [DONE]

" ].

(** An OpenAI stream that ends after the first fragment: the arguments
    [{"a":1,] do not parse. *)
Definition openai_broken_stream : list string :=
  [ q "data: {'choices':[{'delta':{'tool_calls':[{'index':0,'id':'c1','function':{'name':'zstack_zql','arguments':'{\'a\':1,'}}]}}]}

data: [DONE]

" ].

(** A server on which every path that contains [boom] fails. *)
Definition example_server : server := fun _ req =>
  if includes "boom" (req_url req)
  then Responds 500 (q "{'error':{'details':'it broke'}}")
  else Responds 200 (q "{'inventories':[{'uuid':'x'}]}").

(** Three tool calls in one round; the second asks for a failing path. *)
Definition three_calls_stream : list string :=
  [ q "data: {'choices':[{'delta':{'content':'Looking.','tool_calls':[{'index':0,'id':'c1','function':{'name':'zstack_query','arguments':'{\'resource_path\':\'hosts\'}'}}]}}]}
data: {'choices':[{'delta':{'tool_calls':[{'index':1,'id':'c2','function':{'name':'zstack_get','arguments':'{\'resource_path\':\'boom\',\'uuid\':\'u\''}}]}}]}
data: {'choices':[{'delta':{'tool_calls':[{'index':1,'function':{'arguments':'}'}},{'index':2,'id':'c3','function':{'name':'zstack_zql','arguments':'{\'zql\':\'query vminstance\'}'}}]}}]}
data: [DONE]
" ].

Definition final_stream : list string :=
  [ q "data: {'choices':[{'delta':{'content':'Done.'}}]}
" ].

Definition example_environment : environment := {|
  clock := fun k => Z.of_nat k;
  aborted_at_top := fun _ => false;
  aborted_after_call := fun _ => false;
  stream_exchange := fun i _ =>
    match i with
    | O => Response 200 three_calls_stream EndOfStream
    | S _ => Response 200 final_stream EndOfStream
    end;
  plain_exchange := fun _ _ => FetchRejects (Error "not asked");
  zstackClient := fun _ _ => Some (view_of example_runtime example_server fresh_world);
  completion := fun _ k => 2 * k + 1
|}.

(** A provider that asks for one more tool call in every round, each with
    an id of its own. *)
Definition busy_stream (i : nat) : list string :=
  [ q "data: {'choices':[{'delta':{'tool_calls':[{'index':0,'id':'call-"
      ++ digits_of (Z.of_nat i)
      ++ q "','function':{'name':'zstack_zql','arguments':'{\'zql\':\'query vminstance\'}'}}]}}]}
" ].

Definition busy_environment : environment := {|
  clock := fun k => Z.of_nat k;
  aborted_at_top := fun _ => false;
  aborted_after_call := fun _ => false;
  stream_exchange := fun i _ => Response 200 (busy_stream i) EndOfStream;
  plain_exchange := fun _ _ => FetchRejects (Error "not asked");
  zstackClient := fun _ _ => Some (view_of example_runtime example_server fresh_world);
  completion := fun _ k => k
|}.

(** A stream that is cut by [abort()] after some text arrived. *)
Definition cancelled_environment : environment := {|
  clock := fun k => Z.of_nat k;
  aborted_at_top := fun _ => false;
  aborted_after_call := fun _ => true;
  stream_exchange := fun _ _ =>
    Response 200 [q "data: {'choices':[{'delta':{'content':'The hosts a'}}]}
"] (ReadRejects AbortError);
  plain_exchange := fun _ _ => FetchRejects (Error "not asked");
  zstackClient := fun _ _ => None;
  completion := fun _ k => k
|}.

(** A client in the middle of a re-login. *)
Definition relogging_world : world :=
  {| cli := set_relogging true logged_in_client; log := [] |}.

(** A call of which the name has arrived and no argument text yet. *)
Definition pending_call : openai_call :=
  {| oc_id := Some (JStr "c1"); oc_name := "zstack_zql"; oc_arguments := "" |}.

Definition broken_environment : environment := {|
  clock := fun k => Z.of_nat k;
  aborted_at_top := fun _ => false;
  aborted_after_call := fun _ => false;
  stream_exchange := fun _ _ =>
    Response 200 [q "data: {'choices':[{'delta':{'content':'The hosts a'}}]}
data: {'error':{'message':'overloaded'}}
"] EndOfStream;
  plain_exchange := fun _ _ => FetchRejects (Error "not asked");
  zstackClient := fun _ _ => None;
  completion := fun _ k => k
|}.

(** An Anthropic stream that asks for [zstack_get] with a number for the
    uuid. *)
Definition numeric_uuid_stream : list string :=
  [ q "event: content_block_start
data: {'type':'content_block_start','index':0,'content_block':{'type':'tool_use','id':'t1','name':'zstack_get','input':{}}}

event: content_block_delta
data: {'type':'content_block_delta','index':0,'delta':{'type':'input_json_delta','partial_json':'{\'resource_path\':\'hosts\',\'uuid\':5}'}}

event: content_block_stop
data: {'type':'content_block_stop','index':0}

" ].

Definition numeric_uuid_environment : environment := {|
  clock := fun k => Z.of_nat k;
  aborted_at_top := fun _ => false;
  aborted_after_call := fun _ => false;
  stream_exchange := fun _ _ => Response 200 numeric_uuid_stream EndOfStream;
  plain_exchange := fun _ _ => FetchRejects (Error "not asked");
  zstackClient := fun _ _ => Some (view_of example_runtime example_server fresh_world);
  completion := fun _ k => k
|}.

(** An OpenAI stream with two calls, the first of which never gets an
    id. *)
Definition dropped_call_stream : list string :=
  [ q "data: {'choices':[{'delta':{'tool_calls':[{'index':0,'function':{'name':'zstack_zql','arguments':'{}'}}]}}]}
data: {'choices':[{'delta':{'tool_calls':[{'index':1,'id':'c2','function':{'name':'query_hosts','arguments':'{}'}}]}}]}
data: [DONE]
" ].

(* ================================================================== *)
(** * Properties *)

(** ** Strings *)


Lemma startsWith_own_prefix (pre s : string) : startsWith pre (pre ++ s) = true.
Proof.
  unfold startsWith.
  induction pre as [|c pre IH]; simpl.
  - destruct s; reflexivity.
  - destruct (ascii_dec c c) as [_|ne]; [exact IH | contradiction].
Qed.

Lemma eqb_empty_false (s : string) : s <> "" -> (s =? "") = false.
Proof.
  intros ne. destruct (String.eqb_spec s ""); [contradiction | reflexivity].
Qed.

(** ** [JSON.parse]: the fuel is enough *)

Lemma skip_ws_length (s : string) : String.length (skip_ws s) <= String.length s.
Proof.
  induction s as [|c r IH]; cbn [skip_ws]; [lia|].
  destruct (is_json_ws c); cbn [String.length]; lia.
Qed.

Lemma slice_from_length (n : nat) (s : string) :
  String.length (slice_from n s) <= String.length s.
Proof.
  revert s. induction n as [|n IH]; intros [|c r]; cbn; try lia.
  specialize (IH r). lia.
Qed.

Lemma take_digits_length (s : string) :
  forall (acc : Z) (count : nat),
    String.length (snd (take_digits s acc count)) <= String.length s.
Proof.
  induction s as [|c r IH]; intros acc count; cbn [take_digits]; [cbn; lia|].
  destruct (is_digit c); [|cbn; lia].
  specialize (IH (acc * 10 + digit_val c)%Z (S count)). cbn [String.length]. lia.
Qed.

Lemma parse_chars_length (n : nat) :
  forall (s t r : string),
    String.length s <= n ->
    parse_chars s = Some (t, r) -> String.length r < String.length s.
Proof.
  induction n as [|n IH]; intros s t r short parsed.
  - destruct s; [discriminate | cbn in short; lia].
  - destruct s as [|c s]; [discriminate|].
    cbn [String.length] in short |- *.
    cbn [parse_chars] in parsed.
    destruct (Ascii.eqb c dq).
    { injection parsed as _ <-. lia. }
    assert (step : forall (out : string) (rest : string),
               String.length rest <= n ->
               match parse_chars rest with
               | Some (t0, r2) => Some (out ++ t0, r2)
               | None => None
               end = Some (t, r) ->
               String.length r < String.length rest).
    { intros out rest fits found.
      destruct (parse_chars rest) as [[t0 r2]|] eqn:inner; [|discriminate].
      injection found as _ <-. apply (@IH rest t0 r2 fits inner). }
    destruct (Ascii.eqb c bs).
    + destruct s as [|e s']; [discriminate|]. cbn [String.length] in short |- *.
      repeat match type of parsed with
             | (if ?b then _ else _) = _ => destruct b
             end;
        try (apply step in parsed; lia);
        try discriminate.
      destruct s' as [|h1 [|h2 [|h3 [|h4 r'']]]]; try discriminate.
      destruct (hex_val h1), (hex_val h2), (hex_val h3), (hex_val h4);
        try discriminate.
      cbn [String.length] in short |- *.
      apply step in parsed; lia.
    + destruct (nat_of_ascii c <? 32)%nat; [discriminate|].
      destruct (parse_chars s) as [[t0 r2]|] eqn:inner; [|discriminate].
      injection parsed as _ <-.
      assert (String.length r2 < String.length s) by (apply (@IH s t0 r2); [lia | exact inner]).
      lia.
Qed.

Lemma parse_number_length (s : string) (v : json) (r : string) :
  parse_number s = Some (v, r) -> String.length r <= String.length s.
Proof.
  unfold parse_number. intros parsed.
  set (signed := match s with
                 | String c r0 => if Ascii.eqb c "-" then (true, r0) else (false, s)
                 | EmptyString => (false, s)
                 end) in parsed.
  assert (after_sign : String.length (snd signed) <= String.length s).
  { subst signed. destruct s as [|c r0]; cbn; [lia|].
    destruct (Ascii.eqb c "-"); cbn; lia. }
  destruct signed as [neg s1]. cbn [snd] in after_sign.
  destruct s1 as [|c0 tail]; [discriminate|].
  destruct (is_digit c0); [|discriminate].
  pose proof (take_digits_length (String c0 tail) 0%Z 0) as after_int.
  destruct (take_digits (String c0 tail) 0%Z 0) as [[ip ic] s2].
  cbn [snd] in after_int.
  destruct (Ascii.eqb c0 "0" && (1 <? ic)%nat)%bool; [discriminate|].
  match type of parsed with
  | match ?frac with _ => _ end = _ =>
      assert (after_frac : match frac with
                           | Some (_, _, s3) => String.length s3 <= String.length s2
                           | None => True
                           end);
        [|destruct frac as [[[m fc] s3]|]; [|discriminate]]
  end.
  { destruct s2 as [|c r0]; [cbn; lia|].
    destruct (Ascii.eqb c ".").
    - pose proof (take_digits_length r0 ip 0) as inner.
      destruct (take_digits r0 ip 0) as [[m fc] s3]. cbn [snd] in inner.
      destruct (fc =? 0)%nat; [exact I | cbn [String.length]; lia].
    - lia. }
  match type of parsed with
  | match ?expo with _ => _ end = _ =>
      assert (after_exp : match expo with
                          | Some (_, s4) => String.length s4 <= String.length s3
                          | None => True
                          end);
        [|destruct expo as [[ev s4]|]; [|discriminate]]
  end.
  { destruct s3 as [|x r0]; [cbn; lia|].
    destruct (Ascii.eqb x "e" || Ascii.eqb x "E")%bool; [|lia].
    set (esigned := match r0 with
                    | String y r1 =>
                        if Ascii.eqb y "-" then (true, r1)
                        else if Ascii.eqb y "+" then (false, r1)
                        else (false, r0)
                    | EmptyString => (false, r0)
                    end).
    assert (after_esign : String.length (snd esigned) <= String.length r0).
    { subst esigned. destruct r0 as [|y r1]; cbn; [lia|].
      destruct (Ascii.eqb y "-"); [cbn; lia|].
      destruct (Ascii.eqb y "+"); cbn; lia. }
    destruct esigned as [eneg r1]. cbn [snd] in after_esign.
    pose proof (take_digits_length r1 0%Z 0) as inner.
    destruct (take_digits r1 0%Z 0) as [[ev ec] s4]. cbn [snd] in inner.
    destruct (ec =? 0)%nat; [exact I | cbn [String.length]; lia]. }
  destruct (normalize_num (ic + fc) (if neg then (- m)%Z else m) (ev - Z.of_nat fc))
    as [mn en].
  injection parsed as _ <-. lia.
Qed.

Ltac ws_bound sk :=
  match type of sk with
  | skip_ws ?x = _ =>
      let b := fresh "bound" in
      pose proof (skip_ws_length x) as b; rewrite sk in b; cbn [String.length] in b
  end.

Lemma parse_fuel (f : nat) :
  (forall s v r, parse_value f s = Some (v, r) ->
      String.length r <= String.length s /\
      forall f', String.length s < f' + String.length r ->
                 parse_value f' s = Some (v, r)) /\
  (forall s acc v r, parse_members f s acc = Some (v, r) ->
      String.length r <= String.length s /\
      forall f', String.length s < f' + String.length r ->
                 parse_members f' s acc = Some (v, r)) /\
  (forall s acc v r, parse_elements f s acc = Some (v, r) ->
      String.length r <= String.length s /\
      forall f', String.length s < f' + String.length r ->
                 parse_elements f' s acc = Some (v, r)).
Proof.
  induction f as [|f [IHv [IHm IHe]]].
  - repeat split; discriminate.
  - split; [|split].
    + intros s v r parsed. cbn [parse_value] in parsed.
      destruct (skip_ws s) as [|c r0] eqn:sk; [discriminate|]. ws_bound sk.
      destruct (Ascii.eqb c "{") eqn:e1.
      { destruct (skip_ws r0) as [|c1 r1] eqn:sk1; [discriminate|]. ws_bound sk1.
        destruct (Ascii.eqb c1 "}") eqn:e2.
        - injection parsed as <- <-. split; [lia|].
          intros [|g] big; [lia|]. cbn [parse_value]. rewrite sk, e1, sk1, e2.
          reflexivity.
        - destruct (IHm _ _ _ _ parsed) as [len more].
          cbn [String.length] in len. split; [lia|].
          intros [|g] big; [lia|]. cbn [parse_value]. rewrite sk, e1, sk1, e2.
          apply more. cbn [String.length]. lia. }
      destruct (Ascii.eqb c "[") eqn:e2.
      { destruct (skip_ws r0) as [|c1 r1] eqn:sk1; [discriminate|]. ws_bound sk1.
        destruct (Ascii.eqb c1 "]") eqn:e3.
        - injection parsed as <- <-. split; [lia|].
          intros [|g] big; [lia|]. cbn [parse_value]. rewrite sk, e1, e2, sk1, e3.
          reflexivity.
        - destruct (IHe _ _ _ _ parsed) as [len more].
          cbn [String.length] in len. split; [lia|].
          intros [|g] big; [lia|]. cbn [parse_value]. rewrite sk, e1, e2, sk1, e3.
          apply more. cbn [String.length]. lia. }
      destruct (Ascii.eqb c dq) eqn:e3.
      { destruct (parse_chars r0) as [[t r1]|] eqn:pc; [|discriminate].
        injection parsed as <- <-.
        pose proof (@parse_chars_length _ _ _ _ (le_n _) pc).
        split; [lia|].
        intros [|g] big; [lia|]. cbn [parse_value]. rewrite sk, e1, e2, e3, pc.
        reflexivity. }
      destruct (String.prefix "true" (String c r0)) eqn:e4.
      { injection parsed as <- <-.
        pose proof (slice_from_length 4 (String c r0)) as cut.
        cbn [String.length slice_from] in cut.
        split; [lia|].
        intros [|g] big; [lia|]. cbn [parse_value]. rewrite sk, e1, e2, e3, e4.
        reflexivity. }
      destruct (String.prefix "false" (String c r0)) eqn:e5.
      { injection parsed as <- <-.
        pose proof (slice_from_length 5 (String c r0)) as cut.
        cbn [String.length slice_from] in cut.
        split; [lia|].
        intros [|g] big; [lia|]. cbn [parse_value]. rewrite sk, e1, e2, e3, e4, e5.
        reflexivity. }
      destruct (String.prefix "null" (String c r0)) eqn:e6.
      { injection parsed as <- <-.
        pose proof (slice_from_length 4 (String c r0)) as cut.
        cbn [String.length slice_from] in cut.
        split; [lia|].
        intros [|g] big; [lia|]. cbn [parse_value].
        rewrite sk, e1, e2, e3, e4, e5, e6. reflexivity. }
      pose proof (@parse_number_length _ _ _ parsed) as cut.
      cbn [String.length] in cut.
      split; [lia|].
      intros [|g] big; [lia|]. cbn [parse_value].
      rewrite sk, e1, e2, e3, e4, e5, e6. exact parsed.
    + intros s acc v r parsed. cbn [parse_members] in parsed.
      destruct (skip_ws s) as [|c r0] eqn:sk; [discriminate|]. ws_bound sk.
      destruct (Ascii.eqb c dq) eqn:e1; [|discriminate].
      destruct (parse_chars r0) as [[k r1]|] eqn:pc; [|discriminate].
      pose proof (@parse_chars_length _ _ _ _ (le_n _) pc) as key.
      destruct (skip_ws r1) as [|c2 r2] eqn:sk1; [discriminate|]. ws_bound sk1.
      destruct (Ascii.eqb c2 ":") eqn:e2; [|discriminate].
      destruct (parse_value f r2) as [[v0 r3]|] eqn:pv; [|discriminate].
      destruct (IHv _ _ _ pv) as [lenv morev].
      destruct (skip_ws r3) as [|c4 r4] eqn:sk3; [discriminate|]. ws_bound sk3.
      destruct (Ascii.eqb c4 ",") eqn:e4.
      * destruct (IHm _ _ _ _ parsed) as [len more].
        split; [lia|].
        intros [|g] big; [lia|]. cbn [parse_members].
        rewrite sk, e1, pc, sk1, e2, (morev g) by lia.
        rewrite sk3, e4. apply more. lia.
      * destruct (Ascii.eqb c4 "}") eqn:e5; [|discriminate].
        injection parsed as <- <-.
        split; [lia|].
        intros [|g] big; [lia|]. cbn [parse_members].
        rewrite sk, e1, pc, sk1, e2, (morev g) by lia.
        rewrite sk3, e4, e5. reflexivity.
    + intros s acc v r parsed. cbn [parse_elements] in parsed.
      destruct (parse_value f s) as [[v0 r1]|] eqn:pv; [|discriminate].
      destruct (IHv _ _ _ pv) as [lenv morev].
      destruct (skip_ws r1) as [|c2 r2] eqn:sk1; [discriminate|]. ws_bound sk1.
      destruct (Ascii.eqb c2 ",") eqn:e2.
      * destruct (IHe _ _ _ _ parsed) as [len more].
        split; [lia|].
        intros [|g] big; [lia|]. cbn [parse_elements].
        rewrite (morev g) by lia.
        rewrite sk1, e2. apply more. lia.
      * destruct (Ascii.eqb c2 "]") eqn:e3; [|discriminate].
        injection parsed as <- <-.
        split; [lia|].
        intros [|g] big; [lia|]. cbn [parse_elements].
        rewrite (morev g) by lia.
        rewrite sk1, e2, e3. reflexivity.
Qed.

(** Whatever fuel parses a value out of a text, the fuel [parse_json]
    gives parses the same value out of it. *)
Lemma parse_value_fuel (f : nat) (s : string) (v : json) (rest : string) :
  parse_value f s = Some (v, rest) ->
  parse_value (S (String.length s)) s = Some (v, rest).
Proof.
  intros parsed. destruct (parse_fuel f) as [enough _].
  destruct (enough s v rest parsed) as [_ more]. apply more. lia.
Qed.

Lemma parse_json_fuel (f : nat) (s : string) (v : json) (rest : string) :
  parse_value f s = Some (v, rest) -> skip_ws rest = "" ->
  parse_json s = Some v.
Proof.
  intros parsed ended. unfold parse_json.
  rewrite (@parse_value_fuel f s v rest parsed), ended. reflexivity.
Qed.

(** ** Path normalisation *)

Lemma fixPath_of_prefixed (p : string) :
  startsWith "v1/" p = true -> fixPath (Some (JStr p)) = Ok (Some (JStr p)).
Proof.
  intros has. unfold fixPath. simpl truthy.
  destruct (p =? ""); simpl; [reflexivity|].
  rewrite has. reflexivity.
Qed.

Lemma fixPath_of_bare (p : string) :
  startsWith "v1/" p = false -> p <> "" ->
  fixPath (Some (JStr p)) = Ok (Some (JStr ("v1/" ++ p))).
Proof.
  intros lacks ne. unfold fixPath. simpl truthy.
  rewrite (eqb_empty_false ne). simpl. rewrite lacks. reflexivity.
Qed.

(** C7, as the code has it.  [fixPath] is idempotent on every path string;
    a path that starts with [v1/] is returned as it is; a path that is not
    empty and lacks the prefix gains it once (and the result, carrying it,
    is left alone by a second application); the empty path is returned as
    it is. *)
Theorem fixPath_idempotent_prefix_once :
  forall p : string,
    (exists r : string,
        fixPath (Some (JStr p)) = Ok (Some (JStr r)) /\
        fixPath (Some (JStr r)) = Ok (Some (JStr r))) /\
    (startsWith "v1/" p = true -> fixPath (Some (JStr p)) = Ok (Some (JStr p))) /\
    (startsWith "v1/" p = false -> p <> "" ->
     fixPath (Some (JStr p)) = Ok (Some (JStr ("v1/" ++ p))) /\
     fixPath (Some (JStr ("v1/" ++ p))) = Ok (Some (JStr ("v1/" ++ p)))) /\
    fixPath (Some (JStr "")) = Ok (Some (JStr "")).
Proof.
  intros p. repeat split.
  - destruct (String.eqb_spec p "") as [-> | ne].
    + exists "". split; reflexivity.
    + destruct (startsWith "v1/" p) eqn:has.
      * exists p. split; apply fixPath_of_prefixed; exact has.
      * exists ("v1/" ++ p). split.
        -- apply fixPath_of_bare; assumption.
        -- apply fixPath_of_prefixed, startsWith_own_prefix.
  - apply fixPath_of_prefixed.
  - apply fixPath_of_bare; assumption.
  - apply fixPath_of_prefixed, startsWith_own_prefix.
Qed.

(** C7 at work on the path of the hosts, with the prefix and without. *)
Lemma fixPath_on_hosts :
  fixPath (Some (JStr "v1/hosts")) = Ok (Some (JStr "v1/hosts")) /\
  fixPath (Some (JStr "hosts")) = Ok (Some (JStr ("v1/" ++ "hosts"))) /\
  fixPath (Some (JStr ("v1/" ++ "hosts"))) = Ok (Some (JStr ("v1/" ++ "hosts"))).
Proof.
  destruct (fixPath_idempotent_prefix_once "v1/hosts") as [_ [kept _]].
  destruct (fixPath_idempotent_prefix_once "hosts") as [_ [_ [gains _]]].
  split; [apply kept; reflexivity|].
  apply gains; [reflexivity | discriminate].
Defined.

(** C7 as stated fails at the empty path: it lacks the prefix and does not
    gain it. *)
Lemma fixPath_empty_path_gains_no_prefix :
  startsWith "v1/" "" = false /\
  fixPath (Some (JStr "")) = Ok (Some (JStr "")) /\
  fixPath (Some (JStr "")) <> Ok (Some (JStr ("v1/" ++ ""))).
Proof.
  repeat split; discriminate.
Qed.

(** ** The resource client *)

Section ClientFacts.

Variable rt : runtime.
Variable srv : server.

Lemma login_path_is_login : includes "/accounts/login" "/v1/accounts/login" = true.
Proof. reflexivity. Qed.

(** [login] posts to a path that [_rawPost] sends without the wrapper:
    whatever wrapper [_rawPost] was given, [login] is the same. *)
Lemma login_never_retries (wr wr' : M json -> M json) :
  login_with rt (rawPost_with rt srv wr) = login_with rt (rawPost_with rt srv wr').
Proof. reflexivity. Qed.

(** One level of the cycle through [login] is as good as any number. *)
Lemma retry_depth_irrelevant (d : nat) (f : M json) :
  _withRetry rt srv (S d) f = retry rt srv f.
Proof. reflexivity. Qed.

Lemma login_request_is_login_post (c c' : ZStackClient) (a p : string) :
  endpoint c' = endpoint c -> is_login_post c (login_request rt c' a p).
Proof.
  intros same. split; [reflexivity|].
  cbn. rewrite same. reflexivity.
Qed.

(** What [login] does, by the answer to its one request. *)
Lemma login_run (wr : M json -> M json) (a p : string) (w : world) :
  let c1 := set_credentials a p (cli w) in
  let l := login_request rt (cli w) a p in
  let w1 := {| cli := c1; log := log w ++ [l] |} in
  login_with rt (rawPost_with rt srv wr) a p w =
  match handled rt (srv (log w) l) with
  | Throw e => (Throw e, w1)
  | Ok res =>
      match prop (Some res) "inventory" with
      | Throw e => (Throw e, w1)
      | Ok inv =>
          (if negb (truthy (prop_opt inv "uuid"))
           then Throw (Error "登录失败：未获取到 session")
           else Ok res,
           {| cli := set_sessionId (prop_opt inv "uuid") c1; log := log w ++ [l] |})
      end
  end.
Proof.
  cbv beta zeta delta [login_with rawPost_with bind assign lift throw ret do_request
                         login_request].
  rewrite login_path_is_login. cbn [cli log].
  match goal with |- context [handled rt ?x] => destruct (handled rt x) as [res|e] end;
    [|reflexivity].
  destruct (prop (Some res) "inventory") as [inv|e]; [|reflexivity].
  destruct (truthy (prop_opt inv "uuid")); reflexivity.
Qed.

(** What [_relogin] does.  It never throws; it refuses without a request
    while the flag is set or without credentials; otherwise it sends one
    login request, and says whether that gave a session. *)
Lemma relogin_run (w : world) :
  let c := cli w in
  _relogin rt srv w =
  if (_relogging c || negb (has_credentials c))%bool then (Ok false, w)
  else
    let l := relogin_request rt c in
    let c1 := set_credentials (cached_account c) (cached_password c)
                (set_sessionId (Some JNull) (set_relogging true c)) in
    let log1 := (log w ++ [l])%list in
    match handled rt (srv (log w) l) with
    | Throw e => (Ok false, {| cli := set_relogging false c1; log := log1 |})
    | Ok res =>
        match prop (Some res) "inventory" with
        | Throw e => (Ok false, {| cli := set_relogging false c1; log := log1 |})
        | Ok inv =>
            (Ok (truthy (prop_opt inv "uuid")),
             {| cli := set_relogging false (set_sessionId (prop_opt inv "uuid") c1);
                log := log1 |})
        end
    end.
Proof.
  intros c. unfold _relogin, login, _rawPost, relogin_with.
  cbv beta zeta delta [bind this]. fold c.
  unfold has_credentials.
  destruct (_relogging c); [reflexivity|]. cbn [orb].
  destruct (_accountName c) as [a|] eqn:Ea; cbn [negb orb andb]; [|reflexivity].
  destruct (a =? "") eqn:Ea0; cbn [negb orb andb]; [reflexivity|].
  destruct (_password c) as [p|] eqn:Ep; cbn [negb orb andb]; [|reflexivity].
  destruct (p =? "") eqn:Ep0; cbn [negb orb andb]; [reflexivity|].
  cbv beta zeta delta [finally try_catch bind assign ret].
  cbn [cli log].
  rewrite login_run. cbn [cli log].
  unfold relogin_request, cached_account, cached_password. rewrite Ea, Ep.
  fold c.
  match goal with |- context [handled rt ?x] => destruct (handled rt x) as [res|e] end;
    [|reflexivity].
  destruct (prop (Some res) "inventory") as [inv|e]; [|reflexivity].
  destruct (truthy (prop_opt inv "uuid")); reflexivity.
Qed.

(** What [_withRetry] does with a request closure. *)
Lemma retry_run (f : M json) (w : world) :
  retry rt srv f w =
  match f w with
  | (Ok v, w1) => (Ok v, w1)
  | (Throw e, w1) =>
      if (isExpiry e && negb (_relogging (cli w1)))%bool then
        match _relogin rt srv w1 with
        | (Ok true, w2) => f w2
        | (Ok false, w2) => (Throw e, w2)
        | (Throw e', w2) => (Throw e', w2)
        end
      else (Throw e, w1)
  end.
Proof.
  unfold retry, _withRetry. cbv beta delta [try_catch bind this throw].
  destruct (f w) as [[v|e] w1]; [reflexivity|].
  destruct (isExpiry e && negb (_relogging (cli w1)))%bool; [|reflexivity].
  change (relogin_with (login_with rt (rawPost_with rt srv _)))
    with (_relogin rt srv).
  destruct (_relogin rt srv w1) as [[[|]|e'] w2]; reflexivity.
Qed.

Lemma relogin_never_throws (w : world) :
  exists ok, fst (_relogin rt srv w) = Ok ok.
Proof.
  rewrite relogin_run. cbv zeta.
  repeat match goal with
         | |- context [if ?b then _ else _] => destruct b
         | |- context [match ?x with _ => _ end] => destruct x
         end; eexists; reflexivity.
Qed.

(** A re-login leaves the log as it is or adds one login request, and
    never changes the endpoint or the credentials. *)
Lemma relogin_trace (w : world) :
  let w' := snd (_relogin rt srv w) in
  endpoint (cli w') = endpoint (cli w) /\
  (log w' = log w \/
   exists l, log w' = (log w ++ [l])%list /\ is_login_post (cli w) l).
Proof.
  rewrite relogin_run. cbv zeta.
  destruct (_relogging (cli w) || negb (has_credentials (cli w)))%bool;
    [split; [reflexivity | left; reflexivity]|].
  assert (is_login_post (cli w) (relogin_request rt (cli w)))
    by (apply login_request_is_login_post; reflexivity).
  repeat match goal with
         | |- context [truthy ?x] => destruct (truthy x)
         | |- context [match ?x with _ => _ end] => destruct x
         end; (split; [reflexivity | right; eexists; split; [reflexivity | assumption]]).
Qed.

(** The requests of a wrapped request closure: the request alone, the
    request and one login, or the request, one login and the request
    again. *)
Lemma retry_trace (m path : string) (body : option jsval) (w : world) :
  exists extra,
    log (snd (retry rt srv (do_request rt srv m path body) w)) = (log w ++ extra)%list /\
    verb_trace (cli w) extra /\ extra <> [].
Proof.
  rewrite retry_run. unfold do_request at 1. cbv zeta.
  set (r := request_of (cli w) m path body).
  destruct (handled rt (srv (log w) r)) as [v|e].
  { exists [r]. repeat split; [constructor | discriminate]. }
  cbn [cli log].
  destruct (isExpiry e && negb (_relogging (cli w)))%bool.
  2:{ exists [r]. repeat split; [constructor | discriminate]. }
  set (w1 := {| cli := cli w; log := (log w ++ [r])%list |}).
  destruct (relogin_trace w1) as [same_ep grows].
  destruct (relogin_never_throws w1) as [ok is_ok].
  destruct (_relogin rt srv w1) as [[ok'|e'] w2] eqn:ran; [|discriminate].
  cbn [snd fst] in *. unfold w1 in same_ep, grows. cbn [cli log] in same_ep, grows.
  destruct grows as [same | [l [added is_login]]].
  - (* the re-login was refused: no request *)
    destruct ok'.
    + unfold do_request. cbn [snd log]. rewrite same.
      exists [r; request_of (cli w2) m path body]. split.
      * rewrite <- app_assoc. reflexivity.
      * exfalso.
        (* a refused re-login answers [false] *)
        clear - ran same. subst w1.
        revert ran. rewrite relogin_run. cbv zeta. cbn [cli log].
        destruct (_relogging (cli w) || negb (has_credentials (cli w)))%bool;
          [intros H; inversion H |].
        repeat match goal with
               | |- context [match ?x with _ => _ end] => destruct x
               end;
          intros H; inversion H; subst w2; cbn [log] in same;
          apply (f_equal (@List.length request)) in same;
          rewrite !length_app in same; cbn in same; lia.
    + exists [r]. cbn [snd log]. rewrite same.
      repeat split; [constructor | discriminate].
  - destruct ok'.
    + unfold do_request. cbn [snd log]. rewrite added.
      exists [r; l; request_of (cli w2) m path body]. split; [|split].
      * rewrite <- !app_assoc. reflexivity.
      * apply retried_once; [exact is_login|].
        unfold same_request, r, request_of. cbn. rewrite same_ep. auto.
      * discriminate.
    + cbn [snd log]. rewrite added.
      exists [r; l]. split; [|split].
      * rewrite <- app_assoc. reflexivity.
      * apply login_failed. exact is_login.
      * discriminate.
Qed.

Lemma handle_ok (status : Z) (text : string) (d : json) :
  res_ok status = true -> parse_json text = Some d ->
  _handleResponse rt status text = Ok d.
Proof.
  intros ok parsed. unfold _handleResponse, JSON_parse.
  rewrite parsed, ok. reflexivity.
Qed.

Lemma handle_session_expired :
  _handleResponse rt 401 (q "{'error':{'details':'session expired'}}")
  = Throw (Error "session expired").
Proof.
  unfold _handleResponse, JSON_parse.
  replace (parse_json (q "{'error':{'details':'session expired'}}"))
    with (Some (JObj [("error", JObj [("details", JStr "session expired")])]))
    by (vm_compute; reflexivity).
  reflexivity.
Qed.

Lemma has_credentials_cached (c : ZStackClient) :
  has_credentials c = true ->
  _accountName c = Some (cached_account c) /\ _password c = Some (cached_password c).
Proof.
  unfold has_credentials, cached_account, cached_password.
  destruct (_accountName c), (_password c); cbn; intros H;
    try discriminate; try (rewrite andb_false_r in H; discriminate); auto.
Qed.

(** The session-expiry scenario, for any wrapped request: the first answer
    is the 401, the login that follows gives a session, and the request is
    sent once more under it. *)
Lemma retry_after_expiry (m path : string) (body : option jsval) (w : world)
    (res inv : json) (sid : json) :
  let c := cli w in
  let r1 := request_of c m path body in
  let l := relogin_request rt c in
  let r2 := request_of (set_sessionId (Some sid) c) m path body in
  _relogging c = false ->
  has_credentials c = true ->
  srv (log w) r1 = Responds 401 (q "{'error':{'details':'session expired'}}") ->
  handled rt (srv (log w ++ [r1])%list l) = Ok res ->
  prop (Some res) "inventory" = Ok (Some inv) ->
  prop_opt (Some inv) "uuid" = Some sid ->
  truthy (Some sid) = true ->
  retry rt srv (do_request rt srv m path body) w =
  (handled rt (srv (log w ++ [r1; l])%list r2),
   {| cli := set_sessionId (Some sid) c; log := (log w ++ [r1; l; r2])%list |}).
Proof.
  intros c r1 l r2 not_relogging creds first login_answer has_inv has_uuid good.
  rewrite retry_run. unfold do_request at 1. cbv zeta. fold c r1.
  rewrite first. cbn [handled]. rewrite handle_session_expired.
  cbn [cli]. fold c. rewrite not_relogging.
  replace (isExpiry (Error "session expired")) with true by reflexivity.
  cbn [andb negb].
  rewrite relogin_run. cbv zeta. cbn [cli log]. fold c.
  rewrite not_relogging, creds. cbn [orb negb]. fold l.
  rewrite login_answer, has_inv, has_uuid, good.
  unfold do_request. cbn [cli log].
  destruct (has_credentials_cached c creds) as [acc pw].
  assert (same : set_relogging false
                   (set_sessionId (Some sid)
                      (set_credentials (cached_account c) (cached_password c)
                         (set_sessionId (Some JNull) (set_relogging true c))))
                 = set_sessionId (Some sid) c).
  { unfold set_relogging, set_sessionId, set_credentials. cbn.
    rewrite <- acc, <- pw, <- not_relogging. reflexivity. }
  rewrite same. fold r2. rewrite <- !app_assoc. reflexivity.
Qed.

(** When the re-login fails, the caller gets the error of the first
    attempt. *)
Lemma retry_surfaces_original_error (f : M json) (w w1 : world) (e : js_error) :
  f w = (Throw e, w1) ->
  fst (_relogin rt srv w1) = Ok false ->
  fst (retry rt srv f w) = Throw e.
Proof.
  intros first failed. rewrite retry_run, first.
  destruct (isExpiry e && negb (_relogging (cli w1)))%bool; [|reflexivity].
  destruct (_relogin rt srv w1) as [[[|]|e'] w2]; cbn in failed;
    try discriminate; reflexivity.
Qed.

End ClientFacts.

(** C3.  For every request the client wraps in [_withRetry]:
    - if its first answer is HTTP 401 with body
      [{"error":{"details":"session expired"}}], the client holds
      credentials and no re-login is running, and the login that follows
      gives a session, then the same request is sent once more, under the
      new session, and its answer is the call's result (so a success is
      returned); the requests made are the request, one login, the
      request;
    - whatever the server does, a call makes the request once, or the
      request and one login, or the request, one login and the request
      again;
    - if the first attempt throws and the re-login answers [false], the
      call throws the error of the first attempt. *)
Theorem session_expiry_retried_once :
  forall (rt : runtime) (srv : server) (m path : string) (body : option jsval)
         (w : world),
    let c := cli w in
    let call := retry rt srv (do_request rt srv m path body) in
    let r1 := request_of c m path body in
    let l := relogin_request rt c in
    (forall (res inv sid d : json) (status : Z) (text : string),
        let r2 := request_of (set_sessionId (Some sid) c) m path body in
        _relogging c = false ->
        has_credentials c = true ->
        srv (log w) r1 = Responds 401 (q "{'error':{'details':'session expired'}}") ->
        handled rt (srv (log w ++ [r1])%list l) = Ok res ->
        prop (Some res) "inventory" = Ok (Some inv) ->
        prop_opt (Some inv) "uuid" = Some sid ->
        truthy (Some sid) = true ->
        srv (log w ++ [r1; l])%list r2 = Responds status text ->
        res_ok status = true ->
        parse_json text = Some d ->
        call w = (Ok d, {| cli := set_sessionId (Some sid) c;
                           log := (log w ++ [r1; l; r2])%list |}) /\
        is_login_post c l /\ same_request r1 r2) /\
    (exists extra,
        log (snd (call w)) = (log w ++ extra)%list /\
        verb_trace c extra /\ extra <> []) /\
    (forall (e : js_error) (w1 : world),
        do_request rt srv m path body w = (Throw e, w1) ->
        fst (_relogin rt srv w1) = Ok false ->
        fst (call w) = Throw e).
Proof.
  intros rt srv m path body w c call r1 l. split; [|split].
  - intros res inv sid d status text r2 H1 H2 H3 H4 H5 H6 H7 H8 H9 H10.
    split; [|split].
    + unfold call.
      rewrite (retry_after_expiry rt srv m path body w H1 H2 H3 H4 H5 H6 H7).
      fold c r1 l r2. rewrite H8. cbn [handled].
      rewrite (handle_ok rt status text H9 H10). reflexivity.
    + apply login_request_is_login_post. reflexivity.
    + unfold same_request, r1, r2, request_of. cbn. auto.
  - apply retry_trace.
  - intros e w1 first failed.
    apply (retry_surfaces_original_error rt srv _ w first failed).
Qed.

(** The scenario of C3 on the call [query("vm-instances", [], 5, 0)]: the
    server answers 401, then the login, then the list. *)
Lemma session_expiry_scenario :
  query example_runtime
    (scripted [Responds 401 (q "{'error':{'details':'session expired'}}");
               Responds 200 (q "{'inventory':{'uuid':'s2'}}")]
              (Responds 200 (q "{'inventories':[{'uuid':'x'}]}")))
    (Some (JStr "vm-instances")) (Some (JArr [])) (Some (JInt 5)) (Some (JInt 0))
    None None fresh_world
  = (Ok (JObj [("inventories", JArr [JObj [("uuid", JStr "x")]])]),
     {| cli := set_sessionId (Some (JStr "s2")) logged_in_client;
        log := [request_of logged_in_client "GET" "/vm-instances?limit=5" None;
                relogin_request example_runtime logged_in_client;
                request_of (set_sessionId (Some (JStr "s2")) logged_in_client)
                           "GET" "/vm-instances?limit=5" None] |}).
Proof.
  apply (proj1 (proj1 (session_expiry_retried_once example_runtime
                         (scripted [Responds 401 (q "{'error':{'details':'session expired'}}");
                                    Responds 200 (q "{'inventory':{'uuid':'s2'}}")]
                                   (Responds 200 (q "{'inventories':[{'uuid':'x'}]}")))
                         "GET" "/vm-instances?limit=5" None fresh_world)
                      (JObj [("inventory", JObj [("uuid", JStr "s2")])])
                      (JObj [("uuid", JStr "s2")])
                      (JStr "s2")
                      (JObj [("inventories", JArr [JObj [("uuid", JStr "x")]])])
                      200%Z (q "{'inventories':[{'uuid':'x'}]}")
                      eq_refl eq_refl eq_refl eq_refl eq_refl eq_refl eq_refl
                      eq_refl eq_refl eq_refl)).
Defined.

(** ** [get] and the two envelopes *)

Lemma normalize_collection_of_one (e : json) :
  normalize_inventory (JObj [("inventories", JArr [e])])
  = Ok (JObj [("inventories", JArr [e]); ("inventory", e)]).
Proof. reflexivity. Qed.

Lemma normalize_single (e : json) :
  normalize_inventory (JObj [("inventory", e)]) = Ok (JObj [("inventory", e)]).
Proof.
  unfold normalize_inventory. cbn.
  rewrite andb_false_r. reflexivity.
Qed.

Lemma get_of_success (rt : runtime) (srv : server) (resourcePath uuid : jsval)
    (w : world) (status : Z) (text : string) (d : json) :
  let r := request_of (cli w) "GET"
             ("/" ++ to_string resourcePath ++ "/" ++ to_string uuid) None in
  srv (log w) r = Responds status text ->
  res_ok status = true ->
  parse_json text = Some d ->
  get rt srv resourcePath uuid w
  = (normalize_inventory d, {| cli := cli w; log := (log w ++ [r])%list |}).
Proof.
  intros r answer ok parsed.
  unfold get, _get. cbv beta delta [bind lift].
  rewrite retry_run. unfold do_request. cbv zeta. fold r.
  rewrite answer. cbn [handled]. rewrite (handle_ok rt status text ok parsed).
  reflexivity.
Qed.

(** C8.  Whatever entity is asked for, on a server that answers
    [{"inventories":[{"uuid":"x"}]}] and on one that answers
    [{"inventory":{"uuid":"x"}}], [get] returns a value whose [inventory]
    field is the entity [{"uuid":"x"}] (the first keeps [inventories]
    beside it).  The same holds of any entity [e] in place of
    [{"uuid":"x"}], once the answer is parsed. *)
Theorem get_normalizes_both_envelopes :
  forall (rt : runtime) (w : world) (resourcePath uuid : jsval),
    let entity := JObj [("uuid", JStr "x")] in
    let wrapped := always (Responds 200 (q "{'inventories':[{'uuid':'x'}]}")) in
    let single := always (Responds 200 (q "{'inventory':{'uuid':'x'}}")) in
    fst (get rt wrapped resourcePath uuid w)
      = Ok (JObj [("inventories", JArr [entity]); ("inventory", entity)]) /\
    fst (get rt single resourcePath uuid w) = Ok (JObj [("inventory", entity)]) /\
    (exists d1 d2,
        fst (get rt wrapped resourcePath uuid w) = Ok d1 /\
        fst (get rt single resourcePath uuid w) = Ok d2 /\
        prop (Some d1) "inventory" = Ok (Some entity) /\
        prop (Some d2) "inventory" = Ok (Some entity)) /\
    (forall e : json,
        (exists d, normalize_inventory (JObj [("inventories", JArr [e])]) = Ok d /\
                   prop (Some d) "inventory" = Ok (Some e)) /\
        (exists d, normalize_inventory (JObj [("inventory", e)]) = Ok d /\
                   prop (Some d) "inventory" = Ok (Some e))).
Proof.
  intros rt w resourcePath uuid entity wrapped single.
  assert (G1 : fst (get rt wrapped resourcePath uuid w)
               = Ok (JObj [("inventories", JArr [entity]); ("inventory", entity)])).
  { rewrite (@get_of_success rt wrapped resourcePath uuid w 200
               (q "{'inventories':[{'uuid':'x'}]}")
               (JObj [("inventories", JArr [entity])]));
      reflexivity. }
  assert (G2 : fst (get rt single resourcePath uuid w)
               = Ok (JObj [("inventory", entity)])).
  { rewrite (@get_of_success rt single resourcePath uuid w 200
               (q "{'inventory':{'uuid':'x'}}")
               (JObj [("inventory", entity)]));
      reflexivity. }
  split; [exact G1 | split; [exact G2 | split]].
  - eexists; eexists.
    split; [exact G1|]. split; [exact G2|]. split; reflexivity.
  - intros e. split.
    + eexists. split; [apply normalize_collection_of_one | reflexivity].
    + eexists. split; [apply normalize_single | reflexivity].
Qed.

(** ** Re-authentication does not cascade *)

Section ClientTraces.

Variable rt : runtime.
Variable srv : server.

Lemma wrapped_adds (m path : string) (body : option jsval) :
  adds_verb_trace (retry rt srv (do_request rt srv m path body)).
Proof.
  intros w. destruct (retry_trace rt srv m path body w) as [extra [H1 [H2 _]]].
  exists extra. split; assumption.
Qed.

Lemma rawPost_adds (path : string) (body : jsval) :
  adds_verb_trace (_rawPost rt srv path body).
Proof.
  unfold _rawPost, rawPost_with.
  destruct (includes "/accounts/login" path).
  - intros w. eexists. split; [reflexivity | constructor].
  - apply wrapped_adds.
Qed.

Lemma lift_then_adds {A} (r : result A) (k : A -> M json) :
  (forall a, adds_verb_trace (k a)) -> adds_verb_trace (bind (lift r) k).
Proof.
  intros Hk w. unfold bind, lift. destruct r as [a|e].
  - apply Hk.
  - exists []. split; [cbn; rewrite app_nil_r; reflexivity | constructor].
Qed.

Lemma adds_then_lift (m : M json) (k : json -> result json) :
  adds_verb_trace m -> adds_verb_trace (bind m (fun d => lift (k d))).
Proof.
  intros Hm w. destruct (Hm w) as [extra [H1 H2]].
  exists extra. split; [|exact H2].
  unfold bind, lift. destruct (m w) as [[d|e] w']; exact H1.
Qed.

Lemma query_adds (p cs l s sb sd : jsval) : adds_verb_trace (query rt srv p cs l s sb sd).
Proof.
  unfold query. apply lift_then_adds. intros a. apply wrapped_adds.
Qed.

Lemma action_adds (p u b : jsval) : adds_verb_trace (action rt srv p u b).
Proof. apply wrapped_adds. Qed.

Lemma remove_adds (p u m : jsval) : adds_verb_trace (remove rt srv p u m).
Proof. apply wrapped_adds. Qed.

Lemma invoke_adds (call : client_call) : adds_verb_trace (invoke rt srv call).
Proof.
  destruct call; cbn [invoke].
  - apply query_adds.
  - unfold get. apply adds_then_lift. apply wrapped_adds.
  - apply rawPost_adds.
  - apply remove_adds.
  - apply action_adds.
  - apply wrapped_adds.
  - apply wrapped_adds.
  - apply query_adds.
  - apply rawPost_adds.
  - apply action_adds.
  - apply action_adds.
  - apply action_adds.
  - apply remove_adds.
  - apply action_adds.
Qed.

End ClientTraces.

(** C10.  Against any server:
    - [_rawPost] on a path that contains [/accounts/login] is the bare
      request, given any wrapper: one request, no re-login;
    - while [_relogging] is set, [_relogin] answers [false] at once, with
      no request and no change, and a wrapped request that fails is not
      followed by a login;
    - [login], and so [_relogin], is the same whatever wrapper [_rawPost]
      would use: the cycle [_withRetry], [_relogin], [login], [_rawPost]
      is never entered a second time;
    - every call of a client method makes no request, or its request once,
      or its request and one login, or its request, one login and its
      request again. *)
Theorem reauthentication_never_cascades :
  forall (rt : runtime) (srv : server),
    (forall (wr : M json -> M json) (path : string) (body : jsval) (w : world),
        includes "/accounts/login" path = true ->
        rawPost_with rt srv wr path body w
        = (handled rt (srv (log w) (request_of (cli w) "POST" path (Some body))),
           {| cli := cli w;
              log := (log w ++ [request_of (cli w) "POST" path (Some body)])%list |})) /\
    (forall w : world,
        _relogging (cli w) = true ->
        _relogin rt srv w = (Ok false, w) /\
        forall (m path : string) (body : option jsval),
          log (snd (retry rt srv (do_request rt srv m path body) w))
          = (log w ++ [request_of (cli w) m path body])%list) /\
    (forall (d : nat) (f : M json), _withRetry rt srv (S d) f = retry rt srv f) /\
    (forall (call : client_call) (w : world),
        exists extra,
          log (snd (invoke rt srv call w)) = (log w ++ extra)%list /\
          verb_trace (cli w) extra).
Proof.
  intros rt srv. split; [|split; [|split]].
  - intros wr path body w is_login. unfold rawPost_with. rewrite is_login.
    reflexivity.
  - intros w flag. split.
    + rewrite relogin_run. cbv zeta. rewrite flag. reflexivity.
    + intros m path body. rewrite retry_run. unfold do_request. cbv zeta.
      destruct (handled rt (srv (log w) (request_of (cli w) m path body)));
        [reflexivity|].
      cbn [cli]. rewrite flag, andb_false_r. reflexivity.
  - intros d f. apply retry_depth_irrelevant.
  - intros call w. apply invoke_adds.
Qed.

(** C10 at work: the login request goes out bare, and a client in the
    middle of a re-login neither logs in again nor follows a failed
    request with a login. *)
Lemma relogging_client_example :
  rawPost_with example_runtime example_server
               (retry example_runtime example_server)
               "/v1/accounts/login" (Some (JObj [])) fresh_world
  = (handled example_runtime
       (example_server []
          (request_of logged_in_client "POST" "/v1/accounts/login"
                      (Some (Some (JObj []))))),
     {| cli := logged_in_client;
        log := ([] ++ [request_of logged_in_client "POST" "/v1/accounts/login"
                                  (Some (Some (JObj [])))])%list |}) /\
  _relogin example_runtime example_server relogging_world
  = (Ok false, relogging_world) /\
  log (snd (retry example_runtime example_server
              (do_request example_runtime example_server "GET" "/v1/boom" None)
              relogging_world))
  = ([] ++ [request_of (cli relogging_world) "GET" "/v1/boom" None])%list.
Proof.
  destruct (reauthentication_never_cascades example_runtime example_server)
    as [bare [flagged _]].
  split.
  - apply (bare _ "/v1/accounts/login" (Some (JObj [])) fresh_world). reflexivity.
  - destruct (flagged relogging_world eq_refl) as [refused quiet].
    split; [exact refused | apply quiet].
Defined.

(** ** [Promise.all] keeps the order of the promises *)

Section PromiseAll.

Context {A : Type}.

Lemma store_comm (i j : nat) (a b : A) (s : sparse A) :
  i <> j -> store i a (store j b s) = store j b (store i a s).
Proof.
  revert j s. induction i as [|i IH]; intros [|j] s ne; try contradiction.
  - destruct s; reflexivity.
  - destruct s; reflexivity.
  - destruct s as [|x r]; cbn; f_equal; apply IH; congruence.
Qed.

Lemma store_all_remove (pending : list (nat * A)) :
  forall (k i : nat) (v : A) (s : sparse A),
    NoDup (map fst pending) ->
    nth_error pending k = Some (i, v) ->
    store_all (remove_nth k pending) (store i v s) = store_all pending s.
Proof.
  induction pending as [|[i0 v0] rest IH]; intros k i v s nodup found.
  - destruct k; discriminate.
  - destruct k as [|k]; cbn in found.
    + inversion found; subst. reflexivity.
    + cbn [remove_nth store_all fold_left fst snd].
      inversion nodup as [|? ? fresh nodup']; subst.
      assert (i <> i0).
      { intros ->. apply fresh.
        apply nth_error_In in found.
        apply (in_map fst) in found. exact found. }
      rewrite store_comm by congruence.
      apply IH; assumption.
Qed.

Lemma remove_nth_length (k : nat) (l : list (nat * A)) :
  k < List.length l -> List.length (remove_nth k l) = pred (List.length l).
Proof.
  revert k. induction l as [|x l IH]; intros [|k] lt; cbn in *; try lia.
  rewrite IH by lia. destruct l; cbn in *; lia.
Qed.

Lemma remove_nth_incl (k : nat) (l : list (nat * A)) (x : nat) :
  In x (map fst (remove_nth k l)) -> In x (map fst l).
Proof.
  revert k. induction l as [|y l IH]; intros [|k]; cbn; auto.
  intros [eq|rest]; [left; exact eq | right; apply (IH k rest)].
Qed.

Lemma remove_nth_NoDup (k : nat) (l : list (nat * A)) :
  NoDup (map fst l) -> NoDup (map fst (remove_nth k l)).
Proof.
  revert k. induction l as [|y l IH]; intros [|k] nodup; cbn in *; auto.
  - inversion nodup; assumption.
  - inversion nodup as [|? ? fresh nodup']; subst. constructor.
    + intros inside. apply fresh. apply (remove_nth_incl k l _ inside).
    + apply IH; assumption.
Qed.

(** In whatever order the promises settle, the slots end as if they had
    settled in the order they were given. *)
Lemma settle_is_store_all (pick : nat -> nat) (n : nat) :
  forall (pending : list (nat * A)) (s : sparse A),
    NoDup (map fst pending) ->
    List.length pending <= n ->
    settle n pick pending s = store_all pending s.
Proof.
  induction n as [|n IH]; intros pending s nodup short.
  - destruct pending; [reflexivity | cbn in short; lia].
  - destruct pending as [|p rest]; [reflexivity|].
    cbn [settle].
    set (k := pick n mod List.length (p :: rest)).
    assert (inside : k < List.length (p :: rest))
      by (apply Nat.mod_upper_bound; discriminate).
    destruct (nth_error (p :: rest) k) as [[i v]|] eqn:found.
    + rewrite IH.
      * apply store_all_remove; assumption.
      * apply remove_nth_NoDup; assumption.
      * rewrite remove_nth_length by assumption. cbn in *; lia.
    + apply nth_error_None in found. lia.
Qed.

Lemma store_at_end (pre : list A) (v : A) :
  store (List.length pre) v (map Some pre) = map Some (pre ++ [v])%list.
Proof.
  induction pre as [|x pre IH]; cbn; [reflexivity|].
  rewrite IH. reflexivity.
Qed.

Lemma store_all_in_order (vs pre : list A) :
  store_all (combine (seq (List.length pre) (List.length vs)) vs) (map Some pre)
  = map Some (pre ++ vs)%list.
Proof.
  revert pre. induction vs as [|v vs IH]; intros pre.
  - cbn. rewrite app_nil_r. reflexivity.
  - cbn [List.length seq combine].
    change (store_all ((List.length pre, v) :: ?rest) ?s)
      with (store_all rest (store (List.length pre) v s)).
    rewrite store_at_end.
    replace (S (List.length pre)) with (List.length (pre ++ [v])%list)
      by (rewrite length_app; cbn; lia).
    rewrite IH, <- app_assoc. reflexivity.
Qed.

Lemma indexed_keys (vs : list A) (start : nat) :
  map fst (combine (seq start (List.length vs)) vs) = seq start (List.length vs).
Proof.
  revert start. induction vs as [|v vs IH]; intros start; cbn; [reflexivity|].
  rewrite IH. reflexivity.
Qed.

Lemma filled_all (vs : list A) : filled (map Some vs) = Some vs.
Proof.
  induction vs as [|v vs IH]; cbn; [reflexivity|]. rewrite IH. reflexivity.
Qed.

(** [Promise.all] gives the values in the order of the promises, whatever
    the order in which they settle. *)
Lemma Promise_all_in_order (pick : nat -> nat) (vs : list A) :
  Promise_all pick vs = Some vs.
Proof.
  unfold Promise_all.
  rewrite settle_is_store_all.
  - pose proof (store_all_in_order vs []) as ordered.
    cbn [List.length map app] in ordered.
    unfold indexed. rewrite ordered.
    rewrite length_map, Nat.eqb_refl. apply filled_all.
  - unfold indexed. rewrite indexed_keys. apply seq_NoDup.
  - unfold indexed. rewrite length_combine, length_seq. lia.
Qed.

End PromiseAll.

(** ** The loop *)

Section ChatFacts.

Variable rt : runtime.
Variable env : environment.
Variable engine : LLMEngine.

(** A round in which the adapter proposes tool calls, described for
    [tool_start], goes on to the next round with the request turn and the
    results appended. *)
Lemma round_with_tools (i : nat) (msgs : list json) (evs : list event)
    (response : response) (emitted : list event) (tc : object) (tcs : list object)
    (names details : list jsval) :
  aborted_at_top env i = false ->
  (timeoutMs <? clock env (S i) - clock env 0)%Z = false ->
  call_adapter rt env engine i msgs = (Ok response, emitted) ->
  aborted_after_call env i = false ->
  toolCalls response = Some (tc :: tcs) ->
  toolNames engine (tc :: tcs) = Ok names ->
  toolDetails rt engine (tc :: tcs) = Ok details ->
  round rt env engine i msgs evs
  = Continue
      ((msgs ++ [request_turn engine response])
         ++ result_turns engine (results_in_order rt env engine i (tc :: tcs)))%list
      (((evs ++ emitted) ++ [tool_start names details (i + 1)])
         ++ [tool_done names (i + 1)])%list.
Proof.
  intros top time called after calls named detailed.
  unfold round. rewrite top, time, called, after, calls, named, detailed.
  cbn [rbind]. rewrite Promise_all_in_order. reflexivity.
Qed.


(** No round leaves [chat] pending. *)
Lemma round_never_pending (i : nat) (msgs : list json) (evs : list event) (r : run) :
  round rt env engine i msgs evs = Stop r -> ending r <> Pending.
Proof.
  unfold round, stop, chat_catch.
  destruct (aborted_at_top env i); [intros H; inversion H; discriminate|].
  destruct (timeoutMs <? clock env (S i) - clock env 0)%Z;
    [intros H; inversion H; discriminate|].
  destruct (call_adapter rt env engine i msgs) as [[resp|e] emitted].
  2:{ intros H; inversion H. cbn. destruct (err_name e =? "AbortError"); discriminate. }
  destruct (aborted_after_call env i); [intros H; inversion H; discriminate|].
  destruct (toolCalls resp) as [[|tc tcs]|]; try (intros H; inversion H; discriminate).
  destruct (toolNames engine (tc :: tcs)) as [names|e].
  2:{ intros H; inversion H. cbn. destruct (err_name e =? "AbortError"); discriminate. }
  destruct (toolDetails rt engine (tc :: tcs)) as [details|e].
  2:{ intros H; inversion H. cbn. destruct (err_name e =? "AbortError"); discriminate. }
  cbn [rbind]. rewrite Promise_all_in_order. discriminate.
Qed.




End ChatFacts.



(** ** One failing call among the calls of a round *)

Section ToolResults.

Variable rt : runtime.
Variable env : environment.
Variable engine : LLMEngine.

(** [_executeTool] catches what it meets: it always returns. *)
Lemma executeTool_never_throws (c : option client_view) (name args : jsval) :
  exists v, _executeTool c name args = Ok v.
Proof.
  unfold _executeTool.
  destruct c as [c|]; [|eexists; reflexivity].
  destruct (logged_in c); cbn [negb]; [|eexists; reflexivity].
  match goal with |- context [match ?x with _ => _ end] => destruct x end;
    eexists; reflexivity.
Qed.

Lemma executeTool_of_outcome (c : client_view) (name args : jsval) (call : client_call) :
  logged_in c = true ->
  select_call name args = Ok (Some call) ->
  _executeTool (Some c) name args
  = Ok (match answer c call with
        | Ok v => v
        | Throw e => error_object (err_message e)
        end).
Proof.
  intros inside selected. unfold _executeTool.
  rewrite inside, selected. cbn [negb rbind].
  destruct (answer c call); reflexivity.
Qed.

(** The result of a call that reaches the client: what the client
    returned, or [{ error: message }] for what it threw; serialized and
    clipped either way. *)
Lemma tool_result_of_outcome (i k : nat) (tc : object) (r : result json) :
  client_outcome rt env engine i k tc = Some r ->
  tool_result rt env engine i k tc
  = result_message engine tc
      (slice_to (truncateLimit engine)
         (JSON_stringify (match r with
                          | Ok v => v
                          | Throw e => error_object (err_message e)
                          end))).
Proof.
  unfold client_outcome, tool_result.
  destruct (call_inputs rt engine tc) as [[name args]|e]; [|discriminate].
  destruct (zstackClient env i k) as [c|]; [|discriminate].
  destruct (logged_in c) eqn:inside; [|discriminate].
  destruct (select_call name args) as [[call|]|e] eqn:selected; try discriminate.
  intros H; inversion H; subst r.
  cbn [rbind fst snd].
  rewrite (executeTool_of_outcome c name args inside selected).
  reflexivity.
Qed.

Lemma nth_error_indexed {X} (l : list X) (start k : nat) :
  nth_error (combine (seq start (List.length l)) l) k
  = option_map (pair (start + k)) (nth_error l k).
Proof.
  revert start k. induction l as [|x l IH]; intros start [|k]; cbn; try reflexivity.
  - rewrite Nat.add_0_r. reflexivity.
  - rewrite IH. rewrite Nat.add_succ_r. reflexivity.
Qed.

Lemma nth_results_in_order (i k : nat) (tcs : list object) :
  nth_error (results_in_order rt env engine i tcs) k
  = option_map (tool_result rt env engine i k) (nth_error tcs k).
Proof.
  unfold results_in_order, indexed.
  rewrite nth_error_map, nth_error_indexed.
  destruct (nth_error tcs k); reflexivity.
Qed.

Lemma results_in_order_length (i : nat) (tcs : list object) :
  List.length (results_in_order rt env engine i tcs) = List.length tcs.
Proof.
  unfold results_in_order, indexed.
  rewrite length_map, length_combine, length_seq. lia.
Qed.

Lemma tool_result_is_message (i k : nat) (tc : object) :
  exists text, tool_result rt env engine i k tc = result_message engine tc text.
Proof.
  unfold tool_result.
  match goal with |- context [match ?x with _ => _ end] => destruct x end;
    eexists; reflexivity.
Qed.

Lemma result_message_is_tool_result (tc : object) (text : string) :
  if isAnthropic engine
  then is_tool_result_block (result_message engine tc text) = true
  else forall rest,
      tool_results_of (result_message engine tc text :: rest)
      = result_message engine tc text :: tool_results_of rest.
Proof.
  unfold result_message. destruct (isAnthropic engine); reflexivity.
Qed.

(** What a round appends after the request turn holds exactly the results
    of the round, as tool results. *)
Lemma tool_results_of_round (i : nat) (tcs : list object) :
  tool_results_of (result_turns engine (results_in_order rt env engine i tcs))
  = results_in_order rt env engine i tcs.
Proof.
  unfold result_turns, results_in_order.
  generalize (indexed tcs) as l.
  pose proof result_message_is_tool_result as shape.
  destruct (isAnthropic engine).
  - intros l. cbn. rewrite app_nil_r.
    induction l as [|[k tc] l IH]; cbn; [reflexivity|].
    destruct (tool_result_is_message i k tc) as [text ->].
    rewrite (shape tc text), IH. reflexivity.
  - intros l. induction l as [|[k tc] l IH]; [reflexivity|].
    cbn [map fst snd].
    destruct (tool_result_is_message i k tc) as [text ->].
    rewrite (shape tc text), IH. reflexivity.
Qed.

End ToolResults.

(** C1.  Take a round of [chat] that gets as far as running its tool
    calls: the checks at its top pass, the adapter returns the calls [tcs],
    no abort is seen after it, and the calls are described for
    [tool_start].  If the client call of call [bad] throws [e] and the
    client call of every other call returns, then
    - the round goes on to the next round ([chat_loop] with one round less,
      from round [i + 1]) instead of ending [chat];
    - after the request turn the conversation gains exactly the results of
      the round, one per call ([N] messages of role [tool], or the [N]
      [tool_result] blocks of one [user] message on the Anthropic path);
    - the result of call [bad] is the serialization of
      [{ error: e.message }], and the result of any other call the
      serialization of what its client call returned, each clipped to the
      mode's budget. *)
Theorem fan_out_isolation :
  forall (rt : runtime) (env : environment) (engine : LLMEngine)
         (i : nat) (msgs : list json) (evs : list event)
         (response : response) (emitted : list event) (tcs : list object)
         (names details : list jsval)
         (bad : nat) (failing : object) (e : js_error) (rounds : nat),
    aborted_at_top env i = false ->
    (timeoutMs <? clock env (S i) - clock env 0)%Z = false ->
    call_adapter rt env engine i msgs = (Ok response, emitted) ->
    aborted_after_call env i = false ->
    toolCalls response = Some tcs ->
    toolNames engine tcs = Ok names ->
    toolDetails rt engine tcs = Ok details ->
    nth_error tcs bad = Some failing ->
    client_outcome rt env engine i bad failing = Some (Throw e) ->
    (forall (k : nat) (tc : object),
        k <> bad -> nth_error tcs k = Some tc ->
        exists v, client_outcome rt env engine i k tc = Some (Ok v)) ->
    let results := results_in_order rt env engine i tcs in
    let msgs' :=
      ((msgs ++ [request_turn engine response]) ++ result_turns engine results)%list in
    let evs' :=
      (((evs ++ emitted) ++ [tool_start names details (i + 1)])
         ++ [tool_done names (i + 1)])%list in
    round rt env engine i msgs evs = Continue msgs' evs' /\
    chat_loop rt env engine (S rounds) i msgs evs
      = chat_loop rt env engine rounds (S i) msgs' evs' /\
    tool_results_of (result_turns engine results) = results /\
    List.length results = List.length tcs /\
    nth_error results bad
      = Some (result_message engine failing
                (slice_to (truncateLimit engine)
                   (JSON_stringify (error_object (err_message e))))) /\
    (forall (k : nat) (tc : object),
        k <> bad -> nth_error tcs k = Some tc ->
        exists v,
          client_outcome rt env engine i k tc = Some (Ok v) /\
          nth_error results k
            = Some (result_message engine tc
                      (slice_to (truncateLimit engine) (JSON_stringify v)))).
Proof.
  intros rt env engine i msgs evs response emitted tcs names details bad failing e
         rounds top time called after calls named detailed at_bad throws others
         results msgs' evs'.
  assert (went_on : round rt env engine i msgs evs = Continue msgs' evs').
  { destruct tcs as [|tc tcs]; [destruct bad; discriminate|].
    apply round_with_tools; assumption. }
  split; [exact went_on|].
  split; [cbn [chat_loop]; rewrite went_on; reflexivity|].
  split; [apply tool_results_of_round|].
  split; [apply results_in_order_length|].
  split.
  - unfold results. rewrite nth_results_in_order, at_bad. cbn [option_map].
    rewrite (tool_result_of_outcome rt env engine i bad failing throws).
    reflexivity.
  - intros k tc other at_k.
    destruct (others k tc other at_k) as [v returns].
    exists v. split; [exact returns|].
    unfold results. rewrite nth_results_in_order, at_k. cbn [option_map].
    rewrite (tool_result_of_outcome rt env engine i k tc returns).
    reflexivity.
Qed.

(** ** The budget of a tool result *)

Section Budget.

Variable rt : runtime.
Variable env : environment.
Variable engine : LLMEngine.







End Budget.


(** ** Cancellation *)

Section Cancellation.

Variable rt : runtime.

(** A read that rejects after chunks the loop took without throwing ends
    the loop with that rejection. *)
Lemma read_loop_rejected {S} (line : string -> S -> progress S) (e : js_error)
    (chunks : list string) :
  forall (buffer : string) (s : S),
    failure (read_loop line chunks EndOfStream buffer s) = None ->
    failure (read_loop line chunks (ReadRejects e) buffer s) = Some e.
Proof.
  induction chunks as [|chunk rest IH]; intros buffer s.
  - reflexivity.
  - cbn [read_loop]. destruct (take_lines buffer chunk) as [lines buffer'].
    destruct (for_of line lines s) as [s1 out1 [err|]];
      cbn [failure reached emitted]; [discriminate | apply IH].
Qed.

Lemma nonstream_rejected (x : exchange) (e : js_error) :
  (x = FetchRejects e \/ exists status chunks, x = Response status chunks (ReadRejects e)) ->
  _callOpenAINonStream rt x = Throw e.
Proof.
  intros [-> | [status [chunks ->]]]; [reflexivity|].
  unfold _callOpenAINonStream. destruct (res_ok status); reflexivity.
Qed.

(** An adapter whose await rejects with an [AbortError] throws it: what it
    had accumulated is dropped. *)
Lemma anthropic_cancelled (x fallback : exchange) (e : js_error) :
  cancelled rt true x fallback e ->
  err_name e = "AbortError" ->
  fst (_callAnthropicStream rt x) = Throw e.
Proof.
  intros how abort.
  inversion how as [ | status chunks e' fb bad | status chunks e' fb good read
                     | status chunks e' impossible | status status' chunks chunks' e' impossible ];
    subst; try discriminate.
  - reflexivity.
  - unfold _callAnthropicStream. rewrite bad. reflexivity.
  - unfold _callAnthropicStream. rewrite good. cbn [negb fst].
    unfold chunks_processed in read.
    destruct (failure (read_loop (anthropic_line rt) chunks EndOfStream ""
                                 anthropic_start)) eqn:fine; [discriminate|].
    rewrite (read_loop_rejected _ e chunks "" anthropic_start fine).
    unfold anthropic_catch. rewrite abort. reflexivity.
Qed.

Lemma openai_cancelled (x fallback : exchange) (e : js_error) :
  cancelled rt false x fallback e ->
  err_name e = "AbortError" ->
  fst (_callOpenAIStream rt x fallback) = Throw e.
Proof.
  intros how abort.
  inversion how as [ | status chunks e' fb bad | status chunks e' fb good read
                     | status chunks e' _ bad asks | status status' chunks chunks' e' _ bad asks ];
    subst.
  - reflexivity.
  - unfold _callOpenAIStream. rewrite bad. reflexivity.
  - unfold _callOpenAIStream. rewrite good. cbn [negb fst].
    unfold chunks_processed in read.
    destruct (failure (read_loop (openai_line rt) chunks EndOfStream ""
                                 openai_start)) eqn:fine; [discriminate|].
    rewrite (read_loop_rejected _ e chunks "" openai_start fine).
    unfold openai_catch. rewrite abort. reflexivity.
  - unfold _callOpenAIStream. rewrite bad. cbn [negb fst res_text rbind].
    unfold asks_for_fallback in asks.
    destruct (toLowerCase_method (error_message_of rt (String.concat "" chunks)))
      as [lower|]; [|discriminate].
    cbn [rbind]. rewrite asks. reflexivity.
  - unfold _callOpenAIStream. rewrite bad. cbn [negb fst res_text rbind].
    unfold asks_for_fallback in asks.
    destruct (toLowerCase_method (error_message_of rt (String.concat "" chunks)))
      as [lower|]; [|discriminate].
    cbn [rbind]. rewrite asks.
    apply nonstream_rejected. right. eexists; eexists; reflexivity.
Qed.

End Cancellation.

(** C6.  Take a round of [chat] whose checks at the top pass and whose
    adapter call is cancelled: the promise it awaits (the response of
    [fetch], the text of an error response, a read of the stream after any
    number of chunks, or the same in the request without streaming)
    rejects with an [AbortError].  Then the adapter throws that error,
    and [chat] resolves with the fixed message (it does not throw and does
    not stay pending); the conversation is as it was at the top of the
    round: the text the aborted round had accumulated is neither the
    answer nor appended. *)
Theorem cancellation_resolves_stopped :
  forall (rt : runtime) (env : environment) (engine : LLMEngine)
         (i : nat) (msgs : list json) (evs : list event) (e : js_error)
         (rounds : nat),
    aborted_at_top env i = false ->
    (timeoutMs <? clock env (S i) - clock env 0)%Z = false ->
    cancelled rt (isAnthropic engine)
              (stream_exchange env i msgs) (plain_exchange env i msgs) e ->
    err_name e = "AbortError" ->
    exists emitted,
      call_adapter rt env engine i msgs = (Throw e, emitted) /\
      chat_loop rt env engine (S rounds) i msgs evs
      = {| ending := Resolved (JStr STOPPED);
           conversation := msgs;
           events := (evs ++ emitted)%list |}.
Proof.
  intros rt env engine i msgs evs e rounds top time how abort.
  assert (thrown : fst (call_adapter rt env engine i msgs) = Throw e).
  { unfold call_adapter. destruct (isAnthropic engine).
    - apply (anthropic_cancelled how abort).
    - apply (openai_cancelled how abort). }
  destruct (call_adapter rt env engine i msgs) as [answer emitted] eqn:called.
  cbn in thrown. subst answer.
  exists emitted. split; [reflexivity|].
  cbn [chat_loop]. unfold round. rewrite top, time, called.
  unfold chat_catch. rewrite abort. reflexivity.
Qed.

(** ** Bounds *)

Section Bounds.

Variable rt : runtime.

Lemma tool_start_rounds_app (a b : list event) :
  tool_start_rounds (a ++ b) = (tool_start_rounds a ++ tool_start_rounds b)%list.
Proof.
  induction a as [|[] a IH]; cbn; try exact IH; [reflexivity | rewrite IH; reflexivity].
Qed.

(** A loop over steps that announce no tool start announces none. *)
Lemma for_of_quiet {X S} (step : X -> S -> progress S) (xs : list X) :
  (forall x s, tool_start_rounds (emitted (step x s)) = []) ->
  forall s, tool_start_rounds (emitted (for_of step xs s)) = [].
Proof.
  intros quiet. induction xs as [|x xs IH]; intros s; cbn [for_of]; [reflexivity|].
  destruct (failure (step x s)); [apply quiet|].
  cbn [emitted]. rewrite tool_start_rounds_app, quiet, IH. reflexivity.
Qed.

Lemma read_loop_quiet {S} (line : string -> S -> progress S) (fin : read_end)
    (chunks : list string) :
  (forall l s, tool_start_rounds (emitted (line l s)) = []) ->
  forall buffer s, tool_start_rounds (emitted (read_loop line chunks fin buffer s)) = [].
Proof.
  intros quiet. induction chunks as [|chunk rest IH]; intros buffer s; cbn [read_loop].
  - destruct fin; reflexivity.
  - destruct (take_lines buffer chunk) as [lines buffer'].
    destruct (failure (for_of line lines s)); [apply for_of_quiet, quiet|].
    cbn [emitted]. rewrite tool_start_rounds_app, for_of_quiet, IH by exact quiet.
    reflexivity.
Qed.

Lemma openai_line_quiet (l : string) (s : openai_state) :
  tool_start_rounds (emitted (openai_line rt l s)) = [].
Proof.
  unfold openai_line. destruct (data_of_line rt _ l) as [chunk|]; [|reflexivity].
  unfold openai_chunk.
  repeat match goal with
         | |- context [if ?b then _ else _] => destruct b
         | |- context [match ?x with _ => _ end] => destruct x
         end; reflexivity.
Qed.

Lemma anthropic_line_quiet (l : string) (s : anthropic_state) :
  tool_start_rounds (emitted (anthropic_line rt l s)) = [].
Proof.
  unfold anthropic_line. destruct (data_of_line rt _ l) as [ev|]; [|reflexivity].
  unfold anthropic_event.
  repeat match goal with
         | |- context [if ?b then _ else _] => destruct b
         | |- context [match ?x with _ => _ end] => destruct x
         end; reflexivity.
Qed.

Variable env : environment.
Variable engine : LLMEngine.

(** The adapters emit text only. *)
Lemma call_adapter_quiet (i : nat) (msgs : list json) :
  tool_start_rounds (snd (call_adapter rt env engine i msgs)) = [].
Proof.
  unfold call_adapter, _callAnthropicStream, _callOpenAIStream.
  destruct (isAnthropic engine); destruct (stream_exchange env i msgs) as [e|status chunks fin];
    try reflexivity; destruct (res_ok status); cbn [negb snd]; try reflexivity.
  - apply read_loop_quiet, anthropic_line_quiet.
  - apply read_loop_quiet, openai_line_quiet.
Qed.

(** A round that ends [chat] announces no tool start; a round that goes on
    announces one, numbered [i + 1]. *)
Lemma round_tool_starts (i : nat) (msgs : list json) (evs : list event) :
  match round rt env engine i msgs evs with
  | Stop r => tool_start_rounds (events r) = tool_start_rounds evs
  | Continue _ evs' =>
      tool_start_rounds evs' = (tool_start_rounds evs ++ [i + 1])%list
  end.
Proof.
  unfold round, stop, chat_catch.
  destruct (aborted_at_top env i); [reflexivity|].
  destruct (timeoutMs <? clock env (S i) - clock env 0)%Z; [reflexivity|].
  pose proof (call_adapter_quiet i msgs) as quiet.
  destruct (call_adapter rt env engine i msgs) as [[resp|e] emitted]; cbn [snd] in quiet.
  2:{ cbn [events]. rewrite tool_start_rounds_app, quiet, app_nil_r. reflexivity. }
  assert (same : tool_start_rounds (evs ++ emitted) = tool_start_rounds evs)
    by (rewrite tool_start_rounds_app, quiet, app_nil_r; reflexivity).
  destruct (aborted_after_call env i); [exact same|].
  destruct (toolCalls resp) as [[|tc tcs]|]; try exact same.
  destruct (toolNames engine (tc :: tcs)) as [names|e]; [|exact same].
  destruct (toolDetails rt engine (tc :: tcs)) as [details|e]; [|exact same].
  cbn [rbind]. rewrite Promise_all_in_order.
  rewrite !tool_start_rounds_app, quiet. cbn. rewrite !app_nil_r. reflexivity.
Qed.

(** The rounds that ran tools are numbered from [i + 1] on, and there are
    at most as many as the loop has rounds. *)
Lemma chat_loop_tool_starts (rounds : nat) :
  forall (i : nat) (msgs : list json) (evs : list event),
    exists k,
      k <= rounds /\
      tool_start_rounds (events (chat_loop rt env engine rounds i msgs evs))
      = (tool_start_rounds evs ++ seq (i + 1) k)%list.
Proof.
  induction rounds as [|n IH]; intros i msgs evs; cbn [chat_loop].
  - exists 0. split; [lia | cbn; rewrite app_nil_r; reflexivity].
  - pose proof (round_tool_starts i msgs evs) as here.
    destruct (round rt env engine i msgs evs) as [r|msgs' evs'].
    + exists 0. split; [lia | cbn; rewrite app_nil_r; exact here].
    + destruct (IH (S i) msgs' evs') as [k [short numbered]].
      exists (S k). split; [lia|].
      rewrite numbered, here, <- app_assoc. cbn.
      replace (S (i + 1)) with (S i + 1) by lia. reflexivity.
Qed.

(** The loop never leaves [chat] pending. *)
Lemma chat_loop_settles (rounds : nat) :
  forall (i : nat) (msgs : list json) (evs : list event),
    ending (chat_loop rt env engine rounds i msgs evs) <> Pending.
Proof.
  induction rounds as [|n IH]; intros i msgs evs; cbn [chat_loop]; [discriminate|].
  destruct (round rt env engine i msgs evs) as [r|msgs' evs'] eqn:here.
  - apply (round_never_pending rt env engine i msgs evs here).
  - apply IH.
Qed.

(** When every round goes on, the loop ends at its limit with the message
    for that, having run tools in each of its rounds. *)
Lemma chat_loop_reaches_limit (rounds : nat) :
  forall (i : nat) (msgs : list json) (evs : list event),
    (forall j msgs evs, j < i + rounds ->
                        exists msgs' evs', round rt env engine j msgs evs = Continue msgs' evs') ->
    ending (chat_loop rt env engine rounds i msgs evs) = Resolved (JStr ROUND_LIMIT) /\
    tool_start_rounds (events (chat_loop rt env engine rounds i msgs evs))
    = (tool_start_rounds evs ++ seq (i + 1) rounds)%list.
Proof.
  induction rounds as [|n IH]; intros i msgs evs busy; cbn [chat_loop].
  - split; [reflexivity | cbn; rewrite app_nil_r; reflexivity].
  - pose proof (round_tool_starts i msgs evs) as here.
    destruct (busy i msgs evs) as [msgs' [evs' went_on]]; [lia|].
    rewrite went_on in *.
    destruct (IH (S i) msgs' evs') as [limit numbered].
    { intros j m e short. apply busy. lia. }
    split; [exact limit|].
    rewrite numbered, here, <- app_assoc. cbn.
    replace (S (i + 1)) with (S i + 1) by lia. reflexivity.
Qed.

End Bounds.

(** C2.  Whatever the provider, the clock, the signal and the client do,
    [chat] ends: it resolves or rejects, and is never left pending.  The
    loop runs at most [maxRounds = 100] rounds: the rounds that ran tools
    are numbered 1, 2, ... and there are at most 100 of them.  The time
    budget of 5 minutes is checked at the top of each round: when more
    than [timeoutMs = 300000] ms have passed since the start, [chat]
    resolves there with the time-out message.  When every round proposes
    tool calls and goes on, [chat] resolves with the round-limit message
    after the hundredth round.  Both are message strings that [chat]
    returns, not errors it throws. *)
Theorem chat_terminates_within_bounds :
  forall (rt : runtime) (env : environment) (engine : LLMEngine)
         (userMessage : string),
    ending (chat rt env engine userMessage) <> Pending /\
    (exists k,
        k <= 100 /\
        tool_start_rounds (events (chat rt env engine userMessage)) = seq 1 k) /\
    (forall (rounds i : nat) (msgs : list json) (evs : list event),
        aborted_at_top env i = false ->
        (300000 <? clock env (S i) - clock env 0)%Z = true ->
        chat_loop rt env engine (S rounds) i msgs evs
        = {| ending := Resolved (JStr TIMED_OUT);
             conversation := msgs; events := evs |}) /\
    ((forall (j : nat) (msgs : list json) (evs : list event),
         j < 100 ->
         exists msgs' evs', round rt env engine j msgs evs = Continue msgs' evs') ->
     ending (chat rt env engine userMessage) = Resolved (JStr ROUND_LIMIT) /\
     tool_start_rounds (events (chat rt env engine userMessage)) = seq 1 100).
Proof.
  intros rt env engine userMessage. split; [|split; [|split]].
  - apply chat_loop_settles.
  - destruct (chat_loop_tool_starts rt env engine maxRounds 0
                (messages engine ++ [JObj [("role", JStr "user");
                                           ("content", JStr userMessage)]])%list [])
      as [k [short numbered]].
    exists k. split; [exact short | exact numbered].
  - intros rounds i msgs evs top late.
    cbn [chat_loop]. unfold round, stop.
    rewrite top. change timeoutMs with 300000%Z. rewrite late. reflexivity.
  - intros busy.
    apply (chat_loop_reaches_limit rt env engine maxRounds 0).
    intros j msgs evs short. apply busy. exact short.
Qed.

(** ** Tool calls that arrive in fragments *)

Section Fragments.

Variable rt : runtime.

Lemma append_empty (s : string) : s ++ "" = s.
Proof. induction s as [|c s IH]; cbn; [reflexivity | rewrite IH; reflexivity]. Qed.

Lemma append_assoc (a b c : string) : (a ++ b) ++ c = a ++ (b ++ c).
Proof. induction a as [|x a IH]; cbn; [reflexivity | rewrite IH; reflexivity]. Qed.

Lemma concat_fragments_cons (f : string) (l : list string) :
  String.concat "" (f :: l) = f ++ String.concat "" l.
Proof.
  destruct l as [|g l]; cbn; [rewrite append_empty|]; reflexivity.
Qed.

Lemma array_index_of_nat (i : nat) : array_index (Some (JInt (Z.of_nat i))) = Some i.
Proof.
  unfold array_index, JInt.
  replace ((0 <=? Z.of_nat i) && (0 <=? 0))%Z with true
    by (symmetry; apply andb_true_intro; split; apply Z.leb_le; lia).
  f_equal. change (10 ^ 0)%Z with 1%Z. lia.
Qed.

Lemma at_index_store {X} (i : nat) (v : X) (a : sparse X) :
  at_index i (store i v a) = Some v.
Proof.
  unfold at_index. revert a. induction i as [|i IH]; intros [|x a]; cbn; auto.
Qed.

Lemma at_index_store_other {X} (i j : nat) (v : X) (a : sparse X) :
  i <> j -> at_index i (store j v a) = at_index i a.
Proof.
  unfold at_index. revert i a.
  induction j as [|j IH]; intros [|i] [|x a] ne; cbn; try contradiction; auto;
    try (destruct i; reflexivity);
    try (rewrite IH by congruence; destruct i; reflexivity);
    try (apply IH; congruence).
Qed.

Lemma parse_input_is_parsed_or_empty (text : string) :
  parse_input rt text = parsed_or_empty text.
Proof.
  unfold parse_input, parsed_or_empty, JSON_parse.
  destruct (String.eqb_spec text "") as [-> | _]; [reflexivity|].
  destruct (parse_json text); reflexivity.
Qed.

(** *** The Anthropic loop *)

Lemma anthropic_block_start (i : nat) (id name : string) (s : anthropic_state) :
  anthropic_event rt (block_start_event i id name) s
  = going {| contentBlocks :=
               store i (tool_use_block id name (JObj [])) (contentBlocks s);
             currentBlockIndex := Some (JInt (Z.of_nat i));
             currentBlockType := Some (JStr "tool_use");
             textContent := textContent s;
             inputJsonStr := "" |} [].
Proof.
  unfold anthropic_event, block_start_event, store_at.
  cbn [prop lookup String.eqb Ascii.eqb Bool.eqb is_string prop_opt js_or truthy negb
       field List.app].
  rewrite array_index_of_nat. reflexivity.
Qed.

Lemma anthropic_input_delta (i : nat) (fragment : string) (s : anthropic_state) :
  anthropic_event rt (input_delta_event i fragment) s = going (add_input fragment s) [].
Proof.
  unfold anthropic_event, input_delta_event.
  cbn [prop lookup String.eqb Ascii.eqb Bool.eqb is_string prop_opt js_or truthy negb
       andb to_string to_string_json].
  destruct (String.eqb_spec fragment "") as [-> | _]; cbn [negb].
  - unfold add_input. rewrite append_empty. destruct s; reflexivity.
  - reflexivity.
Qed.

Lemma anthropic_block_stop (i j : nat) (b : object) (s : anthropic_state) :
  currentBlockType s = Some (JStr "tool_use") ->
  currentBlockIndex s = Some (JInt (Z.of_nat i)) ->
  at_index i (contentBlocks s) = Some b ->
  anthropic_event rt (block_stop_event j) s
  = going {| contentBlocks :=
               store i (obj_set "input" (parse_input rt (inputJsonStr s)) b)
                     (contentBlocks s);
             currentBlockIndex := currentBlockIndex s;
             currentBlockType := currentBlockType s;
             textContent := textContent s;
             inputJsonStr := "" |} [].
Proof.
  intros type index block.
  unfold anthropic_event, block_stop_event, read_at, store_at.
  cbn [prop lookup String.eqb Ascii.eqb Bool.eqb is_string].
  rewrite type, index. cbn [is_string String.eqb Ascii.eqb Bool.eqb].
  rewrite array_index_of_nat, block. reflexivity.
Qed.

Lemma for_of_step {X S} (step : X -> S -> progress S) (x : X) (xs : list X) (s s' : S) :
  step x s = going s' [] -> for_of step (x :: xs) s = for_of step xs s'.
Proof.
  intros one. cbn [for_of]. rewrite one. cbn.
  destruct (for_of step xs s'); reflexivity.
Qed.

(** The adapter keeps one accumulator: a fragment is added to it whatever
    index its event carries. *)
Lemma anthropic_input_deltas (deltas : list (nat * string)) (rest : list json) :
  forall s : anthropic_state,
    for_of (anthropic_event rt)
           (map (fun d => input_delta_event (fst d) (snd d)) deltas ++ rest)%list s
    = for_of (anthropic_event rt) rest
             (add_input (String.concat "" (map snd deltas)) s).
Proof.
  induction deltas as [|[j f] deltas IH]; intros s.
  - cbn [map List.app String.concat]. unfold add_input. rewrite append_empty.
    destruct s; reflexivity.
  - cbn [map List.app fst snd].
    rewrite (for_of_step _ _ _ _ (anthropic_input_delta j f s)).
    rewrite IH, concat_fragments_cons.
    unfold add_input. cbn. rewrite append_assoc. reflexivity.
Qed.

(** From the start of a [tool_use] block to its end, the fragments that
    arrive are accumulated, and the block gets what their concatenation
    parses to, the empty object if it does not parse. *)
Lemma anthropic_block (i : nat) (id name : string) (deltas : list (nat * string))
    (s : anthropic_state) :
  let p := for_of (anthropic_event rt)
             (block_start_event i id name ::
              map (fun d => input_delta_event (fst d) (snd d)) deltas
              ++ [block_stop_event i])%list s in
  failure p = None /\
  emitted p = [] /\
  at_index i (contentBlocks (reached p))
  = Some (tool_use_block id name
            (parsed_or_empty (String.concat "" (map snd deltas)))).
Proof.
  cbv zeta.
  rewrite (for_of_step _ _ _ _ (anthropic_block_start i id name s)).
  rewrite anthropic_input_deltas.
  match goal with
  | |- context [for_of _ [block_stop_event i] ?s1] =>
      pose proof (@anthropic_block_stop i i (tool_use_block id name (JObj [])) s1
                    eq_refl eq_refl (at_index_store _ _ _)) as stop
  end.
  rewrite (for_of_step _ _ _ _ stop).
  cbn [for_of going failure emitted reached contentBlocks add_input inputJsonStr].
  repeat split.
  rewrite at_index_store, parse_input_is_parsed_or_empty. reflexivity.
Qed.

(** *** The OpenAI loop *)

Lemma add_no_arguments (c : openai_call) : add_arguments "" c = c.
Proof. unfold add_arguments. rewrite append_empty. destruct c; reflexivity. Qed.

Lemma add_arguments_twice (a b : string) (c : openai_call) :
  add_arguments b (add_arguments a c) = add_arguments (a ++ b) c.
Proof. unfold add_arguments. cbn. rewrite append_assoc. reflexivity. Qed.

Lemma openai_arguments_delta (j : nat) (fragment : string) (calls : sparse openai_call)
    (c : openai_call) :
  at_index j calls = Some c ->
  openai_tool_delta (arguments_delta j fragment) calls
  = going (store j (add_arguments fragment c) calls) [].
Proof.
  intros present. unfold openai_tool_delta, arguments_delta.
  cbn [prop lookup String.eqb Ascii.eqb Bool.eqb rbind prop_opt truthy negb
       to_string to_string_json].
  rewrite array_index_of_nat, present.
  destruct (String.eqb_spec fragment "") as [-> | _]; cbn [negb].
  - rewrite add_no_arguments. destruct c; reflexivity.
  - destruct c; reflexivity.
Qed.

Lemma openai_arguments_delta_new (j : nat) (fragment : string)
    (calls : sparse openai_call) :
  at_index j calls = None ->
  exists c, openai_tool_delta (arguments_delta j fragment) calls
            = going (store j c calls) [].
Proof.
  intros absent. unfold openai_tool_delta, arguments_delta.
  cbn [prop lookup String.eqb Ascii.eqb Bool.eqb rbind prop_opt truthy negb
       to_string to_string_json].
  rewrite array_index_of_nat, absent.
  eexists. reflexivity.
Qed.

(** The entries of [delta.tool_calls] are accumulated by index: the entry
    of a call gains the fragments delivered for its index, in order, and
    none of the others. *)
Lemma openai_accumulates_by_index (i : nat) (deltas : list (nat * string)) :
  forall (calls : sparse openai_call) (c : openai_call),
    at_index i calls = Some c ->
    let p := for_of openai_tool_delta
               (map (fun d => arguments_delta (fst d) (snd d)) deltas) calls in
    failure p = None /\
    at_index i (reached p)
    = Some (add_arguments (String.concat "" (fragments_for i deltas)) c).
Proof.
  induction deltas as [|[j f] deltas IH]; intros calls c present; cbv zeta.
  - cbn. rewrite add_no_arguments. split; [reflexivity | exact present].
  - cbn [map fst snd].
    destruct (Nat.eqb_spec j i) as [-> | other].
    + rewrite (for_of_step _ _ _ _ (openai_arguments_delta i f calls present)).
      destruct (IH (store i (add_arguments f c) calls) (add_arguments f c)
                   (at_index_store _ _ _)) as [fine gathered].
      split; [exact fine|].
      rewrite gathered, add_arguments_twice.
      unfold fragments_for. cbn [filter fst snd map]. rewrite Nat.eqb_refl.
      cbn [map snd]. rewrite concat_fragments_cons. reflexivity.
    + assert (kept : forall x, at_index i (store j x calls) = Some c)
        by (intros x; rewrite at_index_store_other by congruence; exact present).
      assert (same : fragments_for i ((j, f) :: deltas) = fragments_for i deltas).
      { unfold fragments_for. cbn [filter fst].
        destruct (Nat.eqb_spec j i); [contradiction | reflexivity]. }
      rewrite same.
      destruct (at_index j calls) as [cj|] eqn:there.
      * rewrite (for_of_step _ _ _ _ (openai_arguments_delta j f calls there)).
        apply IH, kept.
      * destruct (openai_arguments_delta_new j f calls there) as [cj made].
        rewrite (for_of_step _ _ _ _ made).
        apply IH, kept.
Qed.

Variable engine : LLMEngine.

(** At dispatch [chat] parses the accumulated text: the call is
    dispatched with what it parses to, and a text that does not parse
    throws the [SyntaxError]. *)
Lemma openai_call_inputs (c : openai_call) :
  isAnthropic engine = false ->
  call_inputs rt engine (openai_call_object c)
  = match parse_json (oc_arguments c) with
    | Some v => Ok (Some (JStr (oc_name c)), Some v)
    | None => Throw (SyntaxError (syntax_error_message rt (oc_arguments c)))
    end.
Proof.
  intros openai. unfold call_inputs, function_prop, openai_call_object, JSON_parse.
  rewrite openai.
  destruct (oc_id c) as [id|]; cbn;
    destruct (parse_json (oc_arguments c)); reflexivity.
Qed.

(** A call whose arguments do not parse is answered with the error, and
    the tool is not run. *)
Lemma openai_unparsed_result (env : environment) (i k : nat) (c : openai_call) :
  isAnthropic engine = false ->
  parse_json (oc_arguments c) = None ->
  tool_result rt env engine i k (openai_call_object c)
  = result_message engine (openai_call_object c)
      (JSON_stringify (error_object (syntax_error_message rt (oc_arguments c)))) /\
  client_outcome rt env engine i k (openai_call_object c) = None.
Proof.
  intros openai bad. unfold tool_result, client_outcome.
  rewrite (openai_call_inputs c openai), bad. split; reflexivity.
Qed.

End Fragments.

(** C1 at work: round 0 of the example proposes three calls; the client
    call of the second throws.  Three results are appended, the second
    the error, and the loop goes on with round 1. *)
Lemma fan_out_isolation_example :
  exists (results : list json) (msgs' : list json) (evs' : list event),
    round example_runtime example_environment openai_engine 0
          [JObj [("role", JStr "user"); ("content", JStr "hosts?")]] []
      = Continue msgs' evs' /\
    chat_loop example_runtime example_environment openai_engine 100 0
              [JObj [("role", JStr "user"); ("content", JStr "hosts?")]] []
      = chat_loop example_runtime example_environment openai_engine 99 1 msgs' evs' /\
    tool_results_of (result_turns openai_engine results) = results /\
    List.length results = 3 /\
    nth_error results 1
      = Some (JObj [("role", JStr "tool"); ("tool_call_id", JStr "c2");
                    ("content", JStr (q "{'error':'it broke'}"))]).
Proof.
  unshelve epose proof
    (@fan_out_isolation example_runtime example_environment openai_engine 0
       [JObj [("role", JStr "user"); ("content", JStr "hosts?")]] []
       _ _ _ _ _ 1 _ _ 99 eq_refl eq_refl _ eq_refl _ _ _ _ _ _)
    as [went_on [next [held [count [failed others]]]]];
    [ shelve | shelve | shelve | shelve | shelve | shelve | shelve
    | vm_compute; reflexivity
    | reflexivity
    | vm_compute; reflexivity
    | vm_compute; reflexivity
    | vm_compute; reflexivity
    | vm_compute; reflexivity
    | intros [|[|[|k]]] tc other found;
      [ | exfalso; apply other; reflexivity | | destruct k; discriminate ];
      injection found as <-; eexists; vm_compute; reflexivity
    | ].
  eexists; eexists; eexists.
  split; [exact went_on|]. split; [exact next|]. split; [exact held|].
  split; [exact count|]. exact failed.
Defined.

(** C2 at work: against a provider that asks for a new tool call in every
    round, [chat] ends after round 100 with the round-limit message. *)
Lemma round_limit_example :
  ending (chat example_runtime busy_environment openai_engine "list everything")
    = Resolved (JStr ROUND_LIMIT) /\
  tool_start_rounds
    (events (chat example_runtime busy_environment openai_engine "list everything"))
    = seq 1 100.
Proof.
  apply (proj2 (proj2 (proj2 (chat_terminates_within_bounds
                                example_runtime busy_environment openai_engine
                                "list everything")))).
  intros j msgs evs short.
  do 100 (destruct j as [|j]; [eexists; eexists; vm_compute; reflexivity|]).
  exfalso. lia.
Defined.


(** C6 at work: [abort()] while the stream is read; the text that had
    arrived is emitted but is neither returned nor kept. *)
Lemma cancellation_example :
  chat example_runtime cancelled_environment openai_engine "hosts?"
  = {| ending := Resolved (JStr STOPPED);
       conversation := [JObj [("role", JStr "user"); ("content", JStr "hosts?")]];
       events := [text_delta (Some (JStr "The hosts a"))] |}.
Proof.
  assert (how : cancelled example_runtime (isAnthropic openai_engine)
                  (stream_exchange cancelled_environment 0
                     [JObj [("role", JStr "user"); ("content", JStr "hosts?")]])
                  (plain_exchange cancelled_environment 0
                     [JObj [("role", JStr "user"); ("content", JStr "hosts?")]])
                  AbortError)
    by (apply cancelled_read; reflexivity).
  destruct (@cancellation_resolves_stopped
              example_runtime cancelled_environment openai_engine 0
              [JObj [("role", JStr "user"); ("content", JStr "hosts?")]] []
              AbortError 99 eq_refl eq_refl how eq_refl)
    as [emitted [called ended]].
  change (chat example_runtime cancelled_environment openai_engine "hosts?")
    with (chat_loop example_runtime cancelled_environment openai_engine (S 99) 0
            [JObj [("role", JStr "user"); ("content", JStr "hosts?")]] []).
  rewrite ended. f_equal.
  vm_compute in called. injection called as <-. reflexivity.
Defined.

(** C4, as the code has it.
    - Anthropic adapter: from the start of a [tool_use] block to its end,
      the fragments that arrive are accumulated (in one accumulator,
      whatever index their events carry; the fragments of a block arrive
      between its start and its end), and at the end of the block the
      call gets what their concatenation parses to, the empty object when
      it does not parse (or is empty).
    - OpenAI adapter: the fragments are accumulated per call index into the
      text of the call's arguments; fragments for other indices in between
      do not touch it.  The adapter does not parse the text.
    - [chat] parses that text when it dispatches the call.  When it parses,
      the call is dispatched with the value.  When it does not, the
      arguments are not defaulted: the tool is not run and the result of
      that call alone is [{ error: message }] with the message of the
      [SyntaxError]; the round goes on.
    - The fragments [{"a":1,] and ["b":2}], delivered in two stream events
      for one call index, are reconstructed to [{"a":1,"b":2}] by both. *)
Theorem tool_call_arguments_reconstructed :
  forall rt : runtime,
    (forall (i : nat) (id name : string) (deltas : list (nat * string))
            (s : anthropic_state),
        let p := for_of (anthropic_event rt)
                   (block_start_event i id name ::
                    map (fun d => input_delta_event (fst d) (snd d)) deltas
                    ++ [block_stop_event i])%list s in
        let input := parsed_or_empty (String.concat "" (map snd deltas)) in
        failure p = None /\
        at_index i (contentBlocks (reached p)) = Some (tool_use_block id name input) /\
        anthropic_call_object (tool_use_block id name input)
        = [("id", JStr id); ("name", JStr name); ("input", input)]) /\
    (forall (i : nat) (deltas : list (nat * string)) (calls : sparse openai_call)
            (c : openai_call),
        at_index i calls = Some c ->
        let p := for_of openai_tool_delta
                   (map (fun d => arguments_delta (fst d) (snd d)) deltas) calls in
        failure p = None /\
        at_index i (reached p)
        = Some (add_arguments (String.concat "" (fragments_for i deltas)) c)) /\
    (forall (env : environment) (engine : LLMEngine) (c : openai_call) (i k : nat),
        isAnthropic engine = false ->
        (forall v, parse_json (oc_arguments c) = Some v ->
                   call_inputs rt engine (openai_call_object c)
                   = Ok (Some (JStr (oc_name c)), Some v)) /\
        (parse_json (oc_arguments c) = None ->
         tool_result rt env engine i k (openai_call_object c)
         = result_message engine (openai_call_object c)
             (JSON_stringify
                (error_object (syntax_error_message rt (oc_arguments c)))) /\
         client_outcome rt env engine i k (openai_call_object c) = None)) /\
    (exists r,
        fst (_callAnthropicStream rt (Response 200 anthropic_fragment_stream EndOfStream))
        = Ok r /\
        toolCalls r
        = Some [[("id", JStr "t1"); ("name", JStr "zstack_query");
                 ("input", JObj [("a", JInt 1); ("b", JInt 2)])]]) /\
    (exists r c,
        fst (_callOpenAIStream rt (Response 200 openai_fragment_stream EndOfStream)
               (FetchRejects AbortError))
        = Ok r /\
        toolCalls r = Some [openai_call_object c] /\
        oc_arguments c = q "{'a':1," ++ q "'b':2}" /\
        forall engine, isAnthropic engine = false ->
                       call_inputs rt engine (openai_call_object c)
                       = Ok (Some (JStr "zstack_query"),
                             Some (JObj [("a", JInt 1); ("b", JInt 2)]))).
Proof.
  intros rt. split; [|split; [|split; [|split]]].
  - intros i id name deltas s p input.
    destruct (anthropic_block rt i id name deltas s) as [fine [_ stored]].
    split; [exact fine|]. split; [exact stored | reflexivity].
  - intros i deltas calls c present.
    apply openai_accumulates_by_index. exact present.
  - intros env engine c i k openai. split.
    + intros v parsed. rewrite (openai_call_inputs rt engine c openai), parsed.
      reflexivity.
    + intros bad. apply openai_unparsed_result; assumption.
  - eexists. split; [vm_compute; reflexivity | reflexivity].
  - exists (openai_finish
              (reached (read_loop (openai_line rt) openai_fragment_stream EndOfStream
                                  "" openai_start))),
           {| oc_id := Some (JStr "c1"); oc_name := "zstack_query";
              oc_arguments := q "{'a':1," ++ q "'b':2}" |}.
    split; [vm_compute; reflexivity|].
    split; [vm_compute; reflexivity|].
    split; [reflexivity|].
    intros engine openai. rewrite (openai_call_inputs rt engine _ openai).
    vm_compute. reflexivity.
Qed.

(** C4 at work on fragments of two calls that arrive interleaved: call 0
    gets [{}], which parses and is dispatched; had its text stopped at
    [{], the call would have got the error of the parser. *)
Lemma interleaved_fragments_example :
  at_index 0
    (reached
       (for_of openai_tool_delta
          (map (fun d => arguments_delta (fst d) (snd d))
               [(0, "{"); (1, "[1"); (0, "}"); (1, "]")])
          [Some pending_call; Some pending_call]))
  = Some (add_arguments "{}" pending_call) /\
  call_inputs example_runtime openai_engine
              (openai_call_object (add_arguments "{}" pending_call))
  = Ok (Some (JStr "zstack_zql"), Some (JObj [])) /\
  tool_result example_runtime example_environment openai_engine 0 0
              (openai_call_object (add_arguments "{" pending_call))
  = result_message openai_engine
      (openai_call_object (add_arguments "{" pending_call))
      (JSON_stringify (error_object "Unexpected end of JSON input")).
Proof.
  destruct (tool_call_arguments_reconstructed example_runtime)
    as [_ [gathered [dispatched _]]].
  split; [|split].
  - apply (gathered 0 [(0, "{"); (1, "[1"); (0, "}"); (1, "]")]
                    [Some pending_call; Some pending_call] pending_call eq_refl).
  - destruct (dispatched example_environment openai_engine
                         (add_arguments "{}" pending_call) 0 0 eq_refl)
      as [parsed _].
    apply (parsed (JObj [])). vm_compute. reflexivity.
  - destruct (dispatched example_environment openai_engine
                         (add_arguments "{" pending_call) 0 0 eq_refl)
      as [_ [unparsed _]]; [vm_compute; reflexivity|].
    exact unparsed.
Defined.

(** C4 as stated fails on the OpenAI path: the arguments [{"a":1,] of the
    streamed call do not parse, and they are not replaced by the empty
    object.  The call is not dispatched at all ([call_inputs] throws), and
    its result is the [SyntaxError] message, where arguments defaulted to
    [{}] would have run [zstack_zql] against the client. *)
Lemma openai_unparsable_arguments_not_defaulted :
  exists (r : response) (tc : object),
    fst (_callOpenAIStream example_runtime
           (Response 200 openai_broken_stream EndOfStream) (FetchRejects AbortError))
    = Ok r /\
    toolCalls r = Some [tc] /\
    function_prop tc "arguments" = Ok (Some (JStr (q "{'a':1,"))) /\
    parse_json (q "{'a':1,") = None /\
    call_inputs example_runtime openai_engine tc
    = Throw (SyntaxError "Unexpected end of JSON input") /\
    call_inputs example_runtime openai_engine tc
    <> Ok (Some (JStr "zstack_zql"), Some (parsed_or_empty (q "{'a':1,"))) /\
    tool_result example_runtime example_environment openai_engine 0 0 tc
    = JObj [("role", JStr "tool"); ("tool_call_id", JStr "c1");
            ("content", JStr (q "{'error':'Unexpected end of JSON input'}"))] /\
    _executeTool (zstackClient example_environment 0 0)
                 (Some (JStr "zstack_zql")) (Some (JObj []))
    = Ok (JObj [("inventories", JArr [JObj [("uuid", JStr "x")]])]).
Proof.
  eexists. eexists.
  split; [vm_compute; reflexivity|].
  split; [reflexivity|].
  split; [reflexivity|].
  split; [reflexivity|].
  split; [reflexivity|].
  split; [discriminate|].
  split; vm_compute; reflexivity.
Qed.

(* ================================================================== *)
(** * Further properties of the client and of the engine *)

(** ** The endpoint of the client *)

Lemma strip_slashes_only (n : nat) : strip_trailing_slashes (slashes n) = "".
Proof. induction n as [|n IH]; cbn; [reflexivity | rewrite IH; reflexivity]. Qed.

Lemma strip_splits (s : string) :
  exists n, s = strip_trailing_slashes s ++ slashes n.
Proof.
  induction s as [|c r [n IH]].
  - exists 0. reflexivity.
  - cbn [strip_trailing_slashes].
    destruct (strip_trailing_slashes r) as [|c' t] eqn:inner.
    + destruct (Ascii.eqb_spec c "/") as [-> | _].
      * exists (S n). cbn. rewrite IH at 1. reflexivity.
      * exists n. cbn. rewrite IH at 1. reflexivity.
    + exists n. cbn. f_equal. exact IH.
Qed.

Lemma strip_no_trailing_slash (s t : string) : strip_trailing_slashes s <> t ++ "/".
Proof.
  revert t. induction s as [|c r IH]; intros t.
  - destruct t; discriminate.
  - cbn [strip_trailing_slashes].
    destruct (strip_trailing_slashes r) as [|c' u] eqn:inner.
    + destruct (Ascii.eqb_spec c "/") as [-> | ne].
      * destruct t; discriminate.
      * destruct t as [|x [|y t]]; cbn; try discriminate.
        intros H. injection H as H. contradiction.
    + destruct t as [|x t]; cbn.
      * discriminate.
      * intros H. injection H as _ H. apply (IH t). exact H.
Qed.

Lemma strip_idempotent (s : string) :
  strip_trailing_slashes (strip_trailing_slashes s) = strip_trailing_slashes s.
Proof.
  induction s as [|c r IH]; [reflexivity|].
  cbn [strip_trailing_slashes].
  destruct (strip_trailing_slashes r) as [|c' t] eqn:inner.
  - destruct (Ascii.eqb_spec c "/") as [-> | ne]; [reflexivity|].
    cbn. destruct (Ascii.eqb_spec c "/"); [contradiction | reflexivity].
  - change (strip_trailing_slashes (String c (String c' t)))
      with (match strip_trailing_slashes (String c' t) with
            | EmptyString => if Ascii.eqb c "/" then EmptyString else String c EmptyString
            | String x u => String c (String x u)
            end).
    rewrite IH. reflexivity.
Qed.

(** X1.  [configure] given a string stores it without the slashes at its
    end and changes nothing else of the client.  The string given is the
    endpoint kept followed by slashes only, the endpoint kept ends in no
    slash, configuring again with the endpoint kept changes nothing, and
    every request made afterwards goes to the endpoint kept followed by
    [/zstack] and the path. *)
Theorem configure_strips_trailing_slashes :
  forall (e : string) (w : world),
    let kept := strip_trailing_slashes e in
    configure (Some (JStr e)) w
      = (Ok tt, {| cli := set_endpoint kept (cli w); log := log w |}) /\
    (exists n, e = kept ++ slashes n) /\
    (forall t, kept <> t ++ "/") /\
    fst (configure (Some (JStr kept)) w) = Ok tt /\
    snd (configure (Some (JStr kept)) (snd (configure (Some (JStr e)) w)))
      = snd (configure (Some (JStr e)) w) /\
    (forall (m path : string) (body : option jsval),
        req_url (request_of (cli (snd (configure (Some (JStr e)) w))) m path body)
        = kept ++ "/zstack" ++ path).
Proof.
  intros e w kept. repeat split.
  - apply strip_splits.
  - intros t. apply strip_no_trailing_slash.
  - unfold configure, bind, lift, assign, replace_trailing_slashes. cbn.
    unfold kept. rewrite strip_idempotent. reflexivity.
Qed.

(** ** Login, re-login and the errors of the client *)

Section MoreClientFacts.

Variable rt : runtime.
Variable srv : server.

(** A wrapped request starts with the request itself. *)
Lemma retry_first_request (m path : string) (body : option jsval) (w : world) :
  exists rest,
    log (snd (retry rt srv (do_request rt srv m path body) w))
    = (log w ++ request_of (cli w) m path body :: rest)%list.
Proof.
  rewrite retry_run. unfold do_request at 1. cbv zeta.
  set (r := request_of (cli w) m path body).
  destruct (handled rt (srv (log w) r)) as [v|e].
  { exists []. reflexivity. }
  cbn [cli log].
  destruct (isExpiry e && negb (_relogging (cli w)))%bool.
  2:{ exists []. reflexivity. }
  set (w1 := {| cli := cli w; log := (log w ++ [r])%list |}).
  destruct (relogin_trace rt srv w1) as [_ grows].
  destruct (_relogin rt srv w1) as [[[|]|e'] w2]; cbn [snd] in *;
    unfold w1 in grows; cbn [log] in grows.
  - unfold do_request. cbn [snd log].
    destruct grows as [-> | [l [-> _]]]; rewrite <- ?app_assoc; cbn;
      eexists; reflexivity.
  - destruct grows as [-> | [l [-> _]]]; rewrite <- ?app_assoc; cbn;
      eexists; reflexivity.
  - destruct grows as [-> | [l [-> _]]]; rewrite <- ?app_assoc; cbn;
      eexists; reflexivity.
Qed.

(** A wrapped request whose first answer is a success is that answer,
    after the one request. *)
Lemma retry_first_success (m path : string) (body : option jsval) (w : world)
    (v : json) :
  handled rt (srv (log w) (request_of (cli w) m path body)) = Ok v ->
  retry rt srv (do_request rt srv m path body) w
  = (Ok v, {| cli := cli w; log := (log w ++ [request_of (cli w) m path body])%list |}).
Proof.
  intros fine. rewrite retry_run. unfold do_request. rewrite fine. reflexivity.
Qed.

(** A wrapped request whose first answer is an error that does not read
    as an expired session throws it, after the one request. *)
Lemma retry_plain_error (m path : string) (body : option jsval) (w : world)
    (e : js_error) :
  handled rt (srv (log w) (request_of (cli w) m path body)) = Throw e ->
  isExpiry e = false ->
  retry rt srv (do_request rt srv m path body) w
  = (Throw e, {| cli := cli w; log := (log w ++ [request_of (cli w) m path body])%list |}).
Proof.
  intros failed plain. rewrite retry_run. unfold do_request. rewrite failed, plain.
  reflexivity.
Qed.

End MoreClientFacts.

(** What a re-login adds to the log. *)
Lemma relogin_log (rt : runtime) (srv : server) (w : world) :
  log (snd (_relogin rt srv w))
  = (if (_relogging (cli w) || negb (has_credentials (cli w)))%bool
     then log w
     else log w ++ [relogin_request rt (cli w)])%list.
Proof.
  rewrite relogin_run. cbv zeta.
  destruct (_relogging (cli w) || negb (has_credentials (cli w)))%bool; [reflexivity|].
  destruct (handled rt (srv (log w) (relogin_request rt (cli w)))) as [res|e];
    [|reflexivity].
  destruct (prop (Some res) "inventory"); reflexivity.
Qed.

(** A response that is not [ok] and carries [error.details] throws them. *)
Lemma handle_error_details (rt : runtime) (status : Z) (text : string) (d : json)
    (m : string) :
  res_ok status = false -> parse_json text = Some d ->
  prop_opt (prop_opt (Some d) "error") "details" = Some (JStr m) ->
  m <> "" ->
  _handleResponse rt status text = Throw (Error m).
Proof.
  intros bad parsed details ne. unfold _handleResponse, JSON_parse.
  rewrite bad, parsed, details.
  unfold js_or.
  do 3 (cbn [truthy]; rewrite ?(eqb_empty_false ne); cbv [negb]).
  reflexivity.
Qed.

(** X2.  [_relogin] never throws and leaves [_relogging] as it found it.
    It is refused when a re-login is under way or no account name or
    password is cached: then it sends nothing and answers [false].
    Otherwise it sends one request, a POST to [/zstack/v1/accounts/login]
    that carries no [Authorization] header (the session is dropped first)
    and has the cached account name and the SHA-512 digest of the cached
    password as its body; its answer is [true] exactly when the client
    holds a session afterwards. *)
Theorem relogin_restores_flag_and_reports_session :
  forall (rt : runtime) (srv : server) (w : world),
    let c := cli w in
    let refused := (_relogging c || negb (has_credentials c))%bool in
    let l := relogin_request rt c in
    let w' := snd (_relogin rt srv w) in
    _relogging (cli w') = _relogging c /\
    fst (_relogin rt srv w) = Ok (negb refused && isLoggedIn (cli w'))%bool /\
    log w' = (if refused then log w else log w ++ [l])%list /\
    req_method l = "POST" /\
    req_url l = endpoint c ++ "/zstack/v1/accounts/login" /\
    req_headers l = [("Content-Type", "application/json;charset=UTF-8")] /\
    req_body l
    = Some (JSON_stringify
              (JObj [("logInByAccount",
                      JObj [("accountName", JStr (cached_account c));
                            ("password", JStr (sha512_hex rt (cached_password c)))])])).
Proof.
  intros rt srv w c refused l w'.
  assert (run := relogin_run rt srv w). cbv zeta in run. fold c in run.
  fold refused in run. fold l in run.
  unfold w'. rewrite run. clear run.
  destruct refused eqn:how.
  - cbn [fst snd negb andb].
    repeat split.
  - unfold refused in how. apply orb_false_elim in how. destruct how as [flag _].
    cbn [negb andb].
    destruct (handled rt (srv (log w) l)) as [res|e].
    + destruct (prop (Some res) "inventory") as [inv|e].
      * cbn [fst snd cli log]. unfold isLoggedIn. cbn.
        repeat split; auto.
      * cbn [fst snd cli log]. repeat split; auto.
    + cbn [fst snd cli log]. repeat split; auto.
Qed.

(** X3.  [login] caches the account name and the password it is given
    before it sends anything, so they replace the cached ones whether the
    login succeeds or not, and it sends one request, with the account name
    and the digest of the password.  When it returns a response, that is
    the response of the server, the session is its [inventory.uuid] and the
    client is logged in.  When the request fails, [login] throws the same
    error and the session is the one held before.  When the response is an
    object without a truthy [inventory.uuid], [login] throws the error of
    the missing session and the client is logged out. *)
Theorem login_outcomes :
  forall (rt : runtime) (srv : server) (a p : string) (w : world),
    let l := login_request rt (cli w) a p in
    let w' := snd (login rt srv a p w) in
    _accountName (cli w') = Some a /\
    _password (cli w') = Some p /\
    log w' = (log w ++ [l])%list /\
    req_body l
    = Some (JSON_stringify
              (JObj [("logInByAccount",
                      JObj [("accountName", JStr a);
                            ("password", JStr (sha512_hex rt p))])])) /\
    (forall res : json,
        fst (login rt srv a p w) = Ok res ->
        handled rt (srv (log w) l) = Ok res /\
        sessionId (cli w') = prop_opt (prop_opt (Some res) "inventory") "uuid" /\
        isLoggedIn (cli w') = true) /\
    (forall e : js_error,
        handled rt (srv (log w) l) = Throw e ->
        fst (login rt srv a p w) = Throw e /\
        sessionId (cli w') = sessionId (cli w)) /\
    (forall res : json,
        handled rt (srv (log w) l) = Ok res ->
        truthy (prop_opt (prop_opt (Some res) "inventory") "uuid") = false ->
        res <> JNull ->
        fst (login rt srv a p w) = Throw (Error "登录失败：未获取到 session") /\
        isLoggedIn (cli w') = false).
Proof.
  intros rt srv a p w l w'.
  assert (run := login_run rt srv (retry rt srv) a p w). cbv zeta in run.
  fold l in run.
  change (login_with rt (rawPost_with rt srv (retry rt srv)) a p w)
    with (login rt srv a p w) in run.
  unfold w'. rewrite run. clear run.
  assert (inventory_of : forall (res : json) (inv : jsval),
             prop (Some res) "inventory" = Ok inv ->
             prop_opt (Some res) "inventory" = inv).
  { intros res inv has. destruct res; cbn in has |- *; try discriminate; congruence. }
  destruct (handled rt (srv (log w) l)) as [res|e].
  - destruct (prop (Some res) "inventory") as [inv|e] eqn:has.
    + pose proof (inventory_of res inv has) as same.
      destruct (truthy (prop_opt inv "uuid")) eqn:good; cbn [negb fst snd cli log].
      * do 4 (split; [reflexivity|]). split; [|split].
        -- intros r H. injection H as <-. rewrite same.
           split; [reflexivity|]. split; [reflexivity|].
           unfold isLoggedIn. cbn. exact good.
        -- intros e H. discriminate.
        -- intros r H bad _. injection H as <-. rewrite same in bad. congruence.
      * do 4 (split; [reflexivity|]). split; [|split].
        -- intros r H. discriminate.
        -- intros e H. discriminate.
        -- intros r H bad _. split; [reflexivity|].
           unfold isLoggedIn. cbn. exact good.
    + cbn [fst snd cli log].
      do 4 (split; [reflexivity|]). split; [|split].
      * intros r H. discriminate.
      * intros e' H. discriminate.
      * intros r H bad notnull. injection H as <-.
        destruct res; cbn in has; try discriminate. contradiction.
  - cbn [fst snd cli log].
    do 4 (split; [reflexivity|]). split; [|split].
    + intros r H. discriminate.
    + intros e' H. injection H as <-. split; reflexivity.
    + intros r H. discriminate.
Qed.

(** X3 at work: a login with a wrong password throws the details of the
    server, keeps the session held before and has replaced the cached
    password. *)
Lemma failed_login_example :
  fst (login example_runtime
             (always (Responds 401 (q "{'error':{'details':'wrong password'}}")))
             "admin" "oops" fresh_world)
  = Throw (Error "wrong password") /\
  sessionId (cli (snd (login example_runtime
                         (always (Responds 401 (q "{'error':{'details':'wrong password'}}")))
                         "admin" "oops" fresh_world)))
  = sessionId (cli fresh_world) /\
  _password (cli (snd (login example_runtime
                         (always (Responds 401 (q "{'error':{'details':'wrong password'}}")))
                         "admin" "oops" fresh_world)))
  = Some "oops".
Proof.
  destruct (login_outcomes example_runtime
              (always (Responds 401 (q "{'error':{'details':'wrong password'}}")))
              "admin" "oops" fresh_world)
    as [_ [cached [_ [_ [_ [failed _]]]]]].
  destruct (failed (Error "wrong password")) as [thrown kept];
    [vm_compute; reflexivity|].
  repeat split; assumption.
Defined.

(** X4.  [getVersion] never throws.  Its first request is a PUT to
    [/v1/management-nodes/actions] with the body [{"getVersion":{}}]; a
    successful response is returned as it is, and a failure that does not
    read as an expired session is answered with [{version: 'unknown'}]
    after that one request. *)
Theorem getVersion_never_throws :
  forall (rt : runtime) (srv : server) (w : world),
    let r := request_of (cli w) "PUT" "/v1/management-nodes/actions"
               (Some (Some (JObj [("getVersion", JObj [])]))) in
    let after_one := {| cli := cli w; log := (log w ++ [r])%list |} in
    (exists v, fst (getVersion rt srv w) = Ok v) /\
    (exists rest, log (snd (getVersion rt srv w)) = (log w ++ r :: rest)%list) /\
    req_body r = Some (q "{'getVersion':{}}") /\
    (forall v : json,
        handled rt (srv (log w) r) = Ok v ->
        getVersion rt srv w = (Ok v, after_one)) /\
    (forall e : js_error,
        handled rt (srv (log w) r) = Throw e -> isExpiry e = false ->
        getVersion rt srv w = (Ok (JObj [("version", JStr "unknown")]), after_one)).
Proof.
  intros rt srv w r after_one.
  unfold getVersion, _put, try_catch, ret.
  split; [|split; [|split; [reflexivity|split]]].
  - destruct (retry rt srv _ w) as [[v|e] w1]; eexists; reflexivity.
  - destruct (@retry_first_request rt srv "PUT" "/v1/management-nodes/actions"
                (Some (Some (JObj [("getVersion", JObj [])]))) w) as [rest grown].
    exists rest. fold r in grown. rewrite <- grown.
    destruct (retry rt srv _ w) as [[v|e] w1]; reflexivity.
  - intros v fine.
    rewrite (@retry_first_success rt srv "PUT" "/v1/management-nodes/actions"
               (Some (Some (JObj [("getVersion", JObj [])]))) w v fine).
    reflexivity.
  - intros e failed plain.
    rewrite (@retry_plain_error rt srv "PUT" "/v1/management-nodes/actions"
               (Some (Some (JObj [("getVersion", JObj [])]))) w e failed plain).
    reflexivity.
Qed.

(** X4 at work on a server that answers 500 to everything. *)
Lemma getVersion_example :
  getVersion example_runtime (always (Responds 500 "oops")) fresh_world
  = (Ok (JObj [("version", JStr "unknown")]),
     {| cli := logged_in_client;
        log := [request_of logged_in_client "PUT" "/v1/management-nodes/actions"
                           (Some (Some (JObj [("getVersion", JObj [])])))] |}).
Proof.
  destruct (getVersion_never_throws example_runtime (always (Responds 500 "oops"))
              fresh_world) as [_ [_ [_ [_ fallback]]]].
  apply (fallback (Error "oops")); vm_compute; reflexivity.
Defined.



(** X6.  Whether [_withRetry] logs in again depends on the words of the
    error message, not on the status of the response.  A failed response
    that carries [error.details] is thrown after the one request when the
    details name none of [session], [token], [401], [403], also when the
    status is 401 or 403 and [_isSessionExpired] would say [true]; when the
    details name one of them, the client is not re-logging and holds
    credentials, the request is followed by a login request, whatever the
    status. *)
Theorem retry_goes_by_the_message_not_the_status :
  forall (rt : runtime) (srv : server) (m path : string) (body : option jsval)
         (w : world) (status : Z) (text : string) (data : json) (d : string),
    let r := request_of (cli w) m path body in
    srv (log w) r = Responds status text ->
    res_ok status = false ->
    parse_json text = Some data ->
    prop_opt (prop_opt (Some data) "error") "details" = Some (JStr d) ->
    d <> "" ->
    (isExpiry (Error d) = false ->
     retry rt srv (do_request rt srv m path body) w
     = (Throw (Error d), {| cli := cli w; log := (log w ++ [r])%list |}) /\
     (status = 401%Z \/ status = 403%Z -> _isSessionExpired status (Some data) = true)) /\
    (isExpiry (Error d) = true ->
     _relogging (cli w) = false -> has_credentials (cli w) = true ->
     exists rest,
       log (snd (retry rt srv (do_request rt srv m path body) w))
       = (log w ++ r :: relogin_request rt (cli w) :: rest)%list).
Proof.
  intros rt srv m path body w status text data d r answer bad parsed details ne.
  assert (thrown : handled rt (srv (log w) r) = Throw (Error d)).
  { rewrite answer. cbn [handled].
    apply (@handle_error_details rt status text data d); assumption. }
  split.
  - intros plain. split.
    + apply retry_plain_error; assumption.
    + intros [-> | ->]; reflexivity.
  - intros looks_expired flag creds.
    rewrite retry_run. unfold do_request at 1. cbv zeta. fold r.
    rewrite thrown, looks_expired. cbn [cli]. rewrite flag. cbn [andb negb].
    pose proof (relogin_log rt srv {| cli := cli w; log := (log w ++ [r])%list |})
      as grown.
    cbn [cli log] in grown. rewrite flag, creds in grown. cbn [orb negb] in grown.
    destruct (_relogin rt srv {| cli := cli w; log := (log w ++ [r])%list |})
      as [[[|]|e'] w2]; cbn [snd] in grown |- *.
    + unfold do_request. cbn [snd log]. rewrite grown, <- !app_assoc. cbn.
      eexists. reflexivity.
    + rewrite grown, <- !app_assoc. cbn. eexists. reflexivity.
    + rewrite grown, <- !app_assoc. cbn. eexists. reflexivity.
Qed.

(** X6 at work: a 401 that says [Unauthorized] is thrown at once, and a
    500 whose details contain [token] is followed by a login. *)
Lemma retry_by_message_example :
  (retry example_runtime (always (Responds 401 (q "{'error':{'details':'Unauthorized'}}")))
         (do_request example_runtime
                     (always (Responds 401 (q "{'error':{'details':'Unauthorized'}}")))
                     "GET" "/v1/hosts" None) fresh_world
   = (Throw (Error "Unauthorized"),
      {| cli := logged_in_client;
         log := ([] ++ [request_of logged_in_client "GET" "/v1/hosts" None])%list |}) /\
   _isSessionExpired 401 (Some (JObj [("error", JObj [("details", JStr "Unauthorized")])]))
   = true) /\
  (exists rest,
      log (snd (retry example_runtime
                  (always (Responds 500 (q "{'error':{'details':'Token bucket exhausted'}}")))
                  (do_request example_runtime
                     (always (Responds 500 (q "{'error':{'details':'Token bucket exhausted'}}")))
                     "GET" "/v1/hosts" None) fresh_world))
      = ([] ++ request_of logged_in_client "GET" "/v1/hosts" None
            :: relogin_request example_runtime logged_in_client :: rest)%list).
Proof.
  split.
  - destruct (@retry_goes_by_the_message_not_the_status example_runtime
                (always (Responds 401 (q "{'error':{'details':'Unauthorized'}}")))
                "GET" "/v1/hosts" None fresh_world 401%Z
                (q "{'error':{'details':'Unauthorized'}}")
                (JObj [("error", JObj [("details", JStr "Unauthorized")])])
                "Unauthorized" eq_refl eq_refl eq_refl eq_refl)
      as [plain _]; [discriminate|].
    destruct (plain eq_refl) as [thrown status].
    split; [exact thrown | apply status; left; reflexivity].
  - destruct (@retry_goes_by_the_message_not_the_status example_runtime
                (always (Responds 500 (q "{'error':{'details':'Token bucket exhausted'}}")))
                "GET" "/v1/hosts" None fresh_world 500%Z
                (q "{'error':{'details':'Token bucket exhausted'}}")
                (JObj [("error", JObj [("details", JStr "Token bucket exhausted")])])
                "Token bucket exhausted" eq_refl eq_refl eq_refl eq_refl)
      as [_ keyword]; [discriminate|].
    apply keyword; reflexivity.
Defined.

(** ** Query strings *)

Lemma count_char_app (c : ascii) (a b : string) :
  count_char c (a ++ b) = count_char c a + count_char c b.
Proof. induction a as [|x a IH]; cbn; [reflexivity | rewrite IH; lia]. Qed.

Lemma form_byte_clean (x c : ascii) : In c separators -> count_char c (form_byte x) = 0.
Proof.
  intros [<- | [<- | [<- | [<- | [<- | [<- | []]]]]]];
    destruct x as [[] [] [] [] [] [] [] []]; reflexivity.
Qed.

Lemma form_encode_clean (s : string) (c : ascii) :
  In c separators -> count_char c (form_encode s) = 0.
Proof.
  intros sep. induction s as [|x s IH]; [reflexivity|].
  cbn [form_encode]. rewrite count_char_app, IH, (form_byte_clean x sep). reflexivity.
Qed.

Lemma count_char_join (c sep : ascii) (parts : list string) :
  count_char c (join (String sep EmptyString) parts)
  = fold_right (fun p n => count_char c p + n) 0 parts
    + (if Ascii.eqb sep c then pred (List.length parts) else 0).
Proof.
  induction parts as [|p rest IH].
  - cbn. destruct (Ascii.eqb sep c); reflexivity.
  - destruct rest as [|p' rest].
    + cbn. destruct (Ascii.eqb sep c); lia.
    + change (join (String sep EmptyString) (p :: p' :: rest))
        with (p ++ String sep EmptyString ++ join (String sep EmptyString) (p' :: rest)).
      rewrite !count_char_app, IH. cbn [count_char fold_right List.length pred].
      destruct (Ascii.eqb sep c); lia.
Qed.

Lemma search_params_counts (ps : list (string * string)) :
  count_char "&" (search_params ps) = pred (List.length ps) /\
  count_char "=" (search_params ps) = List.length ps /\
  (forall c, In c ["#"; "?"; "/"; " "]%char -> count_char c (search_params ps) = 0).
Proof.
  unfold search_params.
  assert (inner : forall c : ascii,
             In c separators ->
             fold_right (fun p n => count_char c p + n) 0
               (map (fun kv => form_encode (fst kv) ++ "=" ++ form_encode (snd kv)) ps)
             = if Ascii.eqb "=" c then List.length ps else 0).
  { intros c sep. induction ps as [|[k v] ps IH]; cbn [map fold_right List.length fst snd].
    - destruct (Ascii.eqb "=" c); reflexivity.
    - rewrite IH, !count_char_app, !(form_encode_clean _ sep). cbn [count_char].
      destruct (Ascii.eqb "=" c); lia. }
  split; [|split].
  - rewrite count_char_join, inner by (cbn; auto). cbn. rewrite length_map. reflexivity.
  - rewrite count_char_join, inner by (cbn; auto). cbn. lia.
  - intros c [<- | [<- | [<- | [<- | []]]]];
      rewrite count_char_join, inner by (cbn; auto 10); reflexivity.
Qed.

(** X7.  The query string [query] builds holds one [key=value] pair for
    [limit], one for each condition, one for [start] if it is truthy and
    one for [sort] if [sortBy] is truthy: it has as many [&] as pairs but
    one, one [=] per pair, and no [#], [?], [/] or space, whatever the
    conditions contain; the resource path goes before it unencoded.  The
    text [zql] sends is encoded the same way, free of [&], [=], [#], [?],
    [/] and spaces. *)
Theorem query_string_keeps_its_parameters :
  forall (rt : runtime) (srv : server) (w : world),
    (forall (resourcePath : jsval) (cs : list json)
            (limit start sortBy sortDirection : jsval),
        exists (qs : string) (rest : list request),
          log (snd (query rt srv resourcePath (Some (JArr cs)) limit start sortBy
                          sortDirection w))
          = (log w ++ request_of (cli w) "GET"
                        ("/" ++ to_string resourcePath ++ "?" ++ qs) None :: rest)%list /\
          count_char "&" qs
          = (if truthy start then 1 else 0) + (if truthy sortBy then 1 else 0)
            + List.length cs /\
          count_char "=" qs = S (count_char "&" qs) /\
          Forall (fun c => count_char c qs = 0) ["#"; "?"; "/"; " "]%char) /\
    (forall text : jsval,
        exists (enc : string) (rest : list request),
          log (snd (zql rt srv text w))
          = (log w ++ request_of (cli w) "GET" ("/v1/zql?zql=" ++ enc) None :: rest)%list /\
          Forall (fun c => count_char c enc = 0) separators).
Proof.
  intros rt srv w. split.
  - intros resourcePath cs limit start sortBy sortDirection.
    cbv beta iota zeta delta [query bind lift forEach default_arg _get].
    match goal with
    | |- context [search_params ?ps] => set (params := ps)
    end.
    destruct (@retry_first_request rt srv "GET"
                ("/" ++ to_string resourcePath ++ "?" ++ search_params params) None w)
      as [rest grown].
    exists (search_params params), rest.
    split; [exact grown|].
    destruct (search_params_counts params) as [amps [eqs others]].
    assert (size : List.length params
                   = S ((if truthy start then 1 else 0)
                        + (if truthy sortBy then 1 else 0) + List.length cs)).
    { unfold params. rewrite length_app, length_map.
      assert (same : truthy match start with
                            | Some _ => start
                            | None => Some (JInt 0)
                            end = truthy start) by (destruct start; reflexivity).
      rewrite same.
      destruct (truthy start), (truthy sortBy); cbn; lia. }
    rewrite amps, eqs, size. cbn [pred]. split; [reflexivity|]. split; [reflexivity|].
    apply Forall_forall. exact others.
  - intros text. unfold zql, _get.
    destruct (@retry_first_request rt srv "GET"
                ("/v1/zql?" ++ search_params (params_set "zql" (to_string text) [])) None w)
      as [rest grown].
    exists (form_encode (to_string text)), rest. split.
    + exact grown.
    + apply Forall_forall. intros c sep. apply form_encode_clean. exact sep.
Qed.

(** ** The declared tools and their dispatch *)

Lemma rbind_selects {A} (m : result A) (k : A -> result (option client_call)) :
  (forall a, k a <> Ok None) -> rbind m k <> Ok None.
Proof. intros each. destruct m as [a|e]; cbn; [apply each | discriminate]. Qed.

Ltac selects :=
  repeat (apply rbind_selects; intros ?); discriminate.

(** X8.  The tools declared to the provider and the tools
    [_executeTool] dispatches are the same.  The names declared in [TOOLS]
    are distinct, one per tool; a call of a declared name never reaches the
    [default] branch of the [switch]; a call of any other name does, and a
    connected client answers it with the unknown-tool error and the name.
    [TOOLS_ANTHROPIC] declares the same names with the same schemas. *)
Theorem declared_tools_are_the_tools_dispatched :
  forall (n : string) (args : jsval),
    NoDup (declared_names TOOLS) /\
    List.length (declared_names TOOLS) = List.length TOOLS /\
    (In n (declared_names TOOLS) -> select_call (Some (JStr n)) args <> Ok None) /\
    (~ In n (declared_names TOOLS) ->
     select_call (Some (JStr n)) args = Ok None /\
     forall c : client_view,
       logged_in c = true ->
       _executeTool (Some c) (Some (JStr n)) args
       = Ok (error_object (UNKNOWN_TOOL ++ n))) /\
    (exists ts, TOOLS_ANTHROPIC = Ok ts /\
                declared_names ts = declared_names TOOLS /\
                map declared_schema ts = map declared_schema TOOLS).
Proof.
  intros n args.
  split; [|split; [reflexivity|split; [|split]]].
  - vm_compute.
    repeat (constructor; [cbn; intuition discriminate|]). constructor.
  - intros declared. vm_compute in declared.
    repeat (destruct declared as [<- | declared]; [unfold select_call; cbn; selects|]).
    destruct declared.
  - intros unknown.
    assert (none : select_call (Some (JStr n)) args = Ok None).
    { unfold select_call.
      repeat match goal with
             | |- context [if String.eqb n ?s then _ else _] =>
                 destruct (String.eqb_spec n s) as [-> | ?];
                 [exfalso; apply unknown; vm_compute; auto 30|]
             end.
      reflexivity. }
    split; [exact none|].
    intros c inside. unfold _executeTool. rewrite inside, none. reflexivity.
  - eexists. split; [vm_compute; reflexivity|]. split; vm_compute; reflexivity.
Qed.

(** X8 at work on a declared tool and on a name that is not declared. *)
Lemma declared_and_unknown_tool_example :
  select_call (Some (JStr "start_vm")) (Some (JObj [("uuid", JStr "u")])) <> Ok None /\
  _executeTool (Some (view_of example_runtime example_server fresh_world))
    (Some (JStr "restart_vm")) (Some (JObj [("uuid", JStr "u")]))
  = Ok (error_object (UNKNOWN_TOOL ++ "restart_vm")).
Proof.
  split.
  - apply (@declared_tools_are_the_tools_dispatched "start_vm"
             (Some (JObj [("uuid", JStr "u")]))).
    vm_compute. auto 30.
  - apply (@declared_tools_are_the_tools_dispatched "restart_vm"
             (Some (JObj [("uuid", JStr "u")]))).
    + vm_compute. intuition discriminate.
    + reflexivity.
Defined.

(** X9.  The dispatch of a declared tool reads no argument its schema
    does not declare: two argument objects that agree on the parameters
    declared for the tool select the same client call. *)
Theorem dispatch_reads_declared_parameters_only :
  forall (t : json) (n : string) (fs fs' : list (string * json)),
    In t TOOLS ->
    declared_name t = Some (JStr n) ->
    (forall k, In k (declared_parameters t) -> lookup k fs = lookup k fs') ->
    select_call (Some (JStr n)) (Some (JObj fs))
    = select_call (Some (JStr n)) (Some (JObj fs')).
Proof.
  intros t n fs fs' declared named agree.
  unfold TOOLS in declared.
  repeat (destruct declared as [<- | declared];
          [ vm_compute in named; injection named as <-;
            unfold select_call;
            cbn [prop rbind String.eqb Ascii.eqb Bool.eqb];
            repeat match goal with
                   | |- context [lookup ?k fs] =>
                       rewrite (agree k) by (vm_compute; auto 10)
                   end;
            reflexivity
          | ]).
  destruct declared.
Qed.

(** X9 at work: [stop_vm] declares [uuid] and [type], and a [force]
    beside them changes nothing. *)
Lemma undeclared_argument_example :
  select_call (Some (JStr "stop_vm"))
              (Some (JObj [("uuid", JStr "u"); ("force", JBool true)]))
  = select_call (Some (JStr "stop_vm")) (Some (JObj [("uuid", JStr "u")])).
Proof.
  apply (@dispatch_reads_declared_parameters_only
           (nth 10 TOOLS JNull) "stop_vm"
           [("uuid", JStr "u"); ("force", JBool true)] [("uuid", JStr "u")]).
  - vm_compute. auto 30.
  - reflexivity.
  - intros k declared. vm_compute in declared.
    destruct declared as [<- | [<- | []]]; reflexivity.
Defined.

Lemma nth_error_after {A} (l rest : list A) (r : A) :
  nth_error (l ++ r :: rest) (List.length l) = Some r.
Proof. rewrite nth_error_app2, Nat.sub_diag by lia. reflexivity. Qed.

Lemma wrapped_request_first (rt : runtime) (srv : server) (m path : string)
    (body : option jsval) (w : world) :
  nth_error (log (snd (retry rt srv (do_request rt srv m path body) w)))
            (List.length (log w))
  = Some (request_of (cli w) m path body).
Proof.
  destruct (@retry_first_request rt srv m path body w) as [rest ->].
  apply nth_error_after.
Qed.

(** X10.  The request the virtual-machine tools send first.  [start_vm],
    [stop_vm], [reboot_vm] and [migrate_vm] PUT to
    [/v1/vm-instances/<uuid>/actions] a body with the single key
    [startVmInstance], [stopVmInstance] (with [type], [grace] if absent),
    [rebootVmInstance] and [migrateVm] (with [hostUuid]); [delete_vm]
    sends DELETE to [/v1/vm-instances/<uuid>?deleteMode=Permissive];
    [create_vm] POSTs [{params: ...}] to [/v1/vm-instances].  The uuid is
    put into the path as it is. *)
Theorem vm_tools_on_the_wire :
  forall (rt : runtime) (srv : server) (w : world) (fs : list (string * json)),
    let args := Some (JObj fs) in
    let vm := "/v1/vm-instances/" ++ to_string (lookup "uuid" fs) in
    let sent name := tool_request rt srv w (Some (JStr name)) args in
    let put path body := Some (request_of (cli w) "PUT" path (Some (Some body))) in
    sent "start_vm" = put (vm ++ "/actions") (JObj [("startVmInstance", JObj [])]) /\
    sent "stop_vm"
    = put (vm ++ "/actions")
          (JObj [("stopVmInstance",
                  JObj (field "type" (default_arg (lookup "type" fs)
                                                  (Some (JStr "grace")))))]) /\
    sent "reboot_vm" = put (vm ++ "/actions") (JObj [("rebootVmInstance", JObj [])]) /\
    sent "migrate_vm"
    = put (vm ++ "/actions")
          (JObj [("migrateVm", JObj (field "hostUuid" (lookup "hostUuid" fs)))]) /\
    sent "delete_vm"
    = Some (request_of (cli w) "DELETE" (vm ++ "?deleteMode=Permissive") None) /\
    sent "create_vm"
    = Some (request_of (cli w) "POST" "/v1/vm-instances"
                       (Some (Some (JObj (field "params" (lookup "params" fs)))))).
Proof.
  intros rt srv w fs args vm sent put.
  unfold sent, put, tool_request, args, select_call.
  cbn [prop rbind String.eqb Ascii.eqb Bool.eqb].
  cbv beta iota delta [invoke startVm stopVm rebootVm migrateVm deleteVm createVm
                         action remove _put _delete _rawPost rawPost_with].
  cbn [includes String.prefix Ascii.eqb Bool.eqb orb].
  repeat split; apply wrapped_request_first.
Qed.

Lemma join_from_first (sep a : string) (l : list string) :
  join sep (a :: l) = a ++ fold_right String.append "" (map (fun x => sep ++ x) l).
Proof.
  revert a. induction l as [|b l IH]; intros a.
  - cbn. rewrite append_empty. reflexivity.
  - change (join sep (a :: b :: l)) with (a ++ sep ++ join sep (b :: l)).
    rewrite IH. cbn [map fold_right]. rewrite append_assoc. reflexivity.
Qed.

(** X11.  [zstack_query] with a non-empty resource path, conditions that
    are absent or an array and no truthy [limit], [start] or [sort_by]
    sends first a GET to the path, under [v1/] if it was not, with
    [limit=100] and then one encoded [q] parameter per condition, in their
    order.  A limit of 0 is replaced by 100 like an absent one. *)
Theorem zstack_query_tool_defaults :
  forall (rt : runtime) (srv : server) (w : world) (fs : list (string * json))
         (p : string) (cs : list json),
    lookup "resource_path" fs = Some (JStr p) ->
    p <> "" ->
    js_or (lookup "conditions" fs) (Some (JArr [])) = Some (JArr cs) ->
    truthy (lookup "limit" fs) = false ->
    truthy (lookup "start" fs) = false ->
    truthy (lookup "sort_by" fs) = false ->
    tool_request rt srv w (Some (JStr "zstack_query")) (Some (JObj fs))
    = Some (request_of (cli w) "GET"
              ("/" ++ (if startsWith "v1/" p then p else "v1/" ++ p) ++ "?limit=100"
                   ++ fold_right String.append ""
                        (map (fun c => "&q=" ++ form_encode (to_string (Some c))) cs))
              None).
Proof.
  intros rt srv w fs p cs path ne conds no_limit no_start no_sort.
  unfold tool_request, select_call.
  cbn [prop rbind String.eqb Ascii.eqb Bool.eqb].
  rewrite path, conds.
  assert (fixed : fixPath (Some (JStr p))
                  = Ok (Some (JStr (if startsWith "v1/" p then p else "v1/" ++ p)))).
  { destruct (startsWith "v1/" p) eqn:has.
    - apply fixPath_of_prefixed. exact has.
    - apply fixPath_of_bare; assumption. }
  rewrite fixed. cbn [rbind].
  unfold js_or at 1 2. rewrite no_limit, no_start.
  cbv beta iota zeta delta [invoke query bind lift forEach default_arg _get].
  rewrite no_sort.
  rewrite wrapped_request_first. do 2 f_equal.
  unfold search_params.
  change (truthy (Some (JInt 0))) with false. cbv iota.
  cbn [params_set List.app map fst snd].
  rewrite join_from_first. cbn [fst snd].
  change (form_encode "limit" ++ "=" ++ form_encode (to_string (Some (JInt 100))))
    with "limit=100".
  cbn [to_string to_string_json].
  set (tail := fold_right _ _ _).
  assert (same : tail
                 = fold_right String.append ""
                     (map (fun c => "&q=" ++ form_encode (to_string (Some c))) cs)).
  { unfold tail. rewrite !map_map. reflexivity. }
  rewrite same. clear.
  destruct (startsWith "v1/" p); cbn; rewrite ?append_assoc; reflexivity.
Qed.

(** X11 at work: two conditions and a limit of 0. *)
Lemma zstack_query_tool_example :
  tool_request example_runtime example_server fresh_world (Some (JStr "zstack_query"))
    (Some (JObj [("resource_path", JStr "hosts");
                 ("conditions", JArr [JStr "name=a b"; JStr "state=Running"]);
                 ("limit", JInt 0)]))
  = Some (request_of logged_in_client "GET"
            "/v1/hosts?limit=100&q=name%3Da+b&q=state%3DRunning" None).
Proof.
  apply (@zstack_query_tool_defaults example_runtime example_server fresh_world
           [("resource_path", JStr "hosts");
            ("conditions", JArr [JStr "name=a b"; JStr "state=Running"]);
            ("limit", JInt 0)]
           "hosts" [JStr "name=a b"; JStr "state=Running"]);
    try reflexivity.
  discriminate.
Defined.

(** X12.  [_executeTool] never throws: it returns a value.  Without a
    client, or with one that is not logged in, the value is the
    not-connected error; when the arguments cannot be read, or the client
    method throws, it is an object with the message of the error under
    [error]; and for every declared tool called by a connected client
    with [null] for its arguments, reading the arguments throws a
    [TypeError] and the value is such an object. *)
Theorem executeTool_reports_failures_as_values :
  forall (client : option client_view) (name args : jsval),
    (exists v, _executeTool client name args = Ok v) /\
    (match client with
     | None => True
     | Some c => logged_in c = false
     end ->
     _executeTool client name args = Ok (error_object NOT_CONNECTED)) /\
    (forall (c : client_view) (e : js_error),
        client = Some c -> logged_in c = true ->
        select_call name args = Throw e ->
        _executeTool client name args = Ok (error_object (err_message e))) /\
    (forall (c : client_view) (call : client_call) (e : js_error),
        client = Some c -> logged_in c = true ->
        select_call name args = Ok (Some call) ->
        answer c call = Throw e ->
        _executeTool client name args = Ok (error_object (err_message e))) /\
    (forall (c : client_view) (n : string),
        client = Some c -> logged_in c = true ->
        In n (declared_names TOOLS) ->
        exists e,
          select_call (Some (JStr n)) (Some JNull) = Throw e /\
          err_name e = "TypeError" /\
          _executeTool client (Some (JStr n)) (Some JNull)
          = Ok (error_object (err_message e))).
Proof.
  intros client name args. split; [|split; [|split; [|split]]].
  - apply executeTool_never_throws.
  - destruct client as [c|]; [|reflexivity].
    intros out. unfold _executeTool. rewrite out. reflexivity.
  - intros c e -> inside thrown. unfold _executeTool.
    rewrite inside, thrown. reflexivity.
  - intros c call e -> inside selected thrown.
    rewrite (executeTool_of_outcome c name args inside selected), thrown. reflexivity.
  - intros c n -> inside declared. unfold _executeTool. rewrite inside. cbn [negb].
    vm_compute in declared.
    repeat (destruct declared as [<- | declared];
            [unfold select_call; cbn [prop rbind String.eqb Ascii.eqb Bool.eqb];
             eexists; repeat split|]).
    destruct declared.
Qed.

(** X12 at work: a call without a client, and a call whose request
    fails. *)
Lemma failing_tool_example :
  _executeTool None (Some (JStr "zstack_zql")) (Some (JObj [("zql", JStr "query host")]))
  = Ok (error_object NOT_CONNECTED) /\
  _executeTool (Some (view_of example_runtime example_server fresh_world))
    (Some (JStr "zstack_get"))
    (Some (JObj [("resource_path", JStr "boom"); ("uuid", JStr "u")]))
  = Ok (error_object "it broke").
Proof.
  split.
  - apply (@executeTool_reports_failures_as_values None (Some (JStr "zstack_zql"))
             (Some (JObj [("zql", JStr "query host")]))).
    exact I.
  - apply (proj1 (proj2 (proj2 (proj2
             (@executeTool_reports_failures_as_values
                (Some (view_of example_runtime example_server fresh_world))
                (Some (JStr "zstack_get"))
                (Some (JObj [("resource_path", JStr "boom"); ("uuid", JStr "u")]))))))
           (view_of example_runtime example_server fresh_world)
           (CGet (Some (JStr "v1/boom")) (Some (JStr "u")))
           (Error "it broke")).
    + reflexivity.
    + reflexivity.
    + reflexivity.
    + vm_compute. reflexivity.
Defined.

(** ** Streams: chunks and lines *)

Lemma split_lines_nonempty (s : string) : split_lines s <> [].
Proof.
  induction s as [|c r IH]; cbn [split_lines]; [discriminate|].
  destruct (Ascii.eqb c (ascii_of_nat 10)); [discriminate|].
  destruct (split_lines r); [contradiction | discriminate].
Qed.

Lemma split_lines_cons (c : ascii) (r : string) :
  split_lines (String c r)
  = if Ascii.eqb c (ascii_of_nat 10) then EmptyString :: split_lines r
    else match split_lines r with
         | l :: ls => String c l :: ls
         | [] => [String c EmptyString]
         end.
Proof. reflexivity. Qed.

(** The lines of a text that goes on: the last line of the first part is
    joined to what follows. *)
Lemma split_lines_app (a b : string) :
  split_lines (a ++ b)
  = (removelast (split_lines a)
       ++ split_lines (last (split_lines a) "" ++ b)%string)%list.
Proof.
  induction a as [|c r IH]; [reflexivity|].
  change (String c r ++ b) with (String c (r ++ b)).
  rewrite !split_lines_cons, IH.
  pose proof (split_lines_nonempty r) as some.
  destruct (Ascii.eqb c (ascii_of_nat 10)) eqn:nl.
  - destruct (split_lines r) as [|l ls]; [contradiction|]. reflexivity.
  - destruct (split_lines r) as [|l [|l' ls]]; [contradiction| |].
    + cbn [removelast last List.app].
      change (String c l ++ b) with (String c (l ++ b)).
      rewrite split_lines_cons, nl.
      pose proof (split_lines_nonempty (l ++ b)) as more.
      destruct (split_lines (l ++ b)); [contradiction | reflexivity].
    + reflexivity.
Qed.

Lemma for_of_app {X S} (step : X -> S -> progress S) (a b : list X) (s : S) :
  for_of step (a ++ b)%list s
  = let p := for_of step a s in
    match failure p with
    | Some _ => p
    | None =>
        let p' := for_of step b (reached p) in
        {| reached := reached p';
           emitted := (emitted p ++ emitted p')%list;
           failure := failure p' |}
    end.
Proof.
  revert s. induction a as [|x a IH]; intros s.
  - cbn. destruct (for_of step b s); reflexivity.
  - cbn [List.app for_of].
    destruct (step x s) as [s1 out1 [e|]] eqn:one; cbn [failure reached emitted].
    + reflexivity.
    + rewrite IH. cbv zeta.
      destruct (for_of step a s1) as [s2 out2 [e|]]; cbn [failure reached emitted].
      * reflexivity.
      * rewrite app_assoc. reflexivity.
Qed.

Lemma concat_chunks_cons (chunk : string) (rest : list string) :
  String.concat "" (chunk :: rest) = chunk ++ String.concat "" rest.
Proof. apply concat_fragments_cons. Qed.

Lemma last_line_is_one_line (t : string) :
  split_lines (last (split_lines t) "") = [last (split_lines t) ""].
Proof.
  induction t as [|c r IH]; [reflexivity|].
  rewrite split_lines_cons.
  pose proof (split_lines_nonempty r) as some.
  destruct (Ascii.eqb c (ascii_of_nat 10)) eqn:nl.
  - destruct (split_lines r) as [|l ls]; [contradiction|]. exact IH.
  - destruct (split_lines r) as [|l [|l' ls]]; [contradiction| |].
    + cbn [last] in IH |- *. rewrite split_lines_cons, nl, IH. reflexivity.
    + exact IH.
Qed.

Lemma removelast_app_nonempty {A} (a b : list A) :
  b <> [] -> removelast (a ++ b)%list = (a ++ removelast b)%list.
Proof. intros some. apply removelast_app. exact some. Qed.

(** The loop over the chunks is the loop over the complete lines of the
    text the chunks make up. *)
Lemma read_loop_by_lines {S} (line : string -> S -> progress S)
    (chunks : list string) (fin : read_end) :
  forall (buffer : string) (s : S),
    split_lines buffer = [buffer] ->
    read_loop line chunks fin buffer s
    = after_reads fin
        (for_of line (removelast (split_lines (buffer ++ String.concat "" chunks))) s).
Proof.
  induction chunks as [|chunk rest IH]; intros buffer s one.
  - cbn [read_loop String.concat]. rewrite append_empty, one. cbn.
    destruct fin; reflexivity.
  - cbn [read_loop]. unfold take_lines.
    assert (whole : removelast (split_lines (buffer ++ String.concat "" (chunk :: rest)))
                    = (removelast (split_lines (buffer ++ chunk))
                         ++ removelast
                              (split_lines (last (split_lines (buffer ++ chunk)) ""
                                              ++ String.concat "" rest)))%list).
    { rewrite concat_chunks_cons, <- append_assoc, split_lines_app.
      apply removelast_app_nonempty, split_lines_nonempty. }
    rewrite whole, for_of_app. cbv zeta.
    destruct (for_of line (removelast (split_lines (buffer ++ chunk))) s)
      as [s1 out1 [e|]]; cbn [failure reached emitted].
    + reflexivity.
    + rewrite (IH _ s1 (last_line_is_one_line (buffer ++ chunk))).
      unfold after_reads.
      destruct (for_of line _ s1) as [s2 out2 [e|]]; cbn [failure reached emitted];
        [reflexivity|].
      destruct fin; reflexivity.
Qed.

Lemma read_loop_same_text {S} (line : string -> S -> progress S)
    (chunks chunks' : list string) (fin : read_end) (s : S) :
  String.concat "" chunks = String.concat "" chunks' ->
  read_loop line chunks fin "" s = read_loop line chunks' fin "" s.
Proof.
  intros same. rewrite !read_loop_by_lines by reflexivity. rewrite same. reflexivity.
Qed.

(** X13.  What the streaming adapters return and emit depends on the
    text of the response body only, not on how the network cut it into
    chunks: two sequences of chunks with the same concatenation give the
    same result and the same events, for both protocols. *)
Theorem adapters_ignore_chunk_boundaries :
  forall (rt : runtime) (status : Z) (chunks chunks' : list string) (fin : read_end)
         (fallback : exchange),
    String.concat "" chunks = String.concat "" chunks' ->
    _callOpenAIStream rt (Response status chunks fin) fallback
    = _callOpenAIStream rt (Response status chunks' fin) fallback /\
    _callAnthropicStream rt (Response status chunks fin)
    = _callAnthropicStream rt (Response status chunks' fin).
Proof.
  intros rt status chunks chunks' fin fallback same.
  unfold _callOpenAIStream, _callAnthropicStream, res_text.
  rewrite (read_loop_same_text (openai_line rt) chunks chunks' fin openai_start same).
  rewrite (read_loop_same_text (anthropic_line rt) chunks chunks' fin anthropic_start same).
  rewrite same. split; reflexivity.
Qed.

(** X13 at work: the two chunks of the example stream and the same text
    in one chunk. *)
Lemma chunk_boundaries_example :
  _callAnthropicStream example_runtime
    (Response 200 anthropic_fragment_stream EndOfStream)
  = _callAnthropicStream example_runtime
      (Response 200 [String.concat "" anthropic_fragment_stream] EndOfStream).
Proof.
  apply (@adapters_ignore_chunk_boundaries example_runtime 200%Z
           anthropic_fragment_stream [String.concat "" anthropic_fragment_stream]
           EndOfStream (FetchRejects AbortError)).
  reflexivity.
Defined.

Lemma one_line_goes_on (u v : string) :
  split_lines u = [u] -> count_char newline v = 0 -> split_lines (u ++ v) = [u ++ v].
Proof.
  intros one none. induction u as [|c r IH].
  - clear one. cbn [append]. induction v as [|c v IH]; [reflexivity|].
    rewrite split_lines_cons. cbn [count_char] in none. fold newline.
    destruct (Ascii.eqb c newline); [discriminate|].
    rewrite IH by exact none. reflexivity.
  - change (String c r ++ v) with (String c (r ++ v)).
    rewrite split_lines_cons in one |- *.
    destruct (Ascii.eqb c (ascii_of_nat 10)); [discriminate|].
    pose proof (split_lines_nonempty r) as some.
    destruct (split_lines r) as [|l ls] eqn:inner; [contradiction|].
    injection one as -> ->. rewrite IH by reflexivity. reflexivity.
Qed.

Lemma concat_chunks_last (chunks : list string) (tail : string) :
  String.concat "" (chunks ++ [tail]) = String.concat "" chunks ++ tail.
Proof.
  induction chunks as [|c rest IH]; [reflexivity|].
  cbn [List.app]. rewrite !concat_chunks_cons, IH, append_assoc. reflexivity.
Qed.

Lemma read_loop_unterminated {S} (line : string -> S -> progress S)
    (chunks : list string) (tail : string) (fin : read_end) (s : S) :
  count_char newline tail = 0 ->
  read_loop line (chunks ++ [tail]) fin "" s = read_loop line chunks fin "" s.
Proof.
  intros none. rewrite !read_loop_by_lines by reflexivity.
  rewrite concat_chunks_last. cbn [append].
  rewrite split_lines_app.
  rewrite (one_line_goes_on _ (last_line_is_one_line (String.concat "" chunks)) none).
  rewrite removelast_last. reflexivity.
Qed.

(** X14.  A last chunk without a line feed is never processed: on a
    response that is [ok], the adapters return and emit what they would
    without that chunk.  A stream whose last event is not followed by a
    line feed loses that event. *)
Theorem unterminated_last_line_is_dropped :
  forall (rt : runtime) (status : Z) (chunks : list string) (tail : string)
         (fin : read_end) (fallback : exchange),
    res_ok status = true ->
    count_char newline tail = 0 ->
    _callOpenAIStream rt (Response status (chunks ++ [tail]) fin) fallback
    = _callOpenAIStream rt (Response status chunks fin) fallback /\
    _callAnthropicStream rt (Response status (chunks ++ [tail]) fin)
    = _callAnthropicStream rt (Response status chunks fin).
Proof.
  intros rt status chunks tail fin fallback ok none.
  unfold _callOpenAIStream, _callAnthropicStream. rewrite ok. cbn [negb].
  rewrite !(read_loop_unterminated _ chunks tail fin _ none).
  split; reflexivity.
Qed.

(** X14 at work: the only event of the stream is not followed by a line
    feed, and the answer is empty. *)
Lemma unterminated_last_line_example :
  fst (_callOpenAIStream example_runtime
         (Response 200 [q "data: {'choices':[{'delta':{'content':'Done.'}}]}"] EndOfStream)
         (FetchRejects AbortError))
  = Ok {| content := JStr ""; toolCalls := None;
          raw := JObj [("role", JStr "assistant"); ("content", JNull)] |}.
Proof.
  destruct (@unterminated_last_line_is_dropped example_runtime 200%Z []
              (q "data: {'choices':[{'delta':{'content':'Done.'}}]}") EndOfStream
              (FetchRejects AbortError) eq_refl eq_refl) as [dropped _].
  cbn [List.app] in dropped. rewrite dropped. reflexivity.
Defined.

(** ** Streams: the text that arrives *)

Lemma streamed_text_app (a b : list event) :
  streamed_text (a ++ b) = streamed_text a ++ streamed_text b.
Proof.
  induction a as [|[] a IH]; cbn; try exact IH; [reflexivity|].
  rewrite IH, append_assoc. reflexivity.
Qed.

Lemma only_text_deltas_app (a b : list event) :
  only_text_deltas (a ++ b) = (only_text_deltas a && only_text_deltas b)%bool.
Proof. apply forallb_app. Qed.

Lemma for_of_keeps_account {X S} (text_of : S -> string) (step : X -> S -> progress S) :
  keeps_account text_of step -> forall xs, keeps_account text_of (fun _ : unit => for_of step xs).
Proof.
  intros each xs. unfold keeps_account. intros _.
  induction xs as [|x xs IH]; intros s.
  - cbn. rewrite append_empty. split; reflexivity.
  - cbn [for_of]. destruct (each x s) as [text only].
    destruct (step x s) as [s1 out1 [e|]]; cbn [failure reached emitted] in *.
    + split; assumption.
    + destruct (IH s1) as [text' only'].
      rewrite text', text, streamed_text_app, only_text_deltas_app, only, only',
        append_assoc.
      split; reflexivity.
Qed.

Lemma read_loop_keeps_account {S} (text_of : S -> string)
    (line : string -> S -> progress S) (chunks : list string) (fin : read_end) :
  keeps_account text_of line ->
  forall (buffer : string) (s : S),
    let p := read_loop line chunks fin buffer s in
    text_of (reached p) = text_of s ++ streamed_text (emitted p) /\
    only_text_deltas (emitted p) = true.
Proof.
  intros each. induction chunks as [|chunk rest IH]; intros buffer s; cbv zeta.
  - cbn [read_loop]. destruct fin; cbn; rewrite append_empty; split; reflexivity.
  - cbn [read_loop]. destruct (take_lines buffer chunk) as [lines buffer'].
    destruct (for_of_keeps_account each lines tt s) as [text only].
    destruct (for_of line lines s) as [s1 out1 [e|]]; cbn [failure reached emitted] in *.
    + split; assumption.
    + destruct (IH buffer' s1) as [text' only'].
      rewrite text', text, streamed_text_app, only_text_deltas_app, only, only',
        append_assoc.
      split; reflexivity.
Qed.

Section StreamedText.

Variable rt : runtime.

Lemma openai_line_keeps_account : keeps_account o_content (openai_line rt).
Proof.
  intros line s. unfold openai_line.
  destruct (data_of_line rt _ line) as [chunk|];
    [|cbn; rewrite append_empty; split; reflexivity].
  unfold openai_chunk.
  destruct (prop (Some chunk) "error") as [err|e];
    [|cbn; rewrite append_empty; split; reflexivity].
  destruct (truthy err); [cbn; rewrite append_empty; split; reflexivity|].
  destruct (negb (truthy (prop_opt (first_elem (prop_opt (Some chunk) "choices")) "delta")));
    [cbn; rewrite append_empty; split; reflexivity|].
  set (delta := prop_opt (first_elem (prop_opt (Some chunk) "choices")) "delta").
  assert (base : forall tcs_reached : sparse openai_call,
             (if truthy (prop_opt delta "content")
              then o_content s ++ to_string (prop_opt delta "content")
              else o_content s)
             = o_content s
               ++ streamed_text (if truthy (prop_opt delta "content")
                                 then [text_delta (prop_opt delta "content")] else []) /\
             only_text_deltas (if truthy (prop_opt delta "content")
                               then [text_delta (prop_opt delta "content")] else [])
             = true).
  { intros _. destruct (truthy (prop_opt delta "content")); cbn;
      rewrite ?append_empty; split; reflexivity. }
  destruct (base []) as [text only].
  destruct (truthy (prop_opt delta "tool_calls")).
  - destruct (iterate (prop_opt delta "tool_calls")) as [l|e];
      cbn [reached emitted going broke o_content];
      destruct (truthy (prop_opt delta "content")); cbn [o_content] in *;
        split; assumption.
  - cbn [reached emitted going o_content].
    destruct (truthy (prop_opt delta "content")); cbn [o_content] in *;
      split; assumption.
Qed.

Lemma anthropic_line_keeps_account : keeps_account textContent (anthropic_line rt).
Proof.
  intros line s. unfold anthropic_line.
  destruct (data_of_line rt _ line) as [ev|];
    [|cbn; rewrite append_empty; split; reflexivity].
  unfold anthropic_event.
  repeat match goal with
         | |- context [match ?x with _ => _ end] => destruct x
         | |- context [if ?b then _ else _] => destruct b
         end;
    cbn [reached emitted going broke textContent streamed_text only_text_deltas forallb andb];
    rewrite ?append_empty; split; reflexivity.
Qed.

End StreamedText.

(** X15.  The adapters emit [text_delta] events only, none on a response
    that is not [ok], and the content they return from a stream is the
    concatenation of the texts they emitted, in order. *)
Theorem streamed_text_is_the_answer :
  forall (rt : runtime) (status : Z) (chunks : list string) (fin : read_end)
         (fallback : exchange),
    let o := _callOpenAIStream rt (Response status chunks fin) fallback in
    let a := _callAnthropicStream rt (Response status chunks fin) in
    only_text_deltas (snd o) = true /\
    only_text_deltas (snd a) = true /\
    (res_ok status = false -> snd o = [] /\ snd a = []) /\
    (forall r : response,
        res_ok status = true -> fst o = Ok r ->
        content r = JStr (streamed_text (snd o))) /\
    (forall r : response,
        fst a = Ok r -> content r = JStr (streamed_text (snd a))).
Proof.
  intros rt status chunks fin fallback o a.
  unfold o, a, _callOpenAIStream, _callAnthropicStream.
  destruct (@read_loop_keeps_account _ o_content (openai_line rt) chunks fin
              (openai_line_keeps_account rt) "" openai_start) as [otext oonly].
  destruct (@read_loop_keeps_account _ textContent (anthropic_line rt) chunks fin
              (anthropic_line_keeps_account rt) "" anthropic_start) as [atext aonly].
  cbn [o_content openai_start textContent anthropic_start append] in otext, atext.
  destruct (res_ok status); cbn [negb fst snd].
  - split; [exact oonly|]. split; [exact aonly|]. split; [discriminate|]. split.
    + intros r _.
      destruct (read_loop (openai_line rt) chunks fin "" openai_start)
        as [s out [e|]]; cbn [failure reached emitted] in *.
      * unfold openai_catch.
        destruct (err_name e =? "AbortError"); [discriminate|].
        destruct (negb (o_content s =? "") && (List.length (o_toolCalls s) =? 0)%nat)%bool;
          [|discriminate].
        intros H. injection H as <-. cbn [content]. rewrite otext. reflexivity.
      * intros H. injection H as <-. cbn [content openai_finish]. rewrite otext.
        reflexivity.
    + intros r.
      destruct (read_loop (anthropic_line rt) chunks fin "" anthropic_start)
        as [s out [e|]]; cbn [failure reached emitted] in *.
      * unfold anthropic_catch.
        destruct (err_name e =? "AbortError"); [discriminate|].
        destruct (negb (textContent s =? "")
                  && negb (existsb is_tool_use (entries (contentBlocks s))))%bool;
          [|discriminate].
        intros H. injection H as <-. cbn [content]. rewrite atext. reflexivity.
      * intros H. injection H as <-. cbn [content anthropic_finish]. rewrite atext.
        reflexivity.
  - split; [reflexivity|]. split; [reflexivity|]. split; [split; reflexivity|].
    split; [discriminate|].
    intros r. destruct (res_text chunks fin); discriminate.
Qed.

(** X15 at work on the stream of a final answer. *)
Lemma streamed_text_example :
  fst (_callOpenAIStream example_runtime (Response 200 final_stream EndOfStream)
                         (FetchRejects AbortError))
  = Ok {| content := JStr "Done."; toolCalls := None;
          raw := JObj [("role", JStr "assistant"); ("content", JStr "Done.")] |} /\
  JStr "Done."
  = JStr (streamed_text
            (snd (_callOpenAIStream example_runtime
                    (Response 200 final_stream EndOfStream) (FetchRejects AbortError)))).
Proof.
  split; [vm_compute; reflexivity|].
  destruct (streamed_text_is_the_answer example_runtime 200 final_stream EndOfStream
              (FetchRejects AbortError)) as [_ [_ [_ [said _]]]].
  apply (said {| content := JStr "Done."; toolCalls := None;
                 raw := JObj [("role", JStr "assistant"); ("content", JStr "Done.")] |});
    [reflexivity | vm_compute; reflexivity].
Defined.

(** X16.  When a stream fails with an error that is no abort, before any
    tool call has begun, the round does not fail if some text has arrived:
    that text becomes the answer of [chat] and is stored as the
    assistant's turn, and the error is lost.  If no text has arrived the
    error rejects [chat] and the conversation is left as it was. *)
Theorem broken_stream_answers_with_the_partial_text :
  forall (rt : runtime) (env : environment) (engine : LLMEngine) (i : nat)
         (msgs : list json) (evs heard : list event) (status : Z)
         (chunks : list string) (fin : read_end) (e : js_error),
    aborted_at_top env i = false ->
    (timeoutMs <? clock env (S i) - clock env 0)%Z = false ->
    aborted_after_call env i = false ->
    stream_exchange env i msgs = Response status chunks fin ->
    res_ok status = true ->
    err_name e <> "AbortError" ->
    fails_before_tools rt (isAnthropic engine) chunks fin e heard ->
    (streamed_text heard <> "" ->
     round rt env engine i msgs evs
     = Stop {| ending := Resolved (JStr (streamed_text heard));
               conversation :=
                 (msgs ++ [JObj [("role", JStr "assistant");
                                 ("content", JStr (streamed_text heard))]])%list;
               events := (evs ++ heard)%list |}) /\
    (streamed_text heard = "" ->
     round rt env engine i msgs evs
     = Stop {| ending := Rejected e; conversation := msgs;
               events := (evs ++ heard)%list |}).
Proof.
  intros rt env engine i msgs evs heard status chunks fin e top time after
         exchange ok other failed.
  apply String.eqb_neq in other.
  unfold round, call_adapter, fails_before_tools in *.
  rewrite top, time, exchange.
  destruct (isAnthropic engine); cbv zeta in failed.
  - unfold _callAnthropicStream. rewrite ok. cbn [negb].
    destruct (@read_loop_keeps_account _ textContent (anthropic_line rt) chunks fin
                (anthropic_line_keeps_account rt) "" anthropic_start) as [text _].
    cbn [textContent anthropic_start append] in text.
    destruct (read_loop (anthropic_line rt) chunks fin "" anthropic_start)
      as [s out err]; cbn [failure reached emitted] in *.
    destruct failed as [-> [-> none]].
    unfold anthropic_catch. rewrite other, none, text. cbn [negb andb].
    split; intros said.
    + rewrite (eqb_empty_false said). cbn [negb]. rewrite after. reflexivity.
    + rewrite said. cbn [String.eqb negb andb]. unfold chat_catch. rewrite other.
      reflexivity.
  - unfold _callOpenAIStream. rewrite ok. cbn [negb].
    destruct (@read_loop_keeps_account _ o_content (openai_line rt) chunks fin
                (openai_line_keeps_account rt) "" openai_start) as [text _].
    cbn [o_content openai_start append] in text.
    destruct (read_loop (openai_line rt) chunks fin "" openai_start)
      as [s out err]; cbn [failure reached emitted] in *.
    destruct failed as [-> [-> none]].
    unfold openai_catch. rewrite other, none, text. cbn [List.length Nat.eqb andb].
    rewrite andb_true_r.
    split; intros said.
    + rewrite (eqb_empty_false said). cbn [negb]. rewrite after. reflexivity.
    + rewrite said. cbn [String.eqb negb andb]. unfold chat_catch. rewrite other.
      reflexivity.
Qed.

(** X16 at work: the error chunk that follows the text is not reported. *)
Lemma broken_stream_example :
  round example_runtime broken_environment openai_engine 0
        [JObj [("role", JStr "user"); ("content", JStr "hosts?")]] []
  = Stop {| ending := Resolved (JStr "The hosts a");
            conversation :=
              [JObj [("role", JStr "user"); ("content", JStr "hosts?")];
               JObj [("role", JStr "assistant"); ("content", JStr "The hosts a")]];
            events := [text_delta (Some (JStr "The hosts a"))] |}.
Proof.
  destruct (@broken_stream_answers_with_the_partial_text example_runtime
              broken_environment openai_engine 0
              [JObj [("role", JStr "user"); ("content", JStr "hosts?")]] []
              [text_delta (Some (JStr "The hosts a"))] 200%Z
              [q "data: {'choices':[{'delta':{'content':'The hosts a'}}]}
data: {'error':{'message':'overloaded'}}
"] EndOfStream (Error "overloaded") eq_refl eq_refl eq_refl eq_refl eq_refl)
    as [partial _].
  - discriminate.
  - vm_compute. repeat split.
  - apply partial. discriminate.
Defined.

(** ** The shape of a run *)

Lemma tool_events_app (a b : list event) :
  tool_events (a ++ b) = (tool_events a ++ tool_events b)%list.
Proof. apply filter_app. Qed.

Lemma tool_events_of_text (evs : list event) :
  only_text_deltas evs = true -> tool_events evs = [].
Proof.
  induction evs as [|[] evs IH]; cbn; intros only; try discriminate; auto.
Qed.

Section RunShape.

Variable rt : runtime.
Variable env : environment.
Variable engine : LLMEngine.

Lemma adapter_events_only_text (x fallback : exchange) :
  only_text_deltas (snd (_callOpenAIStream rt x fallback)) = true /\
  only_text_deltas (snd (_callAnthropicStream rt x)) = true.
Proof.
  unfold _callOpenAIStream, _callAnthropicStream.
  destruct x as [e|status chunks fin]; [split; reflexivity|].
  destruct (res_ok status); cbn [negb snd]; [|split; reflexivity].
  split.
  - apply (@read_loop_keeps_account _ o_content (openai_line rt) chunks fin
             (openai_line_keeps_account rt) "" openai_start).
  - apply (@read_loop_keeps_account _ textContent (anthropic_line rt) chunks fin
             (anthropic_line_keeps_account rt) "" anthropic_start).
Qed.

Lemma call_adapter_only_text (i : nat) (msgs : list json) :
  only_text_deltas (snd (call_adapter rt env engine i msgs)) = true.
Proof.
  unfold call_adapter.
  destruct (adapter_events_only_text (stream_exchange env i msgs)
              (plain_exchange env i msgs)) as [o a].
  destruct (isAnthropic engine); assumption.
Qed.

(** What a round comes to. *)
Lemma round_shape (i : nat) (msgs : list json) (evs : list event) :
  match round rt env engine i msgs evs with
  | Continue msgs' evs' =>
      exists (resp : response) (tcs : list object) (names details : list jsval)
             (heard : list event),
        toolCalls resp = Some tcs /\ tcs <> [] /\
        msgs' = (msgs ++ request_turn engine resp
                        :: result_turns engine (results_in_order rt env engine i tcs))%list /\
        evs' = (evs ++ heard ++ [tool_start names details (i + 1);
                                 tool_done names (i + 1)])%list /\
        only_text_deltas heard = true
  | Stop r =>
      exists heard : list event,
        events r = (evs ++ heard)%list /\ only_text_deltas heard = true /\
        (conversation r = msgs \/
         exists c, conversation r = (msgs ++ [final_turn c])%list /\
                   ending r = Resolved c)
  end.
Proof.
  unfold round, stop, chat_catch.
  destruct (aborted_at_top env i).
  { exists []. rewrite app_nil_r. repeat split. left. reflexivity. }
  destruct (timeoutMs <? clock env (S i) - clock env 0)%Z.
  { exists []. rewrite app_nil_r. repeat split. left. reflexivity. }
  pose proof (call_adapter_only_text i msgs) as only.
  destruct (call_adapter rt env engine i msgs) as [[resp|e] heard]; cbn [snd] in only.
  2:{ exists heard. repeat split; [exact only | left; reflexivity]. }
  destruct (aborted_after_call env i).
  { exists heard. repeat split; [exact only | left; reflexivity]. }
  destruct (toolCalls resp) as [[|tc tcs]|] eqn:calls.
  - exists heard. repeat split; [exact only|]. right. eexists. split; reflexivity.
  - destruct (toolNames engine (tc :: tcs)) as [names|e]; cbn [rbind].
    2:{ exists heard. repeat split; [exact only | left; reflexivity]. }
    destruct (toolDetails rt engine (tc :: tcs)) as [details|e]; cbn [rbind].
    2:{ exists heard. repeat split; [exact only | left; reflexivity]. }
    rewrite Promise_all_in_order.
    exists resp, (tc :: tcs), names, details, heard.
    split; [exact calls|]. split; [discriminate|]. split.
    + rewrite <- app_assoc. reflexivity.
    + split; [|exact only]. rewrite <- !app_assoc. reflexivity.
  - exists heard. repeat split; [exact only|]. right. eexists. split; reflexivity.
Qed.

End RunShape.

Section LoopShape.

Variable rt : runtime.
Variable env : environment.
Variable engine : LLMEngine.

Lemma chat_loop_shape (rounds : nat) :
  forall (i : nat) (msgs : list json) (evs : list event),
    let r := chat_loop rt env engine rounds i msgs evs in
    exists (blocks : list (response * list object))
           (tools : list (list jsval * list jsval)) (final : list json),
      conversation r
      = (msgs ++ flat_map (round_turns rt env engine) (numbered i blocks) ++ final)%list /\
      tool_events (events r)
      = (tool_events evs ++ flat_map round_events (numbered i tools))%list /\
      List.length tools = List.length blocks /\
      List.length blocks <= rounds /\
      Forall (fun b => toolCalls (fst b) = Some (snd b) /\ snd b <> []) blocks /\
      (final = [] \/ exists c, final = [final_turn c] /\ ending r = Resolved c).
Proof.
  induction rounds as [|n IH]; intros i msgs evs; cbv zeta.
  - exists [], [], []. cbn. rewrite !app_nil_r.
    repeat split; auto.
  - cbn [chat_loop]. pose proof (round_shape rt env engine i msgs evs) as shape.
    destruct (round rt env engine i msgs evs) as [r | msgs' evs'].
    + destruct shape as [heard [said [only ended]]].
      destruct ended as [same | [c [same answer]]].
      * exists [], [], []. cbn. rewrite !app_nil_r, said, tool_events_app,
          (tool_events_of_text _ only), app_nil_r.
        repeat split; auto; lia.
      * exists [], [], [final_turn c]. cbn. rewrite !app_nil_r, said, tool_events_app,
          (tool_events_of_text _ only), app_nil_r.
        repeat split; auto; try lia. right. exists c. split; [reflexivity | exact answer].
    + destruct shape as [resp [tcs [names [details [heard [calls [some [-> [-> only]]]]]]]]].
      destruct (IH (S i)
                  (msgs ++ request_turn engine resp
                        :: result_turns engine (results_in_order rt env engine i tcs))%list
                  (evs ++ heard ++ [tool_start names details (i + 1);
                                    tool_done names (i + 1)])%list)
        as [blocks [tools [final [turns [evts [same [short [each ended]]]]]]]].
      exists ((resp, tcs) :: blocks), ((names, details) :: tools), final.
      split; [|split; [|split; [|split; [|split]]]].
      * rewrite turns. unfold numbered. cbn [List.length seq combine flat_map].
        unfold round_turns at 2. cbn [fst snd].
        rewrite <- !app_assoc. reflexivity.
      * rewrite evts, !tool_events_app, (tool_events_of_text _ only).
        unfold numbered. cbn [List.length seq combine flat_map].
        unfold round_events at 2. cbn [fst snd tool_events filter List.app].
        rewrite <- !app_assoc. reflexivity.
      * cbn. lia.
      * cbn. lia.
      * constructor; [split; assumption | exact each].
      * exact ended.
Qed.

End LoopShape.

(** X17.  The conversation after [chat] is the conversation before, the
    user message, then for each round that ran tools (at most 100) the
    assistant's turn with the calls followed at once by the results of
    exactly these calls, one per call and in their order, and last the
    assistant's answer if [chat] resolved with the content of a response,
    nothing otherwise. *)
Theorem transcript_keeps_calls_and_results_together :
  forall (rt : runtime) (env : environment) (engine : LLMEngine) (userMessage : string),
    let r := chat rt env engine userMessage in
    exists (blocks : list (response * list object)) (final : list json),
      conversation r
      = ((messages engine
            ++ [JObj [("role", JStr "user"); ("content", JStr userMessage)]])
           ++ flat_map (round_turns rt env engine) (numbered 0 blocks) ++ final)%list /\
      List.length blocks <= 100 /\
      Forall (fun b => toolCalls (fst b) = Some (snd b) /\ snd b <> []) blocks /\
      Forall (fun kb : nat * (response * list object) =>
                let results := results_in_order rt env engine (fst kb) (snd (snd kb)) in
                tool_results_of (result_turns engine results) = results /\
                List.length results = List.length (snd (snd kb)))
             (numbered 0 blocks) /\
      (final = [] \/ exists c, final = [final_turn c] /\ ending r = Resolved c).
Proof.
  intros rt env engine userMessage r.
  destruct (chat_loop_shape rt env engine maxRounds 0
              (messages engine
                 ++ [JObj [("role", JStr "user"); ("content", JStr userMessage)]])%list [])
    as [blocks [tools [final [turns [_ [_ [short [each ended]]]]]]]].
  exists blocks, final.
  split; [exact turns|]. split; [exact short|]. split; [exact each|].
  split; [|exact ended].
  apply Forall_forall. intros [k b] _. cbn [fst snd]. split.
  - apply tool_results_of_round.
  - apply results_in_order_length.
Qed.

(** X18.  The events of [chat] that are no text are, for each round that
    ran tools and in the order of the rounds, a [tool_start] followed by
    the [tool_done] of the same round with the same tool names; rounds are
    numbered from 1 and are at most 100. *)
Theorem tool_events_come_in_pairs :
  forall (rt : runtime) (env : environment) (engine : LLMEngine) (userMessage : string),
    exists tools : list (list jsval * list jsval),
      tool_events (events (chat rt env engine userMessage))
      = flat_map round_events (numbered 0 tools) /\
      List.length tools <= 100.
Proof.
  intros rt env engine userMessage.
  destruct (chat_loop_shape rt env engine maxRounds 0
              (messages engine
                 ++ [JObj [("role", JStr "user"); ("content", JStr userMessage)]])%list [])
    as [blocks [tools [final [_ [evts [same [short _]]]]]]].
  exists tools. split; [exact evts|]. rewrite same. exact short.
Qed.

(** ** The descriptions of tool calls *)

Lemma type_errors_ok {A} (a : A) : type_errors_only (Ok a).
Proof. intros e H. discriminate. Qed.

Lemma type_errors_thrown {A} (msg : string) : type_errors_only (@Throw A (TypeError msg)).
Proof. intros e H. injection H as <-. reflexivity. Qed.

Lemma type_errors_bind {A B} (m : result A) (k : A -> result B) :
  type_errors_only m -> (forall a, type_errors_only (k a)) ->
  type_errors_only (rbind m k).
Proof.
  intros first then_ e. destruct m as [a|e']; cbn.
  - apply then_.
  - intros H. injection H as <-. apply first. reflexivity.
Qed.

Lemma type_errors_prop (o : jsval) (k : string) : type_errors_only (prop o k).
Proof.
  destruct o as [[]|]; cbn; first [apply type_errors_ok | apply type_errors_thrown].
Qed.

Lemma type_errors_slice (v : jsval) (n : nat) : type_errors_only (slice_method v n).
Proof.
  destruct v as [[]|]; cbn; first [apply type_errors_ok | apply type_errors_thrown].
Qed.

Lemma type_errors_join (v : jsval) (sep : string) : type_errors_only (join_method v sep).
Proof.
  destruct v as [[]|]; cbn; first [apply type_errors_ok | apply type_errors_thrown].
Qed.

Ltac type_errors :=
  repeat first
    [ apply type_errors_ok
    | apply type_errors_thrown
    | apply type_errors_prop
    | apply type_errors_slice
    | apply type_errors_join
    | apply type_errors_bind; [|intros ?]
    | match goal with
      | |- type_errors_only (if ?b then _ else _) => destruct b
      | |- type_errors_only (match ?x with _ => _ end) => destruct x
      end ].

Lemma formatToolDetail_type_errors (name : jsval) (args : json) :
  type_errors_only (_formatToolDetail name args).
Proof. unfold _formatToolDetail. type_errors. Qed.

Lemma mapM_type_errors {X Y} (f : X -> result Y) (xs : list X) :
  (forall x, type_errors_only (f x)) -> type_errors_only (mapM f xs).
Proof.
  intros each. induction xs as [|x xs IH]; cbn [mapM]; type_errors.
  - apply each.
  - exact IH.
Qed.

Lemma mapM_throws {X Y} (f : X -> result Y) (xs : list X) (x : X) (e : js_error) :
  In x xs -> f x = Throw e -> exists e', mapM f xs = Throw e'.
Proof.
  intros inside thrown. induction xs as [|y xs IH]; [destruct inside|].
  cbn [mapM]. destruct inside as [-> | later].
  - rewrite thrown. eexists. reflexivity.
  - destruct (f y); cbn [rbind]; [|eexists; reflexivity].
    destruct (IH later) as [e' ->]. eexists. reflexivity.
Qed.

Lemma openai_toolDetails (rt : runtime) (engine : LLMEngine) (tcs : list object) :
  isAnthropic engine = false ->
  toolDetails rt engine tcs = mapM (openai_described rt) tcs.
Proof. intros openai. unfold toolDetails. rewrite openai. reflexivity. Qed.

(** X19.  On the OpenAI path, describing the calls of a round never
    fails once their names can be read: there is one description per call,
    the line of [_formatToolDetail] where the arguments parse and the line
    can be made, and the name of the tool where they do not. *)
Theorem openai_details_fall_back_to_the_name :
  forall (rt : runtime) (engine : LLMEngine) (tcs : list object) (names : list jsval),
    isAnthropic engine = false ->
    toolNames engine tcs = Ok names ->
    exists details : list jsval,
      toolDetails rt engine tcs = Ok details /\
      List.length details = List.length tcs /\
      forall (k : nat) (tc : object),
        nth_error tcs k = Some tc ->
        nth_error details k
        = match openai_detail rt tc with
          | Ok d => Some (Some (JStr d))
          | Throw _ => nth_error names k
          end.
Proof.
  intros rt engine tcs names openai.
  rewrite (openai_toolDetails rt engine tcs openai).
  unfold toolNames. rewrite openai.
  revert names. induction tcs as [|tc tcs IH]; intros names named.
  - exists []. repeat split. intros [|k] tc H; discriminate.
  - cbn [mapM] in named |- *.
    destruct (function_prop tc "name") as [name|] eqn:has; cbn [rbind] in named;
      [|discriminate].
    destruct (mapM (fun tc0 => function_prop tc0 "name") tcs) as [rest|] eqn:others;
      cbn [rbind] in named; [|discriminate].
    injection named as <-.
    destruct (IH rest eq_refl) as [details [made [same each]]].
    rewrite made. unfold openai_described at 1. rewrite has.
    exists ((match openai_detail rt tc with
             | Ok d => Some (JStr d)
             | Throw _ => name
             end) :: details).
    split; [|split].
    + destruct (openai_detail rt tc); reflexivity.
    + cbn. rewrite same. reflexivity.
    + intros [|k] tc' at_k; cbn [nth_error] in at_k |- *.
      * injection at_k as <-. destruct (openai_detail rt tc); reflexivity.
      * apply each. exact at_k.
Qed.

(** X19 at work: the arguments of the second call do not parse, and its
    description is its name. *)
Lemma openai_details_example :
  toolDetails example_runtime openai_engine
    [[("id", JStr "c1");
      ("function", JObj [("name", JStr "zstack_zql");
                         ("arguments", JStr (q "{'zql':'query host'}"))])];
     [("id", JStr "c2");
      ("function", JObj [("name", JStr "zstack_get");
                         ("arguments", JStr (q "{'uuid':"))])]]
  = Ok [Some (JStr "ZQL: query host"); Some (JStr "zstack_get")].
Proof.
  destruct (@openai_details_fall_back_to_the_name example_runtime openai_engine
              [[("id", JStr "c1");
                ("function", JObj [("name", JStr "zstack_zql");
                                   ("arguments", JStr (q "{'zql':'query host'}"))])];
               [("id", JStr "c2");
                ("function", JObj [("name", JStr "zstack_get");
                                   ("arguments", JStr (q "{'uuid':"))])]]
              [Some (JStr "zstack_zql"); Some (JStr "zstack_get")]
              eq_refl eq_refl)
    as [details [made _]].
  rewrite made. vm_compute in made. injection made as <-. reflexivity.
Defined.

(** X20.  On the Anthropic path the descriptions are made without a
    [catch]: when [_formatToolDetail] throws on one of the calls of a
    round, [chat] rejects with a [TypeError], nothing is added to the
    conversation and the events are those of the stream alone, so no tool
    has run.  [_formatToolDetail] throws on [zstack_get], [zstack_delete]
    and [zstack_update] when the uuid is a number other than zero. *)
Theorem anthropic_round_rejects_on_an_undescribable_call :
  forall (rt : runtime) (env : environment) (engine : LLMEngine) (i : nat)
         (msgs : list json) (evs heard : list event) (resp : response)
         (tcs : list object) (tc : object) (thrown : js_error),
    isAnthropic engine = true ->
    aborted_at_top env i = false ->
    (timeoutMs <? clock env (S i) - clock env 0)%Z = false ->
    call_adapter rt env engine i msgs = (Ok resp, heard) ->
    aborted_after_call env i = false ->
    toolCalls resp = Some tcs ->
    In tc tcs ->
    anthropic_detail tc = Throw thrown ->
    (exists e,
        err_name e = "TypeError" /\
        round rt env engine i msgs evs
        = Stop {| ending := Rejected e; conversation := msgs;
                  events := (evs ++ heard)%list |}) /\
    (forall (name : string) (fs : list (string * json)) (m x : Z),
        In name ["zstack_get"; "zstack_delete"; "zstack_update"] ->
        lookup "uuid" fs = Some (JNum m x) -> m <> 0%Z ->
        exists e,
          _formatToolDetail (Some (JStr name)) (JObj fs) = Throw e /\
          err_name e = "TypeError").
Proof.
  intros rt env engine i msgs evs heard resp tcs tc thrown anthropic top time called
         after calls inside bad.
  split.
  - assert (fails : exists e, toolDetails rt engine tcs = Throw e).
    { unfold toolDetails. rewrite anthropic.
      apply (@mapM_throws _ _ _ tcs tc thrown inside).
      fold (anthropic_detail tc). rewrite bad. reflexivity. }
    destruct fails as [e fails].
    assert (kind : err_name e = "TypeError").
    { revert fails. unfold toolDetails. rewrite anthropic.
      apply mapM_type_errors. intros tc'. type_errors.
      apply formatToolDetail_type_errors. }
    exists e. split; [exact kind|].
    unfold round. rewrite top, time, called, after, calls.
    destruct tcs as [|tc0 tcs]; [destruct inside|].
    unfold toolNames at 1. rewrite anthropic. cbn [rbind]. rewrite fails.
    cbn [rbind]. unfold chat_catch. rewrite kind. reflexivity.
  - intros name fs m x which uuid nonzero.
    assert (truthy_uuid : truthy (Some (JNum m x)) = true).
    { cbn. apply negb_true_iff, Z.eqb_neq. exact nonzero. }
    destruct which as [<- | [<- | [<- | []]]];
      unfold _formatToolDetail; cbn [String.eqb Ascii.eqb Bool.eqb prop rbind];
      rewrite uuid; unfold js_or at 1; rewrite truthy_uuid;
      eexists; split; reflexivity.
Qed.

(** X20 at work: [zstack_get] with the uuid 5. *)
Lemma undescribable_call_example :
  exists e,
    err_name e = "TypeError" /\
    round example_runtime numeric_uuid_environment anthropic_engine 0
          [JObj [("role", JStr "user"); ("content", JStr "host 5?")]] []
    = Stop {| ending := Rejected e;
              conversation := [JObj [("role", JStr "user"); ("content", JStr "host 5?")]];
              events := [] |}.
Proof.
  destruct (@anthropic_round_rejects_on_an_undescribable_call example_runtime
              numeric_uuid_environment anthropic_engine 0
              [JObj [("role", JStr "user"); ("content", JStr "host 5?")]] [] []
              {| content := JStr "";
                 toolCalls := Some [[("id", JStr "t1"); ("name", JStr "zstack_get");
                                     ("input", JObj [("resource_path", JStr "hosts");
                                                     ("uuid", JInt 5)])]];
                 raw := JArr [JObj [("type", JStr "tool_use"); ("id", JStr "t1");
                                    ("name", JStr "zstack_get");
                                    ("input", JObj [("resource_path", JStr "hosts");
                                                    ("uuid", JInt 5)])]] |}
              [[("id", JStr "t1"); ("name", JStr "zstack_get");
                ("input", JObj [("resource_path", JStr "hosts"); ("uuid", JInt 5)])]]
              [("id", JStr "t1"); ("name", JStr "zstack_get");
               ("input", JObj [("resource_path", JStr "hosts"); ("uuid", JInt 5)])]
              (TypeError "(intermediate value).slice is not a function")
              eq_refl eq_refl eq_refl)
    as [[e [kind rejected]] _].
  - vm_compute. reflexivity.
  - reflexivity.
  - reflexivity.
  - left. reflexivity.
  - reflexivity.
  - exists e. split; [exact kind | exact rejected].
Defined.

(** ** Errors of the provider *)

(** X21.  A response of the provider that is not [ok], and that is not
    taken for a refusal to stream, rejects [chat] with an [Error] and
    leaves the conversation and the events as they were.  The message is
    the whole body when the body is no JSON, and [error.message] when the
    body has a non-empty one. *)
Theorem provider_error_rejects_chat :
  forall (rt : runtime) (env : environment) (engine : LLMEngine) (i : nat)
         (msgs : list json) (evs : list event) (status : Z) (chunks : list string)
         (m : string),
    aborted_at_top env i = false ->
    (timeoutMs <? clock env (S i) - clock env 0)%Z = false ->
    stream_exchange env i msgs = Response status chunks EndOfStream ->
    res_ok status = false ->
    error_message_of rt (String.concat "" chunks) = Some (JStr m) ->
    isAnthropic engine = true \/ asks_for_fallback rt (String.concat "" chunks) = false ->
    round rt env engine i msgs evs
    = Stop {| ending := Rejected (Error m); conversation := msgs; events := evs |} /\
    (parse_json (String.concat "" chunks) = None -> m = String.concat "" chunks) /\
    (forall (data : json) (said : string),
        parse_json (String.concat "" chunks) = Some data ->
        data <> JNull ->
        prop_opt (prop_opt (Some data) "error") "message" = Some (JStr said) ->
        said <> "" ->
        m = said).
Proof.
  intros rt env engine i msgs evs status chunks m top time exchange bad message how.
  split; [|split].
  - unfold round, call_adapter. rewrite top, time, exchange.
    destruct how as [anthropic | stays].
    + rewrite anthropic. unfold _callAnthropicStream. rewrite bad.
      cbn [negb res_text rbind]. rewrite message. cbn [new_Error to_string to_string_json].
      rewrite app_nil_r. reflexivity.
    + destruct (isAnthropic engine).
      * unfold _callAnthropicStream. rewrite bad.
        cbn [negb res_text rbind]. rewrite message.
        cbn [new_Error to_string to_string_json]. rewrite app_nil_r. reflexivity.
      * unfold _callOpenAIStream. rewrite bad. cbn [negb res_text rbind].
        unfold asks_for_fallback in stays. rewrite message in stays |- *.
        cbn [toLowerCase_method rbind] in stays |- *. rewrite stays.
        cbn [new_Error to_string to_string_json]. rewrite app_nil_r. reflexivity.
  - intros unparsed. unfold error_message_of, JSON_parse in message.
    rewrite unparsed in message. cbn in message. congruence.
  - intros data said parsed notnull carried ne.
    unfold error_message_of, JSON_parse in message. rewrite parsed in message.
    cbn [rbind] in message.
    assert (err : prop (Some data) "error" = Ok (prop_opt (Some data) "error")).
    { destruct data; try reflexivity. contradiction. }
    rewrite err in message. cbn [rbind] in message. rewrite carried in message.
    unfold js_or in message. cbn [truthy] in message.
    rewrite (eqb_empty_false ne) in message. cbn in message. congruence.
Qed.

(** X21 at work: a wrong API key. *)
Lemma provider_error_example :
  round example_runtime
    {| clock := fun k => Z.of_nat k;
       aborted_at_top := fun _ => false;
       aborted_after_call := fun _ => false;
       stream_exchange := fun _ _ =>
         Response 401 [q "{'error':{'message':'Incorrect API key'}}"] EndOfStream;
       plain_exchange := fun _ _ => FetchRejects (Error "not asked");
       zstackClient := fun _ _ => None;
       completion := fun _ k => k |}
    openai_engine 0 [JObj [("role", JStr "user"); ("content", JStr "hi")]] []
  = Stop {| ending := Rejected (Error "Incorrect API key");
            conversation := [JObj [("role", JStr "user"); ("content", JStr "hi")]];
            events := [] |}.
Proof.
  apply (@provider_error_rejects_chat example_runtime _ openai_engine 0
           [JObj [("role", JStr "user"); ("content", JStr "hi")]] [] 401%Z
           [q "{'error':{'message':'Incorrect API key'}}"] "Incorrect API key");
    try reflexivity.
  right. reflexivity.
Defined.

(** X22.  On the OpenAI path, when the provider refuses the streaming
    request in words that ask for the fallback, the request is made again
    without streaming: a successful reply with a message that has content
    and no tool calls ends the round with that content as the answer, and
    no event is emitted for it. *)
Theorem stream_refusal_is_retried_without_streaming :
  forall (rt : runtime) (env : environment) (engine : LLMEngine) (i : nat)
         (msgs : list json) (evs : list event) (status status' : Z)
         (chunks chunks' : list string) (fs ch m : list (string * json))
         (others : list json) (c : string),
    isAnthropic engine = false ->
    aborted_at_top env i = false ->
    (timeoutMs <? clock env (S i) - clock env 0)%Z = false ->
    aborted_after_call env i = false ->
    stream_exchange env i msgs = Response status chunks EndOfStream ->
    res_ok status = false ->
    asks_for_fallback rt (String.concat "" chunks) = true ->
    plain_exchange env i msgs = Response status' chunks' EndOfStream ->
    res_ok status' = true ->
    parse_json (String.concat "" chunks') = Some (JObj fs) ->
    truthy (lookup "error" fs) = false ->
    lookup "choices" fs = Some (JArr (JObj ch :: others)) ->
    lookup "message" ch = Some (JObj m) ->
    lookup "tool_calls" m = None ->
    lookup "content" m = Some (JStr c) ->
    call_adapter rt env engine i msgs
    = (Ok {| content := JStr c; toolCalls := None; raw := JObj m |}, []) /\
    round rt env engine i msgs evs
    = Stop {| ending := Resolved (JStr c);
              conversation := (msgs ++ [final_turn (JStr c)])%list;
              events := evs |}.
Proof.
  intros rt env engine i msgs evs status status' chunks chunks' fs ch m others c
         openai top time after exchange bad refused plain ok parsed fine choices
         message no_calls said.
  assert (called : call_adapter rt env engine i msgs
                   = (Ok {| content := JStr c; toolCalls := None; raw := JObj m |}, [])).
  { unfold call_adapter. rewrite openai, exchange, plain.
    unfold _callOpenAIStream. rewrite bad. cbn [negb res_text rbind].
    unfold asks_for_fallback in refused.
    destruct (toLowerCase_method (error_message_of rt (String.concat "" chunks)))
      as [lower|e]; [|discriminate].
    cbn [rbind]. rewrite refused.
    unfold _callOpenAINonStream. rewrite ok. cbn [negb res_text rbind].
    unfold JSON_parse. rewrite parsed. cbn [rbind prop]. rewrite fine, choices.
    cbn [rbind first_elem prop]. rewrite message. cbn [rbind prop].
    rewrite no_calls, said. cbn [rbind spread].
    assert (kept : filter (fun kv : string * json => negb (fst kv =? "tool_calls")) m = m).
    { clear - no_calls. induction m as [|[k v] m IH]; [reflexivity|].
      cbn [lookup] in no_calls. cbn [filter fst].
      destruct (k =? "tool_calls"); [discriminate|]. cbn [negb].
      rewrite IH by exact no_calls. reflexivity. }
    assert (text : match js_or (Some (JStr c)) (Some (JStr "")) with
                   | Some j => j
                   | None => JStr ""
                   end = JStr c).
    { unfold js_or. cbn [truthy]. destruct (c =? "") eqn:empty; cbn [negb].
      - apply String.eqb_eq in empty. subst c. reflexivity.
      - reflexivity. }
    rewrite kept, text. reflexivity. }
  split; [exact called|].
  unfold round. rewrite top, time, called, after. cbn [toolCalls content].
  rewrite app_nil_r. reflexivity.
Qed.

(** X22 at work. *)
Lemma stream_refusal_example :
  round example_runtime
    {| clock := fun k => Z.of_nat k;
       aborted_at_top := fun _ => false;
       aborted_after_call := fun _ => false;
       stream_exchange := fun _ _ =>
         Response 400 [q "{'error':{'message':'Streaming is not supported with tools'}}"]
                  EndOfStream;
       plain_exchange := fun _ _ =>
         Response 200 [q "{'choices':[{'message':{'role':'assistant','content':'Two hosts.'}}]}"]
                  EndOfStream;
       zstackClient := fun _ _ => None;
       completion := fun _ k => k |}
    openai_engine 0 [JObj [("role", JStr "user"); ("content", JStr "hosts?")]] []
  = Stop {| ending := Resolved (JStr "Two hosts.");
            conversation := [JObj [("role", JStr "user"); ("content", JStr "hosts?")];
                             JObj [("role", JStr "assistant");
                                   ("content", JStr "Two hosts.")]];
            events := [] |}.
Proof.
  apply (@stream_refusal_is_retried_without_streaming example_runtime _ openai_engine 0
           [JObj [("role", JStr "user"); ("content", JStr "hosts?")]] [] 400%Z 200%Z
           [q "{'error':{'message':'Streaming is not supported with tools'}}"]
           [q "{'choices':[{'message':{'role':'assistant','content':'Two hosts.'}}]}"]
           [("choices", JArr [JObj [("message", JObj [("role", JStr "assistant");
                                                      ("content", JStr "Two hosts.")])]])]
           [("message", JObj [("role", JStr "assistant"); ("content", JStr "Two hosts.")])]
           [("role", JStr "assistant"); ("content", JStr "Two hosts.")]
           [] "Two hosts.");
    reflexivity.
Defined.

(** ** Addresses of the providers *)

Lemma strip_one_of_slash (b : string) : strip_one_trailing_slash (b ++ "/") = b.
Proof.
  induction b as [|c b IH]; [reflexivity|].
  cbn [append strip_one_trailing_slash]. rewrite IH.
  destruct b; reflexivity.
Qed.

(** X23.  Only the provider [anthropic] takes the Anthropic path.  With
    no base address configured, an OpenAI-compatible provider posts to
    [/chat/completions] under its own address of [BASE_URLS]; a provider
    that is not listed posts to the address of OpenAI, unless its name is
    one every object answers to ([constructor], [toString], ...), for which
    building the address throws a [TypeError].  A configured base address
    is used for every provider, without one slash at its end. *)
Theorem providers_are_routed_by_name :
  forall (engine : LLMEngine) (p b : string),
    (isAnthropic engine = true <-> provider engine = "anthropic") /\
    (OPENAI_COMPAT p = true ->
     exists u, lookup p BASE_URLS = Some (JStr u) /\
               openai_url p "" = Ok (u ++ "/chat/completions")) /\
    (lookup p BASE_URLS = None ->
     OPENAI_COMPAT p = false /\
     if existsb (String.eqb p) Object_prototype_names
     then exists e, openai_url p "" = Throw e /\ err_name e = "TypeError"
     else openai_url p "" = Ok "https://api.openai.com/v1/chat/completions") /\
    (b <> "" ->
     openai_url p b = Ok (strip_one_trailing_slash b ++ "/chat/completions") /\
     anthropic_url b = Ok (strip_one_trailing_slash b ++ "/messages") /\
     openai_url p (b ++ "/") = Ok (b ++ "/chat/completions")).
Proof.
  intros engine p b. split; [|split; [|split]].
  - unfold isAnthropic. split.
    + intros H. apply andb_prop in H. destruct H as [H _].
      apply String.eqb_eq. exact H.
    + intros ->. reflexivity.
  - unfold OPENAI_COMPAT. cbn [existsb]. intros H.
    repeat (apply orb_prop in H; destruct H as [H | H];
            [apply String.eqb_eq in H; subst p; eexists; split; reflexivity|]).
    discriminate.
  - intros none. split.
    + unfold OPENAI_COMPAT. cbn [existsb].
      repeat match goal with
             | |- context [String.eqb p ?s] =>
                 destruct (String.eqb_spec p s) as [-> | _]; [discriminate none|]
             end.
      reflexivity.
    + unfold openai_url, BASE_URLS_at. rewrite none.
      destruct (existsb (String.eqb p) Object_prototype_names);
        [eexists; split; reflexivity | reflexivity].
  - intros ne.
    assert (chosen : truthy (Some (JStr b)) = true).
    { cbn [truthy]. rewrite (eqb_empty_false ne). reflexivity. }
    assert (chosen' : truthy (Some (JStr (b ++ "/"))) = true).
    { destruct b; [contradiction | reflexivity]. }
    unfold openai_url, anthropic_url, url_under. rewrite chosen, chosen'.
    rewrite strip_one_of_slash.
    repeat split.
Qed.

(** X23 at work. *)
Lemma provider_routes_example :
  openai_url "glm" "" = Ok "https://open.bigmodel.cn/api/paas/v4/chat/completions" /\
  openai_url "mistral" "" = Ok "https://api.openai.com/v1/chat/completions" /\
  (exists e, openai_url "constructor" "" = Throw e /\ err_name e = "TypeError") /\
  openai_url "glm" "http://proxy/v1/" = Ok "http://proxy/v1/chat/completions".
Proof.
  split; [|split; [|split]].
  - destruct (proj1 (proj2 (@providers_are_routed_by_name openai_engine "glm" ""))
                eq_refl) as [u [found url]].
    rewrite url. injection found as <-. reflexivity.
  - apply (proj1 (proj2 (proj2 (@providers_are_routed_by_name openai_engine "mistral" "")))
             eq_refl).
  - apply (proj1 (proj2 (proj2 (@providers_are_routed_by_name openai_engine
                                  "constructor" "")))
             eq_refl).
  - apply (proj2 (proj2 (proj2 (@providers_are_routed_by_name openai_engine "glm"
                                  "http://proxy/v1")))).
    discriminate.
Defined.

(** ** Descriptions of well-typed calls *)




(** ** The shortcut queries *)

Lemma named_query_request (rt : runtime) (srv : server) (w : world)
    (k : convenience_query) (cs : list json) :
  nth_error (log (snd (queryNamed rt srv k (Some (JArr cs)) w))) (List.length (log w))
  = Some (request_of (cli w) "GET"
            ("/" ++ convenience_path k ++ "?limit=100"
                 ++ fold_right String.append ""
                      (map (fun c => "&q=" ++ form_encode (to_string (Some c))) cs))
            None).
Proof.
  cbv beta iota zeta delta [queryNamed query bind lift forEach default_arg _get].
  rewrite wrapped_request_first. do 2 f_equal.
  unfold search_params.
  change (truthy (Some (JInt 0))) with false. cbv iota.
  cbn [truthy params_set List.app map fst snd].
  rewrite join_from_first. cbn [fst snd].
  change (form_encode "limit" ++ "=" ++ form_encode (to_string (Some (JInt 100))))
    with "limit=100".
  cbn [to_string to_string_json].
  rewrite !map_map. cbn [fst snd]. reflexivity.
Qed.

(** X25.  Each of the eleven shortcut query tools sends first a GET to
    the path of its resource with [limit=100] and one encoded [q]
    parameter per condition: a [limit], [start] or [sort_by] among the
    arguments of such a tool is not passed on. *)
Theorem shortcut_queries_on_the_wire :
  forall (rt : runtime) (srv : server) (w : world) (fs : list (string * json))
         (cs : list json) (name : string) (k : convenience_query),
    In (name, k) shortcut_queries ->
    js_or (lookup "conditions" fs) (Some (JArr [])) = Some (JArr cs) ->
    tool_request rt srv w (Some (JStr name)) (Some (JObj fs))
    = Some (request_of (cli w) "GET"
              ("/" ++ convenience_path k ++ "?limit=100"
                   ++ fold_right String.append ""
                        (map (fun c => "&q=" ++ form_encode (to_string (Some c))) cs))
              None).
Proof.
  intros rt srv w fs cs name k listed conds.
  unfold shortcut_queries in listed.
  repeat (destruct listed as [same | listed];
          [ injection same as <- <-;
            unfold tool_request, select_call;
            cbn [prop rbind String.eqb Ascii.eqb Bool.eqb];
            rewrite conds; cbn [invoke];
            apply named_query_request
          | ]).
  destruct listed.
Qed.

(** X25 at work: the limit of 5 asked for is not sent. *)
Lemma shortcut_query_example :
  tool_request example_runtime example_server fresh_world (Some (JStr "query_hosts"))
    (Some (JObj [("conditions", JArr [JStr "state=Enabled"]); ("limit", JInt 5)]))
  = Some (request_of logged_in_client "GET" "/v1/hosts?limit=100&q=state%3DEnabled" None).
Proof.
  apply (@shortcut_queries_on_the_wire example_runtime example_server fresh_world
           [("conditions", JArr [JStr "state=Enabled"]); ("limit", JInt 5)]
           [JStr "state=Enabled"] "query_hosts" QHosts).
  - right. left. reflexivity.
  - reflexivity.
Defined.

(** ** The generic tools *)

(** The first request of a bare request and of [_rawPost]. *)
Lemma rawPost_request_first (rt : runtime) (srv : server) (path : string)
    (body : jsval) (w : world) :
  nth_error (log (snd (_rawPost rt srv path body w))) (List.length (log w))
  = Some (request_of (cli w) "POST" path (Some body)).
Proof.
  unfold _rawPost, rawPost_with.
  destruct (includes "/accounts/login" path).
  - unfold do_request. cbn [snd log]. apply nth_error_after.
  - apply wrapped_request_first.
Qed.

Lemma get_request_first (rt : runtime) (srv : server) (p u : jsval) (w : world) :
  nth_error (log (snd (get rt srv p u w))) (List.length (log w))
  = Some (request_of (cli w) "GET" ("/" ++ to_string p ++ "/" ++ to_string u) None).
Proof.
  unfold get, bind, _get.
  pose proof (@wrapped_request_first rt srv "GET"
                ("/" ++ to_string p ++ "/" ++ to_string u) None w) as first.
  destruct (retry rt srv _ w) as [[data|e] w1]; cbn [snd] in first |- *.
  - unfold lift. cbn [snd]. exact first.
  - exact first.
Qed.

(** X26.  The request the generic tools send first, for a resource path
    that is a non-empty string: the path is put under [v1/] if it was not,
    [zstack_get] sends GET to [/<path>/<uuid>], [zstack_create] POSTs the
    body to [/<path>], [zstack_update] PUTs it to [/<path>/<uuid>],
    [zstack_action] PUTs it to [/<path>/<uuid>/actions] and [zstack_delete]
    sends DELETE to [/<path>/<uuid>?deleteMode=<mode>], with [Permissive]
    for a mode that is absent or falsy.  The uuid and the mode are not
    encoded, and a call without a uuid is not refused: it asks for the
    uuid [undefined]. *)
Theorem generic_tools_on_the_wire :
  forall (rt : runtime) (srv : server) (w : world) (fs : list (string * json))
         (p : string),
    lookup "resource_path" fs = Some (JStr p) ->
    p <> "" ->
    let args := Some (JObj fs) in
    let path := "/" ++ (if startsWith "v1/" p then p else "v1/" ++ p) in
    let uuid := to_string (lookup "uuid" fs) in
    let body := lookup "body" fs in
    let mode := to_string (js_or (lookup "delete_mode" fs) (Some (JStr "Permissive"))) in
    let sent name := tool_request rt srv w (Some (JStr name)) args in
    sent "zstack_get" = Some (request_of (cli w) "GET" (path ++ "/" ++ uuid) None) /\
    sent "zstack_create" = Some (request_of (cli w) "POST" path (Some body)) /\
    sent "zstack_update"
    = Some (request_of (cli w) "PUT" (path ++ "/" ++ uuid) (Some body)) /\
    sent "zstack_action"
    = Some (request_of (cli w) "PUT" (path ++ "/" ++ uuid ++ "/actions") (Some body)) /\
    sent "zstack_delete"
    = Some (request_of (cli w) "DELETE" (path ++ "/" ++ uuid ++ "?deleteMode=" ++ mode)
                       None) /\
    (lookup "uuid" fs = None -> uuid = "undefined").
Proof.
  intros rt srv w fs p given ne args path uuid body mode sent.
  assert (fixed : fixPath (Some (JStr p))
                  = Ok (Some (JStr (if startsWith "v1/" p then p else "v1/" ++ p)))).
  { destruct (startsWith "v1/" p) eqn:has.
    - apply fixPath_of_prefixed. exact has.
    - apply fixPath_of_bare; assumption. }
  unfold sent, tool_request, args, select_call.
  cbn [prop rbind String.eqb Ascii.eqb Bool.eqb].
  rewrite given, fixed. cbn [rbind invoke].
  unfold path, uuid, body, mode.
  split; [|split; [|split; [|split; [|split]]]].
  - rewrite get_request_first. cbn [to_string to_string_json].
    rewrite !append_assoc. reflexivity.
  - unfold create. rewrite rawPost_request_first. reflexivity.
  - unfold update, _put. rewrite wrapped_request_first. cbn [to_string to_string_json].
    rewrite !append_assoc. reflexivity.
  - unfold action, _put. rewrite wrapped_request_first. cbn [to_string to_string_json].
    rewrite !append_assoc. reflexivity.
  - unfold remove, _delete. rewrite wrapped_request_first.
    cbn [to_string to_string_json].
    assert (chosen : default_arg (js_or (lookup "delete_mode" fs)
                                        (Some (JStr "Permissive")))
                                 (Some (JStr "Permissive"))
                     = js_or (lookup "delete_mode" fs) (Some (JStr "Permissive"))).
    { unfold js_or. destruct (lookup "delete_mode" fs) as [j|]; [|reflexivity].
      destruct (truthy (Some j)); reflexivity. }
    rewrite chosen, !append_assoc. reflexivity.
  - intros ->. reflexivity.
Qed.

(** X26 at work: [zstack_delete] without a uuid. *)
Lemma missing_uuid_example :
  tool_request example_runtime example_server fresh_world (Some (JStr "zstack_delete"))
    (Some (JObj [("resource_path", JStr "hosts")]))
  = Some (request_of logged_in_client "DELETE"
            "/v1/hosts/undefined?deleteMode=Permissive" None).
Proof.
  apply (@generic_tools_on_the_wire example_runtime example_server fresh_world
           [("resource_path", JStr "hosts")] "hosts" eq_refl).
  discriminate.
Defined.

(** ** The calls an OpenAI stream returns *)

Lemma valid_calls_complete (calls : sparse openai_call) :
  Forall complete_call (validToolCalls calls).
Proof.
  unfold validToolCalls. apply Forall_forall. intros tc listed.
  apply in_map_iff in listed. destruct listed as [c [<- kept]].
  apply filter_In in kept. destruct kept as [_ valid].
  apply andb_prop in valid. destruct valid as [id name].
  unfold complete_call, openai_call_object.
  destruct (oc_id c) as [j|]; [|discriminate id].
  cbn [field List.app lookup String.eqb Ascii.eqb Bool.eqb].
  split; [exact id|]. split; [reflexivity|].
  exists (oc_name c), (oc_arguments c). split; [|reflexivity].
  intros empty. rewrite empty in name. discriminate name.
Qed.

(** X27.  What [_callOpenAIStream] returns from a stream never holds
    an empty list of tool calls, and every call it holds has a truthy id,
    the type [function] and a name that is not empty: a call whose id or
    name never arrived is dropped.  The raw message has [tool_calls]
    exactly when calls are returned, and they are the same calls. *)
Theorem openai_stream_returns_complete_calls :
  forall (rt : runtime) (status : Z) (chunks : list string) (fin : read_end)
         (fallback : exchange) (r : response),
    res_ok status = true ->
    fst (_callOpenAIStream rt (Response status chunks fin) fallback) = Ok r ->
    match toolCalls r with
    | None => prop_opt (Some (raw r)) "tool_calls" = None
    | Some tcs =>
        tcs <> [] /\
        Forall complete_call tcs /\
        prop_opt (Some (raw r)) "tool_calls" = Some (JArr (map JObj tcs))
    end.
Proof.
  intros rt status chunks fin fallback r ok.
  unfold _callOpenAIStream. rewrite ok. cbn [negb fst].
  set (p := read_loop (openai_line rt) chunks fin "" openai_start).
  destruct (failure p) as [e|].
  - unfold openai_catch.
    destruct (err_name e =? "AbortError"); [discriminate|].
    destruct (negb (o_content (reached p) =? "")
              && (List.length (o_toolCalls (reached p)) =? 0)%nat)%bool;
      [|discriminate].
    intros H. injection H as <-. reflexivity.
  - intros H. injection H as <-. unfold openai_finish. cbv zeta.
    pose proof (valid_calls_complete (o_toolCalls (reached p))) as complete.
    destruct (validToolCalls (o_toolCalls (reached p))) as [|tc tcs] eqn:valid.
    + cbn [List.length Nat.eqb negb toolCalls raw]. reflexivity.
    + cbn [List.length Nat.eqb negb toolCalls raw].
      split; [discriminate|]. split; [exact complete|]. reflexivity.
Qed.

(** X27 at work: of two calls the one without an id is dropped. *)
Lemma dropped_call_example :
  fst (_callOpenAIStream example_runtime (Response 200 dropped_call_stream EndOfStream)
                         (FetchRejects AbortError))
  = Ok {| content := JStr "";
          toolCalls :=
            Some [[("id", JStr "c2"); ("type", JStr "function");
                   ("function", JObj [("name", JStr "query_hosts");
                                      ("arguments", JStr "{}")])]];
          raw :=
            JObj [("role", JStr "assistant"); ("content", JNull);
                  ("tool_calls",
                   JArr [JObj [("id", JStr "c2"); ("type", JStr "function");
                               ("function", JObj [("name", JStr "query_hosts");
                                                  ("arguments", JStr "{}")])]])] |} /\
  Forall complete_call
    [[("id", JStr "c2"); ("type", JStr "function");
      ("function", JObj [("name", JStr "query_hosts"); ("arguments", JStr "{}")])]].
Proof.
  assert (run : fst (_callOpenAIStream example_runtime
                       (Response 200 dropped_call_stream EndOfStream)
                       (FetchRejects AbortError))
                = Ok {| content := JStr "";
                        toolCalls :=
                          Some [[("id", JStr "c2"); ("type", JStr "function");
                                 ("function", JObj [("name", JStr "query_hosts");
                                                    ("arguments", JStr "{}")])]];
                        raw :=
                          JObj [("role", JStr "assistant"); ("content", JNull);
                                ("tool_calls",
                                 JArr [JObj [("id", JStr "c2"); ("type", JStr "function");
                                             ("function",
                                              JObj [("name", JStr "query_hosts");
                                                    ("arguments", JStr "{}")])]])] |})
    by (vm_compute; reflexivity).
  split; [exact run|].
  apply (@openai_stream_returns_complete_calls example_runtime 200
           dropped_call_stream EndOfStream (FetchRejects AbortError) _ eq_refl run).
Defined.

(** ** The session a login gives *)

(** X28.  When [login] returns a response, its [inventory.uuid] is
    truthy and every request the client makes afterwards carries the
    headers [Content-Type] and [Authorization: OAuth <that uuid>], and no
    other. *)
Theorem session_of_login_is_sent_back :
  forall (rt : runtime) (srv : server) (a p : string) (w : world) (res : json),
    fst (login rt srv a p w) = Ok res ->
    exists s : json,
      prop_opt (prop_opt (Some res) "inventory") "uuid" = Some s /\
      truthy (Some s) = true /\
      forall (m path : string) (body : option jsval),
        req_headers (request_of (cli (snd (login rt srv a p w))) m path body)
        = [("Content-Type", "application/json;charset=UTF-8");
           ("Authorization", "OAuth " ++ to_string (Some s))].
Proof.
  intros rt srv a p w res.
  assert (run := login_run rt srv (retry rt srv) a p w). cbv zeta in run.
  change (login_with rt (rawPost_with rt srv (retry rt srv)) a p w)
    with (login rt srv a p w) in run.
  rewrite run. clear run.
  destruct (handled rt (srv (log w) (login_request rt (cli w) a p))) as [res'|e];
    [|discriminate].
  destruct (prop (Some res') "inventory") as [inv|e] eqn:has; [|discriminate].
  assert (same : prop_opt (Some res') "inventory" = inv).
  { destruct res'; cbn in has |- *; try discriminate; congruence. }
  destruct (truthy (prop_opt inv "uuid")) eqn:good; cbn [negb fst snd cli];
    [|discriminate].
  intros H. injection H as <-. rewrite same.
  destruct (prop_opt inv "uuid") as [s|] eqn:uuid; [|discriminate good].
  exists s. split; [reflexivity|]. split; [exact good|].
  intros m path body. unfold request_of, _headers. cbn [req_headers sessionId set_sessionId].
  rewrite good. reflexivity.
Qed.

(** X28 at work. *)
Lemma session_sent_back_example :
  req_headers
    (request_of
       (cli (snd (login example_runtime
                    (always (Responds 200 (q "{'inventory':{'uuid':'s2'}}")))
                    "admin" "password" fresh_world)))
       "GET" "/v1/hosts" None)
  = [("Content-Type", "application/json;charset=UTF-8"); ("Authorization", "OAuth s2")].
Proof.
  destruct (@session_of_login_is_sent_back example_runtime
              (always (Responds 200 (q "{'inventory':{'uuid':'s2'}}")))
              "admin" "password" fresh_world
              (JObj [("inventory", JObj [("uuid", JStr "s2")])]))
    as [s [found [_ sent]]].
  - vm_compute. reflexivity.
  - rewrite sent. cbn in found. injection found as <-. reflexivity.
Defined.
